(** * cachix-action: the pre-job [setup] and post-job [upload] steps

    A shallow embedding of [src/main.ts].  The action is almost entirely
    effectful: it reads its inputs, calls the [cachix] client and a few
    Node.js primitives, and reports through [@actions/core].  The embedding
    therefore keeps the two functions as programs over an explicit
    signature of calls ([Cmd]) and log outputs ([Output]); running a program
    against a [World] (which answers every call, possibly with a failure)
    yields the chronological trace of what the action did.

    Strings are Rocq strings read as sequences of JavaScript code units
    below 256 (one [ascii] per code unit). *)

From Stdlib Require Import String Ascii List ZArith Bool Lia DecimalString.
Import ListNotations.
Local Open Scope list_scope.
Local Open Scope string_scope.

Set Implicit Arguments.

(** ** JavaScript string primitives used by the action *)

Module Js.

Definition nl : string := String "010"%char EmptyString.

(** [WhiteSpace] and [LineTerminator] code units below 256:
    TAB, LF, VT, FF, CR, SP and NBSP. *)
Definition isWhiteSpace (c : ascii) : bool :=
  let n := nat_of_ascii c in
  (Nat.eqb n 9 || Nat.eqb n 10 || Nat.eqb n 11 || Nat.eqb n 12
   || Nat.eqb n 13 || Nat.eqb n 32 || Nat.eqb n 160)%bool.

Fixpoint trimStart (s : string) : string :=
  match s with
  | EmptyString => EmptyString
  | String c s' => if isWhiteSpace c then trimStart s' else s
  end.

Fixpoint trimEnd (s : string) : string :=
  match s with
  | EmptyString => EmptyString
  | String c s' =>
      match trimEnd s' with
      | EmptyString => if isWhiteSpace c then EmptyString
                       else String c EmptyString
      | r => String c r
      end
  end.

(** [String.prototype.trim] *)
Definition trim (s : string) : string := trimEnd (trimStart s).

(** [String.prototype.split] with a one-character separator: the result
    is never empty, and [n] separators give [n + 1] segments. *)
Fixpoint split (sep : ascii) (s : string) : list string :=
  match s with
  | EmptyString => [EmptyString]
  | String c s' =>
      if Ascii.eqb c sep then EmptyString :: split sep s'
      else match split sep s' with
           | seg :: segs => String c seg :: segs
           | [] => [String c EmptyString]
           end
  end.

(** A JavaScript number as far as the action uses one: a process id, or
    [NaN] when [parseInt] finds no digits.  Integers are kept exact, which
    agrees with the IEEE double below 2^53. *)
Inductive number : Type :=
| NaN
| Int (z : Z).

Definition numberToString (n : number) : string :=
  match n with
  | NaN => "NaN"
  | Int z => NilZero.string_of_int (Z.to_int z)
  end.

Definition digitValue (radix : Z) (c : ascii) : option Z :=
  let n := Z.of_nat (nat_of_ascii c) in
  let v :=
    if ((48 <=? n) && (n <=? 57))%Z%bool then Some (n - 48)%Z
    else if ((97 <=? n) && (n <=? 122))%Z%bool then Some (n - 87)%Z
    else if ((65 <=? n) && (n <=? 90))%Z%bool then Some (n - 55)%Z
    else None in
  match v with
  | Some d => if (d <? radix)%Z then Some d else None
  | None => None
  end.

(** The longest prefix of radix-[radix] digits, read left to right;
    [None] when there is no digit at all. *)
Fixpoint digits (radix : Z) (acc : option Z) (s : string) : option Z :=
  match s with
  | EmptyString => acc
  | String c s' =>
      match digitValue radix c with
      | Some d =>
          digits radix
            (Some (match acc with Some a => a * radix + d | None => d end)%Z)
            s'
      | None => acc
      end
  end.

(** [parseInt(s)] with the radix left undefined. *)
Definition parseInt (s : string) : number :=
  let s0 := trimStart s in
  let '(sign, s1) :=
    match s0 with
    | String "-"%char r => ((-1)%Z, r)
    | String "+"%char r => (1%Z, r)
    | _ => (1%Z, s0)
    end in
  let '(radix, s2) :=
    match s1 with
    | String "0"%char (String "x"%char r) => (16%Z, r)
    | String "0"%char (String "X"%char r) => (16%Z, r)
    | _ => (10%Z, s1)
    end in
  match digits radix None s2 with
  | Some m => Int (sign * m)
  | None => NaN
  end.

(** What the action can catch: an [Error] object with its [name] and
    [message]. *)
Record Error : Type := mkError { ename : string; emessage : string }.

(** [Error.prototype.toString], which the template literal
    [`${error}`] calls. *)
Definition errorToString (e : Error) : string :=
  if String.eqb (ename e) "" then emessage e
  else if String.eqb (emessage e) "" then ename e
  else ename e ++ ": " ++ emessage e.

(** [`${x}`] for a value that may be [undefined]. *)
Definition show (o : option string) : string :=
  match o with
  | Some s => s
  | None => "undefined"
  end.

(** [a || b] on strings: the empty string and [undefined] are falsy. *)
Definition orElse (o : option string) (d : string) : string :=
  match o with
  | Some s => if String.eqb s "" then d else s
  | None => d
  end.

End Js.

(** ** Calls, outputs and programs *)

(** The answer of a call that can throw or reject. *)
Inductive result (A : Type) : Type :=
| Ok (a : A)
| Rejected (e : Js.Error).
Arguments Rejected {A} e.

Inductive Stdio : Type :=
| Ignore
| Fd (fd : Z).

(** The calls [main.ts] makes into its environment, indexed by the type of
    their answer.  [Mkdtemp dir prefix] stands for
    [fs.mkdtemp(path.join(dir, prefix))]: the created path is the world's
    answer. *)
Inductive Cmd : Type -> Type :=
| WhichSyncNoThrow (cmd : string) : Cmd (option string)
| WhichSync (cmd : string) : Cmd (result string)
| Exec (commandLine : string) (args : list string) : Cmd (result unit)
| GetEnv (key : string) : Cmd (option string)
| OsTmpdir : Cmd string
| Mkdtemp (dir prefix : string) : Cmd (result string)
| OpenSync (path flags : string) : Cmd (result Z)
| Spawn (command : string) (args : list string) (stdio : list Stdio)
        (detached : bool) : Cmd (result (option Z))
| WriteFile (path data : string) : Cmd (result unit)
| Chmod (path : string) (mode : Z) : Cmd (result unit)
| Mkdir (path : string) (recursive : bool) : Cmd (result unit)
| WriteSync (fd : Z) (data : string) : Cmd (result unit)
| Close (fd : Z) : Cmd (result unit)
| ReadFile (path encoding : string) : Cmd (result string)
| NewTail (path : string) (fromBeginning : bool) : Cmd (result unit)
| Kill (pid : Js.number) (signal : string) : Cmd (result unit).

(** What the action reports through [@actions/core], and the handle
    operations that cannot fail.  Reporting is taken not to throw. *)
Inductive Output : Type :=
| StartGroup (title : string)
| EndGroup
| Info (message : string)
| Debug (message : string)
| SetFailed (message : string)
| ExportVariable (key value : string)
| TailOnLineInfo
| TailUnwatch
| Unref.

(** One entry of the trace.  [Did c x]: the call [c] was made and waited
    for, and answered [x].  [Floated c r]: the call [c] was started and its
    outcome [r] was never waited for, so a rejection reaches no handler of
    the program. *)
Inductive Event : Type :=
| Out (o : Output)
| Did {X : Type} (c : Cmd X) (x : X)
| Floated {X : Type} (c : Cmd (result X)) (r : result X).

Definition Trace : Type := list Event.

(** The environment answers every call, knowing what happened so far. *)
Definition World : Type := forall X : Type, Trace -> Cmd X -> X.

Inductive Prog (A : Type) : Type :=
| Ret (a : A)
| Throw (e : Js.Error)
| Emit (o : Output) (k : Prog A)
| Call {X : Type} (c : Cmd X) (k : X -> Prog A)
| NoAwait {X : Type} (c : Cmd (result X)) (k : Prog A).
Arguments Throw {A} e.

Fixpoint bind {A B : Type} (p : Prog A) (f : A -> Prog B) : Prog B :=
  match p with
  | Ret a => f a
  | Throw e => Throw e
  | Emit o k => Emit o (bind k f)
  | Call c k => Call c (fun x => bind (k x) f)
  | NoAwait c k => NoAwait c (bind k f)
  end.

Declare Scope prog_scope.
Delimit Scope prog_scope with prog.
Notation "x <- p ;; k" := (bind p (fun x => k))
  (at level 61, p at next level, right associativity) : prog_scope.
Notation "p ;; k" := (bind p (fun _ => k))
  (at level 61, right associativity) : prog_scope.
Local Open Scope prog_scope.

(** [try { p } catch (error) { handler error }].  The outcome of a call
    that was not waited for is not delivered to the handler. *)
Fixpoint tryCatch {A : Type} (p : Prog A) (handler : Js.Error -> Prog A)
  : Prog A :=
  match p with
  | Ret a => Ret a
  | Throw e => handler e
  | Emit o k => Emit o (tryCatch k handler)
  | Call c k => Call c (fun x => tryCatch (k x) handler)
  | NoAwait c k => NoAwait c (tryCatch k handler)
  end.

Definition emit (o : Output) : Prog unit := Emit o (Ret tt).

Definition call {X : Type} (c : Cmd X) : Prog X := Call c (fun x => Ret x).

(** [await c]: wait for the promise; a rejection is thrown here. *)
Definition await {X : Type} (c : Cmd (result X)) : Prog X :=
  Call c (fun r => match r with Ok x => Ret x | Rejected e => Throw e end).

(** A synchronous call that throws on failure. *)
Definition sync {X : Type} (c : Cmd (result X)) : Prog X := await c.

(** A call whose promise (or callback) is dropped. *)
Definition noAwait {X : Type} (c : Cmd (result X)) : Prog unit :=
  NoAwait c (Ret tt).

(** [for (let x of xs) { body x }] *)
Fixpoint forOf {X : Type} (xs : list X) (body : X -> Prog unit) : Prog unit :=
  match xs with
  | [] => Ret tt
  | x :: xs' => body x ;; forOf xs' body
  end.

(** Running a program from history [h]: the trace afterwards and how the
    program ended. *)
Fixpoint run {A : Type} (w : World) (p : Prog A) (h : Trace)
  : Trace * result A :=
  match p with
  | Ret a => (h, Ok a)
  | Throw e => (h, Rejected e)
  | Emit o k => run w k (h ++ [Out o])%list
  | Call c k => let x := w _ h c in run w (k x) (h ++ [Did c x])%list
  | NoAwait c k => let r := w _ h c in run w k (h ++ [Floated c r])%list
  end.

Definition trace {A : Type} (w : World) (p : Prog A) : Trace :=
  fst (run w p []).

Definition outcome {A : Type} (w : World) (p : Prog A) : result A :=
  snd (run w p []).

(** ** The action *)

(** The inputs read at module load (lines 12-24). *)
Record Inputs : Type := mkInputs {
  name : string;
  extraPullNames : string;
  signingKey : string;
  authToken : string;
  skipPush : string;
  pathsToPush : string;
  pushFilter : string;
  cachixArgs : string;
  installCommand : string;
  skipAddingSubstituter : string;
  useDaemon : string
}.

Definition ENV_CACHIX_DAEMON_DIR : string := "CACHIX_DAEMON_DIR".

(** [core.getInput('installCommand') || "nix-env ..."] (lines 20-22);
    [raw] is what [core.getInput] returned. *)
Definition installCommandOf (raw : string) : string :=
  Js.orElse (Some raw)
    "nix-env --quiet -j8 -iA cachix -f https://cachix.org/api/v1/install".

(** The text written to the post-build hook (lines 92-102).  A backslash
    before a line end is a line continuation of the template literal and
    contributes nothing, so the [exec] command is one line of the file. *)
Definition postBuildHookScript (cachix daemonDir name : string) : string :=
  Js.nl ++
  "      #!/bin/sh" ++ Js.nl ++
  Js.nl ++
  "      set -eux" ++ Js.nl ++
  "      set -f #disable globbing" ++ Js.nl ++
  "      export IFS=''" ++ Js.nl ++
  Js.nl ++
  "      exec " ++ cachix ++ " daemon push " ++
  "        --socket " ++ daemonDir ++ "/daemon.sock " ++
  "        " ++ name ++ " $OUT_PATHS" ++ Js.nl ++
  "     ".

(** The text appended to [nix.conf] (lines 110-112). *)
Definition nixConfLine (postBuildHookPath : string) : string :=
  Js.nl ++
  "      post-build-hook = " ++ postBuildHookPath ++ Js.nl ++
  "      ".

(** [if (x)] and [!x] on a string that may be [null] or [undefined]. *)
Definition truthy (o : option string) : bool :=
  match o with
  | Some s => negb (String.eqb s "")
  | None => false
  end.

(** [`${daemon.pid}`] *)
Definition showPid (pid : option Z) : string :=
  match pid with
  | Some p => Js.numberToString (Js.Int p)
  | None => "undefined"
  end.

(** [catch (error) { core.setFailed(...) }] (lines 125-127, 168-170). *)
Definition reportFailure (error : Js.Error) : Prog unit :=
  emit (SetFailed ("Action failed with error: " ++ Js.errorToString error)).

Section Action.

Variable i : Inputs.
(** [__dirname] of the compiled module. *)
Variable dirname : string.

(** Lines 30-34. *)
Definition ensureInstalled : Prog unit :=
  found <- call (WhichSyncNoThrow "cachix") ;;
  if negb (truthy found) then
    emit (StartGroup "Cachix: installing") ;;
    await (Exec "bash" ["-c"; installCommand i]) ;;
    emit EndGroup
  else Ret tt.

(** Lines 36-38. *)
Definition checkVersion : Prog unit :=
  emit (StartGroup "Cachix: checking version") ;;
  await (Exec "cachix" ["--version"]) ;;
  emit EndGroup.

(** Lines 41-43. *)
Definition registerAuthToken : Prog unit :=
  if negb (String.eqb (authToken i) "") then
    await (Exec "cachix" ["authtoken"; authToken i])
  else Ret tt.

(** Lines 45-51. *)
Definition usePrimaryCache : Prog unit :=
  if String.eqb (skipAddingSubstituter i) "true" then
    emit (Info "Not adding Cachix cache to substituters as skipAddingSubstituter is set to true")
  else
    emit (StartGroup ("Cachix: using cache " ++ name i)) ;;
    await (Exec "cachix" ["use"; name i]) ;;
    emit EndGroup.

(** Lines 53-61. *)
Definition useExtraCaches : Prog unit :=
  if negb (String.eqb (extraPullNames i) "") then
    emit (StartGroup ("Cachix: using extra caches " ++ extraPullNames i)) ;;
    let extraPullNameList := Js.split "," (extraPullNames i) in
    forOf extraPullNameList (fun itemName =>
      let trimmedItemName := Js.trim itemName in
      await (Exec "cachix" ["use"; trimmedItemName])) ;;
    emit EndGroup
  else Ret tt.

(** Lines 63-65. *)
Definition exportSigningKey : Prog unit :=
  if negb (String.eqb (signingKey i) "") then
    emit (ExportVariable "CACHIX_SIGNING_KEY" (signingKey i))
  else Ret tt.

(** Lines 68-120: the daemon branch.  The promise of [fs.chmod] is not
    awaited (line 105) and [close] is the callback variant called without
    a callback (line 113): neither outcome can reach the [catch].  A
    [spawn] that fails asynchronously shows as a missing process id.
    After such a failure Node ends the process; the program says what the
    step would go on to do (see [fatal]). *)
Definition startDaemon : Prog unit :=
  runnerTemp <- call (GetEnv "RUNNER_TEMP") ;;
  tmpdir <- (if truthy runnerTemp then Ret (Js.show runnerTemp)
             else call OsTmpdir) ;;
  daemonDir <- await (Mkdtemp tmpdir "cachix-daemon-") ;;
  daemonLog <- sync (OpenSync (daemonDir ++ "/daemon.log") "a") ;;
  pid <- sync (Spawn "cachix"
                 ["daemon"; "run"; "--socket"; daemonDir ++ "/daemon.sock"]
                 [Ignore; Fd daemonLog; Fd daemonLog] true) ;;
  match pid with
  | Some p =>
      await (WriteFile (daemonDir ++ "/daemon.pid")
               (Js.numberToString (Js.Int p)))
  | None => Ret tt
  end ;;
  cachix <- sync (WhichSync "cachix") ;;
  emit (Debug ("Found cachix executable: " ++ cachix)) ;;
  let postBuildHookPath := daemonDir ++ "/cachix-post-build-hook.sh" in
  await (WriteFile postBuildHookPath
           (postBuildHookScript cachix daemonDir (name i))) ;;
  noAwait (Chmod postBuildHookPath 493) ;;
  home <- call (GetEnv "HOME") ;;
  await (Mkdir (Js.show home ++ "/.config/nix") true) ;;
  home' <- call (GetEnv "HOME") ;;
  nixConf <- sync (OpenSync (Js.show home' ++ "/.config/nix/nix.conf") "a") ;;
  sync (WriteSync nixConf (nixConfLine postBuildHookPath)) ;;
  noAwait (Close nixConf) ;;
  emit (ExportVariable ENV_CACHIX_DAEMON_DIR daemonDir) ;;
  emit (Debug ("Cachix daemon started with pid " ++ showPid pid)) ;;
  emit Unref.

(** Line 123: the direct-push branch. *)
Definition rememberStorePaths : Prog unit :=
  await (Exec "sh"
           ["-c"; dirname ++ "/list-nix-store.sh > /tmp/store-path-pre-build"]).

(** Lines 28-128. *)
Definition setup : Prog unit :=
  tryCatch
    (ensureInstalled ;;
     checkVersion ;;
     registerAuthToken ;;
     usePrimaryCache ;;
     useExtraCaches ;;
     exportSigningKey ;;
     if String.eqb (useDaemon i) "true" then startDaemon
     else rememberStorePaths)
    reportFailure.

(** Lines 138-161: shutting the daemon down.  [TailOnLineInfo] is the
    registration of the listener of line 144; the lines the listener
    prints come once [upload] has returned and are no part of this
    program (see [forwarded]). *)
Definition stopDaemon : Prog unit :=
  daemonDir <- call (GetEnv ENV_CACHIX_DAEMON_DIR) ;;
  pidFile <- await (ReadFile (Js.show daemonDir ++ "/daemon.pid") "utf8") ;;
  let daemonPid := Js.parseInt pidFile in
  emit (Debug ("Found Cachix daemon with pid "
               ++ Js.numberToString daemonPid)) ;;
  sync (NewTail (Js.show daemonDir ++ "/daemon.log") true) ;;
  emit TailOnLineInfo ;;
  tryCatch
    (emit (Debug ("Sending SIGINT to Cachix daemon with pid "
                  ++ Js.numberToString daemonPid)) ;;
     sync (Kill daemonPid "SIGINT"))
    (fun _ => Ret tt) ;;
  emit (Debug "Waiting for Cachix daemon to exit...") ;;
  emit TailUnwatch.

(** Line 163: the push helper. *)
Definition pushPaths : Prog unit :=
  await (Exec (dirname ++ "/push-paths.sh")
           ["cachix"; cachixArgs i; name i; pathsToPush i; pushFilter i]).

(** Lines 130-173. *)
Definition upload : Prog unit :=
  emit (StartGroup "Cachix: push") ;;
  tryCatch
    (if String.eqb (skipPush i) "true" then
       emit (Info "Pushing is disabled as skipPush is set to true")
     else if (negb (String.eqb (signingKey i) "")
              || negb (String.eqb (authToken i) ""))%bool then
       if String.eqb (useDaemon i) "true" then stopDaemon
       else pushPaths
     else
       emit (Info "Pushing is disabled as signingKey nor authToken are set (or are empty?) in your YAML file."))
    reportFailure ;;
  emit EndGroup.

End Action.

(** ** A world in which nothing fails *)

(** Every call succeeds: [cachix] is installed at [/usr/bin/cachix], the
    fresh directory is [/tmp/cachix-daemon-Ab12], the daemon gets pid 4242
    and descriptors are 3. *)
Definition happy : World :=
  fun X _ c =>
    match c in Cmd X return X with
    | WhichSyncNoThrow _ => Some "/usr/bin/cachix"
    | WhichSync _ => Ok "/usr/bin/cachix"
    | Exec _ _ => Ok tt
    | GetEnv key =>
        if String.eqb key "HOME" then Some "/home/runner"
        else if String.eqb key "RUNNER_TEMP" then Some "/tmp"
        else if String.eqb key "CACHIX_DAEMON_DIR"
             then Some "/tmp/cachix-daemon-Ab12"
        else None
    | OsTmpdir => "/tmp"
    | Mkdtemp _ _ => Ok "/tmp/cachix-daemon-Ab12"
    | OpenSync _ _ => Ok 3%Z
    | Spawn _ _ _ _ => Ok (Some 4242%Z)
    | WriteFile _ _ => Ok tt
    | Chmod _ _ => Ok tt
    | Mkdir _ _ => Ok tt
    | WriteSync _ _ => Ok tt
    | Close _ => Ok tt
    | ReadFile _ _ => Ok "4242"
    | NewTail _ _ => Ok tt
    | Kill _ _ => Ok tt
    end.

Definition exampleInputs : Inputs :=
  {| name := "my-cache";
     extraPullNames := "";
     signingKey := "secret";
     authToken := "";
     skipPush := "false";
     pathsToPush := "";
     pushFilter := "";
     cachixArgs := "";
     installCommand := installCommandOf "";
     skipAddingSubstituter := "false";
     useDaemon := "false" |}.

Definition dist : string := "/action/dist/main".

(** ** Reading traces *)

Definition rejected {A : Type} (r : result A) : option Js.Error :=
  match r with
  | Ok _ => None
  | Rejected e => Some e
  end.

(** The error of a call that was waited for and failed. *)
Definition rejection (ev : Event) : option Js.Error :=
  match ev with
  | Did c x =>
      match c in Cmd X return X -> option Js.Error with
      | WhichSyncNoThrow _ => fun _ => None
      | WhichSync _ => fun r => rejected r
      | Exec _ _ => fun r => rejected r
      | GetEnv _ => fun _ => None
      | OsTmpdir => fun _ => None
      | Mkdtemp _ _ => fun r => rejected r
      | OpenSync _ _ => fun r => rejected r
      | Spawn _ _ _ _ => fun r => rejected r
      | WriteFile _ _ => fun r => rejected r
      | Chmod _ _ => fun r => rejected r
      | Mkdir _ _ => fun r => rejected r
      | WriteSync _ _ => fun r => rejected r
      | Close _ => fun r => rejected r
      | ReadFile _ _ => fun r => rejected r
      | NewTail _ _ => fun r => rejected r
      | Kill _ _ => fun r => rejected r
      end x
  | _ => None
  end.

(** The error of a call nobody waited for: an unhandled rejection. *)
Definition unhandledOf (ev : Event) : option Js.Error :=
  match ev with
  | Floated _ r => rejected r
  | _ => None
  end.

Fixpoint unhandled (t : Trace) : list Js.Error :=
  match t with
  | [] => []
  | ev :: t' =>
      match unhandledOf ev with
      | Some e => e :: unhandled t'
      | None => unhandled t'
      end
  end.

(** The first failed awaited call of a trace, with what follows it. *)
Fixpoint firstRejection (t : Trace) : option (Js.Error * Trace) :=
  match t with
  | [] => None
  | ev :: t' =>
      match rejection ev with
      | Some e => Some (e, t')
      | None => firstRejection t'
      end
  end.

Definition failureOf (ev : Event) : option string :=
  match ev with
  | Out (SetFailed m) => Some m
  | _ => None
  end.

Definition isSetFailed (ev : Event) : bool :=
  match failureOf ev with Some _ => true | None => false end.

(** Arguments of a [cachix] client invocation. *)
Definition cachixCall (ev : Event) : option (list string) :=
  match ev with
  | Did (Exec cl args) _ => if String.eqb cl "cachix" then Some args else None
  | _ => None
  end.

(** The cache name of a [cachix use <name>] invocation. *)
Definition useCall (ev : Event) : option string :=
  match cachixCall ev with
  | Some [sub; x] => if String.eqb sub "use" then Some x else None
  | _ => None
  end.

Definition isUse (ev : Event) : bool :=
  match useCall ev with Some _ => true | None => false end.

(** The token of a [cachix authtoken <token>] invocation. *)
Definition authCall (ev : Event) : option string :=
  match cachixCall ev with
  | Some [sub; x] => if String.eqb sub "authtoken" then Some x else None
  | _ => None
  end.

(** [pick f t]: the values [f] extracts, in trace order. *)
Fixpoint pick {B : Type} (f : Event -> option B) (t : Trace) : list B :=
  match t with
  | [] => []
  | ev :: t' =>
      match f ev with
      | Some b => b :: pick f t'
      | None => pick f t'
      end
  end.

Definition useCalls (t : Trace) : list string := pick useCall t.

Definition spawnArgs (ev : Event) : option (list string) :=
  match ev with
  | Did (Spawn _ args _ _) _ => Some args
  | _ => None
  end.

Definition writtenFile (ev : Event) : option (string * string) :=
  match ev with
  | Did (WriteFile p data) _ => Some (p, data)
  | _ => None
  end.

Definition openedFile (ev : Event) : option string :=
  match ev with
  | Did (OpenSync p _) _ => Some p
  | _ => None
  end.

Definition readFileOf (ev : Event) : option string :=
  match ev with
  | Did (ReadFile p _) _ => Some p
  | _ => None
  end.

Definition tailedFile (ev : Event) : option string :=
  match ev with
  | Did (NewTail p _) _ => Some p
  | _ => None
  end.

Definition envRead (ev : Event) : option string :=
  match ev with
  | Did (GetEnv k) _ => Some k
  | _ => None
  end.

Definition exportOf (ev : Event) : option (string * string) :=
  match ev with
  | Out (ExportVariable k v) => Some (k, v)
  | _ => None
  end.

(** The value a later step of the job finds in variable [key]: the last
    one exported. *)
Fixpoint exported (key : string) (t : Trace) : option string :=
  match t with
  | [] => None
  | ev :: t' =>
      match exported key t' with
      | Some v => Some v
      | None =>
          match exportOf ev with
          | Some (k, v) => if String.eqb k key then Some v else None
          | None => None
          end
      end
  end.

(** ** Predicates on programs *)

(** [emitsOnly P p]: whatever the world answers, every event [p] adds to
    the trace satisfies [P]. *)
Fixpoint emitsOnly {A : Type} (P : Event -> Prop) (p : Prog A) : Prop :=
  match p with
  | Ret _ => True
  | Throw _ => True
  | Emit o k => P (Out o) /\ emitsOnly P k
  | Call c k => forall x, P (Did c x) /\ emitsOnly P (k x)
  | NoAwait c k => (forall r, P (Floated c r)) /\ emitsOnly P k
  end.

(** ** Classifying the steps of a run *)

(** The steps by which [upload] gets paths pushed: the push helper of the
    direct mode, and the shutdown sequence of the daemon mode (which makes
    the daemon flush its queue). *)
Definition isPushStep (dirname : string) (ev : Event) : bool :=
  match ev with
  | Did (Exec cl _) _ => String.eqb cl (dirname ++ "/push-paths.sh")
  | Did (GetEnv k) _ => String.eqb k ENV_CACHIX_DAEMON_DIR
  | Did (ReadFile _ _) _ => true
  | Did (NewTail _ _) _ => true
  | Did (Kill _ _) _ => true
  | Out TailOnLineInfo => true
  | Out TailUnwatch => true
  | _ => false
  end.

(** [skipPush !== 'true' && (signingKey !== "" || authToken !== "")] *)
Definition pushEnabled (i : Inputs) : bool :=
  (negb (String.eqb (skipPush i) "true")
   && (negb (String.eqb (signingKey i) "")
       || negb (String.eqb (authToken i) "")))%bool.


(** The steps only the daemon mode takes: creating the daemon directory,
    spawning, writing and registering the hook, exporting the handoff
    variable in [setup]; looking the directory up, reading the pid, tailing
    the log and signalling in [upload]. *)
Definition isDaemonStep (ev : Event) : bool :=
  match ev with
  | Did (WhichSyncNoThrow _) _ => false
  | Did (Exec _ _) _ => false
  | Did _ _ => true
  | Floated _ _ => true
  | Out (ExportVariable k _) => String.eqb k ENV_CACHIX_DAEMON_DIR
  | Out TailOnLineInfo => true
  | Out TailUnwatch => true
  | Out Unref => true
  | Out _ => false
  end.

(** The steps only the direct-push mode takes: the store-path snapshot in
    [setup] and the push helper in [upload]. *)
Definition isDirectStep (dirname : string) (ev : Event) : bool :=
  match ev with
  | Did (Exec cl args) _ =>
      (String.eqb cl "sh"
       && match args with
          | [a; b] =>
              String.eqb a "-c"
              && String.eqb b (dirname ++
                   "/list-nix-store.sh > /tmp/store-path-pre-build")
          | _ => false
          end
       || String.eqb cl (dirname ++ "/push-paths.sh"))%bool
  | _ => false
  end.

(** [cachix authtoken tok] *)
Definition isAuth (tok : string) (ev : Event) : bool :=
  match authCall ev with
  | Some x => String.eqb x tok
  | None => false
  end.

(** No [use] call so far. *)
Definition noUseYet (h : Trace) : Prop := existsb isUse h = false.

(** The token was registered before any [use] call. *)
Definition authFirst (tok : string) (h : Trace) : Prop :=
  exists pre post,
    h = (pre ++ post)%list /\ existsb isUse pre = false
    /\ existsb (isAuth tok) pre = true.


(** [strict p]: [p] waits for each of its calls and lets a failure end it
    at once (no failure of an awaited call is swallowed, and nothing is
    thrown but such failures). *)
Fixpoint strict {A : Type} (p : Prog A) : Prop :=
  match p with
  | Ret _ => True
  | Throw _ => False
  | Emit _ k => strict k
  | Call c k =>
      forall x,
        match rejection (Did c x) with
        | Some e => k x = Throw e
        | None => strict (k x)
        end
  | NoAwait _ k => strict k
  end.

(** What follows the first failed [cachix use] call of a trace. *)
Fixpoint afterFailedUse (t : Trace) : option Trace :=
  match t with
  | [] => None
  | ev :: t' =>
      match useCall ev, rejection ev with
      | Some _, Some _ => Some t'
      | _, _ => afterFailedUse t'
      end
  end.

(** The registrations [setup] makes when nothing fails: the primary cache
    unless skipped. *)
Definition primaryUse (i : Inputs) : list string :=
  if String.eqb (skipAddingSubstituter i) "true" then [] else [name i].

(** The registrations of the extra caches (lines 53-59). *)
Definition extraUses (i : Inputs) : list string :=
  if String.eqb (extraPullNames i) "" then []
  else map Js.trim (Js.split "," (extraPullNames i)).

(** [runsOk w p L]: from any history, [p] returns normally in world [w]
    and the [use] calls it makes are [L]. *)
Definition runsOk (w : World) (p : Prog unit) (L : list string) : Prop :=
  forall h, exists t,
    run w p h = ((h ++ t)%list, Ok tt) /\ useCalls t = L.

(** Every client or shell invocation succeeds. *)
Definition execSucceeds (w : World) : Prop :=
  forall h cl args, w _ h (Exec cl args) = Ok tt.

(** The command line of the hook script, as it stands in the file: the
    client, [daemon push], the socket and the cache name, then the
    build tool's output paths. *)
Definition hookInvocation (cachix socket cacheName : string) : string :=
  "exec " ++ cachix ++ " daemon push " ++
  "        --socket " ++ socket ++ " " ++
  "        " ++ cacheName ++ " $OUT_PATHS".

(** What the hook script holds before its command line. *)
Definition hookPreamble : string :=
  Js.nl ++
  "      #!/bin/sh" ++ Js.nl ++
  Js.nl ++
  "      set -eux" ++ Js.nl ++
  "      set -f #disable globbing" ++ Js.nl ++
  "      export IFS=''" ++ Js.nl ++
  Js.nl ++
  "      ".

(** An event that names no daemon directory. *)
Definition quiet (ev : Event) : Prop :=
  match ev with
  | Did (Spawn _ _ _ _) _ => False
  | Did (WriteFile _ _) _ => False
  | Did (OpenSync _ _) _ => False
  | Out (ExportVariable k _) => k <> ENV_CACHIX_DAEMON_DIR
  | _ => True
  end.

(** [coherent i dd ev]: if [ev] names a daemon directory, it is [dd]: the
    daemon listens on [dd/daemon.sock], the files written are
    [dd/daemon.pid] and the hook script (which names the same directory
    and the cache [name i]), the files opened are [dd/daemon.log] and the
    user's [nix.conf], and the handoff variable holds [dd]. *)
Definition coherent (i : Inputs) (dd : string) (ev : Event) : Prop :=
  match ev with
  | Did (Spawn _ args _ _) _ =>
      args = ["daemon"; "run"; "--socket"; dd ++ "/daemon.sock"]
  | Did (WriteFile p data) _ =>
      p = dd ++ "/daemon.pid" \/
      (p = dd ++ "/cachix-post-build-hook.sh" /\
       exists cachix, data = postBuildHookScript cachix dd (name i))
  | Did (OpenSync p _) _ =>
      p = dd ++ "/daemon.log" \/
      exists home, p = home ++ "/.config/nix/nix.conf"
  | Out (ExportVariable k v) => k = ENV_CACHIX_DAEMON_DIR -> v = dd
  | _ => True
  end.

(** The trace names no daemon directory, or one and the same throughout. *)
Definition oneDaemonDir (i : Inputs) (t : Trace) : Prop :=
  Forall quiet t \/ exists dd, Forall (coherent i dd) t.

(** The runner passes the variables exported by an earlier step, whose
    trace was [t], to the process that runs in world [w]. *)
Definition handsOver (t : Trace) (w : World) : Prop :=
  forall h k v, exported k t = Some v -> w _ h (GetEnv k) = Some v.

(** ** Inputs and worlds used in examples *)

Definition withUseDaemon (v : string) (i : Inputs) : Inputs :=
  {| name := name i; extraPullNames := extraPullNames i;
     signingKey := signingKey i; authToken := authToken i;
     skipPush := skipPush i; pathsToPush := pathsToPush i;
     pushFilter := pushFilter i; cachixArgs := cachixArgs i;
     installCommand := installCommand i;
     skipAddingSubstituter := skipAddingSubstituter i;
     useDaemon := v |}.

Definition withSkipPush (v : string) (i : Inputs) : Inputs :=
  {| name := name i; extraPullNames := extraPullNames i;
     signingKey := signingKey i; authToken := authToken i;
     skipPush := v; pathsToPush := pathsToPush i;
     pushFilter := pushFilter i; cachixArgs := cachixArgs i;
     installCommand := installCommand i;
     skipAddingSubstituter := skipAddingSubstituter i;
     useDaemon := useDaemon i |}.

Definition withSkipAddingSubstituter (v : string) (i : Inputs) : Inputs :=
  {| name := name i; extraPullNames := extraPullNames i;
     signingKey := signingKey i; authToken := authToken i;
     skipPush := skipPush i; pathsToPush := pathsToPush i;
     pushFilter := pushFilter i; cachixArgs := cachixArgs i;
     installCommand := installCommand i;
     skipAddingSubstituter := v;
     useDaemon := useDaemon i |}.

(** Daemon mode with an auth token and two extra caches. *)
Definition daemonInputs : Inputs :=
  {| name := "my-cache";
     extraPullNames := "nix-community , devenv";
     signingKey := "";
     authToken := "tok";
     skipPush := "false";
     pathsToPush := "";
     pushFilter := "";
     cachixArgs := "";
     installCommand := installCommandOf "";
     skipAddingSubstituter := "false";
     useDaemon := "true" |}.

(** No credentials at all. *)
Definition anonymousInputs : Inputs :=
  {| name := "my-cache";
     extraPullNames := "a,,b";
     signingKey := "";
     authToken := "";
     skipPush := "false";
     pathsToPush := "";
     pushFilter := "";
     cachixArgs := "";
     installCommand := installCommandOf "";
     skipAddingSubstituter := "false";
     useDaemon := "false" |}.

Definition eperm : Js.Error :=
  {| Js.ename := "Error";
     Js.emessage := "EPERM: operation not permitted, chmod '/tmp/cachix-daemon-Ab12/cachix-post-build-hook.sh'" |}.

(** As [happy], except that [chmod] is refused. *)
Definition chmodDenied : World :=
  fun X h c =>
    match c in Cmd X0 return X0 -> X0 with
    | Chmod _ _ => fun _ => Rejected eperm
    | _ => fun x => x
    end (happy h c).

(** As [happy], except that registering the cache [bad] fails. *)
Definition useFails (bad : string) : World :=
  fun X h c =>
    match c in Cmd X0 return X0 -> X0 with
    | Exec cl args =>
        fun x =>
          match args with
          | [sub; x'] =>
              if (String.eqb cl "cachix" && String.eqb sub "use"
                  && String.eqb x' bad)%bool
              then Rejected {| Js.ename := "Error";
                               Js.emessage := "The process '/usr/bin/cachix' failed with exit code 1" |}
              else x
          | _ => x
          end
    | _ => fun x => x
    end (happy h c).

(** Two output paths, as the build tool reports them in [OUT_PATHS]. *)
Definition twoOutPaths : string :=
  "/nix/store/aaa-foo /nix/store/bbb-foo-dev".

(** ** The fragment of POSIX [sh] the hook script is written in

    The hook is a shell script, so what it does with its expansions is
    decided by the shell.  This is the fragment the script uses, after
    the Shell Command Language (XCU 2): blank-separated words, [#]
    comments, single quotes, unquoted [$NAME] expansions, field splitting
    by [IFS] (2.6.5), and the built-ins [set], [export] and [exec].
    Anything else is [Unsupported] rather than guessed at. *)

Module Sh.

Inductive Part : Type :=
| Lit (c : ascii)
| Quoted (s : string)
| Param (name : string).

Definition Word : Type := list Part.

Inductive Mode : Type :=
| Normal
| InQuote (buf : string)
| InParam (name : string).

Definition isBlank (c : ascii) : bool :=
  (Ascii.eqb c " " || Ascii.eqb c "009")%bool.

Definition between (lo hi : nat) (c : ascii) : bool :=
  (Nat.leb lo (nat_of_ascii c) && Nat.leb (nat_of_ascii c) hi)%bool.

Definition isNameStart (c : ascii) : bool :=
  (between 65 90 c || between 97 122 c || Ascii.eqb c "_")%bool.

Definition isNameChar (c : ascii) : bool :=
  (isNameStart c || between 48 57 c)%bool.

(** Characters whose meaning (double quotes, escapes, substitutions,
    operators, tilde) is outside the fragment. *)
Definition isOperator (c : ascii) : bool :=
  existsb (Ascii.eqb c)
    ["034"; "\"; "`"; ";"; "&"; "|"; "<"; ">"; "("; ")"; "~"]%char.

Definition snoc (s : string) (c : ascii) : string :=
  (s ++ String c EmptyString)%string.

Definition pushPart (cur : option Word) (p : Part) : option Word :=
  match cur with
  | Some wd => Some (wd ++ [p])%list
  | None => Some [p]
  end.

Definition closeWord (ws : list Word) (cur : option Word) : list Word :=
  match cur with
  | Some wd => (ws ++ [wd])%list
  | None => ws
  end.

Inductive Next : Type :=
| Comment
| Continue (ws : list Word) (cur : option Word) (m : Mode)
| Bad.

(** One character read outside quotes; [rest] is what follows it. *)
Definition normalStep (c : ascii) (rest : string) (ws : list Word)
           (cur : option Word) : Next :=
  if isBlank c then Continue (closeWord ws cur) None Normal
  else if Ascii.eqb c "#" then
    match cur with
    | None => Comment
    | Some _ => Continue ws (pushPart cur (Lit c)) Normal
    end
  else if Ascii.eqb c "'" then Continue ws cur (InQuote EmptyString)
  else if Ascii.eqb c "$" then
    match rest with
    | String d _ => if isNameStart d then Continue ws cur (InParam EmptyString)
                    else Bad
    | EmptyString => Bad
    end
  else if isOperator c then Bad
  else Continue ws (pushPart cur (Lit c)) Normal.

(** The words of one line. *)
Fixpoint lex (s : string) (ws : list Word) (cur : option Word) (m : Mode)
  : option (list Word) :=
  match s with
  | EmptyString =>
      match m with
      | Normal => Some (closeWord ws cur)
      | InParam n => Some (closeWord ws (pushPart cur (Param n)))
      | InQuote _ => None
      end
  | String c s' =>
      match m with
      | InQuote buf =>
          if Ascii.eqb c "'" then lex s' ws (pushPart cur (Quoted buf)) Normal
          else lex s' ws cur (InQuote (snoc buf c))
      | InParam n =>
          if isNameChar c then lex s' ws cur (InParam (snoc n c))
          else
            match normalStep c s' ws (pushPart cur (Param n)) with
            | Comment => Some (closeWord ws (pushPart cur (Param n)))
            | Continue ws' cur' m' => lex s' ws' cur' m'
            | Bad => None
            end
      | Normal =>
          match normalStep c s' ws cur with
          | Comment => Some (closeWord ws cur)
          | Continue ws' cur' m' => lex s' ws' cur' m'
          | Bad => None
          end
      end
  end.

Definition words (line : string) : option (list Word) :=
  lex line [] None Normal.

(** Where a character of an expanded word comes from. *)
Inductive Origin : Type :=
| Literal
| FromQuote
| FromParam.

Record Shell : Type := mkShell {
  errexit : bool;
  nounset : bool;
  xtrace : bool;
  noglob : bool;
  vars : list (string * string)
}.

Fixpoint lookup (n : string) (vs : list (string * string)) : option string :=
  match vs with
  | [] => None
  | (k, v) :: vs' => if String.eqb k n then Some v else lookup n vs'
  end.

Definition assign (n v : string) (st : Shell) : Shell :=
  {| errexit := errexit st; nounset := nounset st; xtrace := xtrace st;
     noglob := noglob st; vars := (n, v) :: vars st |}.

(** [IFS]; unset, it acts as space, tab, newline. *)
Definition ifsOf (st : Shell) : string :=
  match lookup "IFS" (vars st) with
  | Some v => v
  | None => String " " (String "009" (String "010" EmptyString))
  end.

Definition tag (o : Origin) (s : string) : list (ascii * Origin) :=
  map (fun c => (c, o)) (list_ascii_of_string s).

Definition untag (cs : list (ascii * Origin)) : string :=
  string_of_list_ascii (map fst cs).

Inductive Expanded : Type :=
| Chars (cs : list (ascii * Origin)) (quoted : bool)
| Unset (n : string).

(** Parameter expansion and quote removal of a word. *)
Fixpoint expand (st : Shell) (wd : Word) : Expanded :=
  match wd with
  | [] => Chars [] false
  | p :: wd' =>
      match expand st wd' with
      | Unset n => Unset n
      | Chars cs q =>
          match p with
          | Lit c => Chars ((c, Literal) :: cs) q
          | Quoted s => Chars (tag FromQuote s ++ cs)%list true
          | Param n =>
              match lookup n (vars st) with
              | Some v => Chars (tag FromParam v ++ cs)%list q
              | None => if nounset st then Unset n else Chars cs q
              end
          end
      end
  end.

Definition inString (c : ascii) (s : string) : bool :=
  existsb (Ascii.eqb c) (list_ascii_of_string s).

Definition isIfsWhite (c : ascii) : bool :=
  (Ascii.eqb c " " || Ascii.eqb c "009" || Ascii.eqb c "010")%bool.

(** Field splitting with a non-null [IFS]: only characters that come from
    an expansion delimit; [cur] is the field being read, [ws] tells that
    the last field was closed by IFS white space. *)
Fixpoint splitAt (ifs : string) (cs : list (ascii * Origin))
         (cur : option string) (ws : bool) : list string :=
  match cs with
  | [] => match cur with Some f => [f] | None => [] end
  | (c, o) :: cs' =>
      let delim :=
        match o with FromParam => inString c ifs | _ => false end in
      if delim then
        if isIfsWhite c then
          match cur with
          | Some f => f :: splitAt ifs cs' None true
          | None => splitAt ifs cs' None ws
          end
        else
          match cur with
          | Some f => f :: splitAt ifs cs' None false
          | None => if ws then splitAt ifs cs' None false
                    else EmptyString :: splitAt ifs cs' None false
          end
      else
        splitAt ifs cs'
          (Some (snoc (match cur with Some f => f | None => EmptyString end) c))
          false
  end.

(** XCU 2.6.5: with a null [IFS] no field splitting is performed; an
    unquoted word that expands to nothing yields no field. *)
Definition fields (ifs : string) (cs : list (ascii * Origin)) (quoted : bool)
  : list string :=
  if String.eqb ifs EmptyString then
    match cs with
    | [] => if quoted then [EmptyString] else []
    | _ => [untag cs]
    end
  else splitAt ifs cs (if quoted then Some EmptyString else None) false.

Definition isGlob (p : ascii * Origin) : bool :=
  match snd p with
  | FromQuote => false
  | _ => existsb (Ascii.eqb (fst p)) ["*"; "?"; "["]%char
  end.

Inductive Outcome : Type :=
| Execs (st : Shell) (argv : list string)
| Done (st : Shell)
| Unbound (n : string)
| Unsupported.

(** The fields of the words of a command, in order. *)
Fixpoint argvOf (st : Shell) (ws : list Word) : Outcome :=
  match ws with
  | [] => Execs st []
  | wd :: ws' =>
      match expand st wd with
      | Unset n => Unbound n
      | Chars cs q =>
          if (negb (noglob st) && existsb isGlob cs)%bool then Unsupported
          else
            match argvOf st ws' with
            | Execs _ rest => Execs st (fields (ifsOf st) cs q ++ rest)%list
            | other => other
            end
      end
  end.

Fixpoint literalOf (wd : Word) : option string :=
  match wd with
  | [] => Some EmptyString
  | Lit c :: wd' =>
      match literalOf wd' with
      | Some s => Some (String c s)
      | None => None
      end
  | _ => None
  end.

Definition setFlag (st : Shell) (c : ascii) : option Shell :=
  if Ascii.eqb c "e" then
    Some {| errexit := true; nounset := nounset st; xtrace := xtrace st;
            noglob := noglob st; vars := vars st |}
  else if Ascii.eqb c "u" then
    Some {| errexit := errexit st; nounset := true; xtrace := xtrace st;
            noglob := noglob st; vars := vars st |}
  else if Ascii.eqb c "x" then
    Some {| errexit := errexit st; nounset := nounset st; xtrace := true;
            noglob := noglob st; vars := vars st |}
  else if Ascii.eqb c "f" then
    Some {| errexit := errexit st; nounset := nounset st; xtrace := xtrace st;
            noglob := true; vars := vars st |}
  else None.

Fixpoint setFlags (st : Shell) (flags : string) : option Shell :=
  match flags with
  | EmptyString => Some st
  | String c flags' =>
      match setFlag st c with
      | Some st' => setFlags st' flags'
      | None => None
      end
  end.

(** [set -abc ...] *)
Fixpoint builtinSet (st : Shell) (args : list Word) : Outcome :=
  match args with
  | [] => Done st
  | wd :: args' =>
      match literalOf wd with
      | Some (String "-" flags) =>
          match setFlags st flags with
          | Some st' => builtinSet st' args'
          | None => Unsupported
          end
      | _ => Unsupported
      end
  end.

(** Splits [NAME=value] at the first [=]. *)
Fixpoint assignment (wd : Word) : option (string * Word) :=
  match wd with
  | Lit c :: wd' =>
      if Ascii.eqb c "=" then Some (EmptyString, wd')
      else
        match assignment wd' with
        | Some (n, v) => Some (String c n, v)
        | None => None
        end
  | _ => None
  end.

(** [export NAME=value ...]: the value is expanded but never split. *)
Fixpoint builtinExport (st : Shell) (args : list Word) : Outcome :=
  match args with
  | [] => Done st
  | wd :: args' =>
      match assignment wd with
      | Some (n, v) =>
          match expand st v with
          | Unset x => Unbound x
          | Chars cs _ => builtinExport (assign n (untag cs) st) args'
          end
      | None => Unsupported
      end
  end.

Definition command (st : Shell) (ws : list Word) : Outcome :=
  match ws with
  | [] => Done st
  | wd :: args =>
      match literalOf wd with
      | Some "set"%string => builtinSet st args
      | Some "export"%string => builtinExport st args
      | Some "exec"%string => argvOf st args
      | _ => Unsupported
      end
  end.

Fixpoint runLines (st : Shell) (lines : list string) : Outcome :=
  match lines with
  | [] => Done st
  | l :: lines' =>
      match words l with
      | None => Unsupported
      | Some ws =>
          match command st ws with
          | Done st' => runLines st' lines'
          | other => other
          end
      end
  end.

(** Runs [script] with the environment [env]. *)
Definition run (script : string) (env : list (string * string)) : Outcome :=
  runLines {| errexit := false; nounset := false; xtrace := false;
              noglob := false; vars := env |}
           (Js.split "010" script).

(** The argument vector the script ends up executing. *)
Definition argv (o : Outcome) : option (list string) :=
  match o with
  | Execs _ a => Some a
  | _ => None
  end.

End Sh.

From Stdlib Require DecimalPos.

(** ** Further readers of traces *)

(** The process and signal of a [process.kill] call. *)
Definition killOf (ev : Event) : option (Js.number * string) :=
  match ev with
  | Did (Kill pid sig) _ => Some (pid, sig)
  | _ => None
  end.

(** The content a successful [readFile] returned. *)
Definition readContent (ev : Event) : option string :=
  match ev with
  | Did (ReadFile _ _) (Ok s) => Some s
  | _ => None
  end.

Definition isGroupMark (ev : Event) : bool :=
  match ev with
  | Out (StartGroup _) => true
  | Out EndGroup => true
  | _ => false
  end.

Definition isUnwatch (ev : Event) : bool :=
  match ev with
  | Out TailUnwatch => true
  | _ => false
  end.

(** The push helper invocation of line 163. *)
Definition pushHelperCall (i : Inputs) (dirname : string) : Cmd (result unit) :=
  Exec (dirname ++ "/push-paths.sh")
    ["cachix"; cachixArgs i; name i; pathsToPush i; pushFilter i].

(** The annotation [reportFailure] makes for a rejected answer. *)
Definition annotationOf {A : Type} (r : result A) : Trace :=
  match r with
  | Ok _ => []
  | Rejected e =>
      [Out (SetFailed ("Action failed with error: " ++ Js.errorToString e))]
  end.

(** ** The calls of a step *)

Definition isCall (ev : Event) : bool :=
  match ev with
  | Did _ _ => true
  | _ => false
  end.

(** The calls a step made and waited for, with their answers, in order. *)
Definition calls (t : Trace) : Trace := filter isCall t.

(** The calls of the daemon shutdown (lines 138-149): the daemon directory
    is looked up and its pid file read; then the log is tailed; then
    [SIGINT] goes to the process the pid file names.  A call that fails
    ends the sequence. *)
Definition shutdownCalls (daemonDir : option string) (pidFile : result string)
           (tail kill : result unit) : Trace :=
  Did (GetEnv ENV_CACHIX_DAEMON_DIR) daemonDir
  :: Did (ReadFile (Js.show daemonDir ++ "/daemon.pid") "utf8") pidFile
  :: match pidFile with
     | Rejected _ => []
     | Ok content =>
         Did (NewTail (Js.show daemonDir ++ "/daemon.log") true) tail
         :: match tail with
            | Rejected _ => []
            | Ok _ => [Did (Kill (Js.parseInt content) "SIGINT") kill]
            end
     end.

(** [t] is the trace of a step that attempted a push: its calls are the
    daemon shutdown in daemon mode, and the one call of the push helper
    otherwise. *)
Definition pushAttempt (i : Inputs) (dirname : string) (t : Trace) : Prop :=
  if String.eqb (useDaemon i) "true" then
    exists daemonDir pidFile tail kill,
      calls t = shutdownCalls daemonDir pidFile tail kill
  else
    exists answer, calls t = [Did (pushHelperCall i dirname) answer].

(** ** The lines of the daemon log *)

Definition isListen (ev : Event) : bool :=
  match ev with
  | Out TailOnLineInfo => true
  | _ => false
  end.

(** Line 144: the listener prints every line the tail delivers through
    [core.info].  The tail reads the log asynchronously and [upload] waits
    for nothing after creating it (lines 143-172 run in one go), so the
    lines it delivers are printed once [upload] has returned, the call of
    [unwatch] notwithstanding.  [forwarded t lines]: what the listener
    prints after a step with trace [t], when the tail delivers [lines]. *)
Definition forwarded (t : Trace) (lines : list string) : Trace :=
  if existsb isListen t then map (fun line => Out (Info line)) lines
  else [].

(** What the post step does in all, up to the end of the process. *)
Definition uploadProcess (w : World) (i : Inputs) (dirname : string)
           (lines : list string) : Trace :=
  (trace w (upload i dirname)
   ++ forwarded (trace w (upload i dirname)) lines)%list.

(** The first failed awaited call of a trace, with what follows it. *)
Fixpoint firstRejectedCall (t : Trace) : option (Event * Trace) :=
  match t with
  | [] => None
  | ev :: t' =>
      match rejection ev with
      | Some _ => Some (ev, t')
      | None => firstRejectedCall t'
      end
  end.

Definition isKill (ev : Event) : bool :=
  match killOf ev with
  | Some _ => true
  | None => false
  end.

(** The body of the [try] block of [upload] (lines 134-167). *)
Definition uploadBody (i : Inputs) (dirname : string) : Prog unit :=
  if String.eqb (skipPush i) "true" then
    emit (Info "Pushing is disabled as skipPush is set to true")
  else if (negb (String.eqb (signingKey i) "")
           || negb (String.eqb (authToken i) ""))%bool then
    if String.eqb (useDaemon i) "true" then stopDaemon
    else pushPaths i dirname
  else
    emit (Info "Pushing is disabled as signingKey nor authToken are set (or are empty?) in your YAML file.").

(** The world as seen by a program that starts after history [h]. *)
Definition shift (w : World) (h : Trace) : World :=
  fun X h0 c => w X (h ++ h0)%list c.

(** What [setup] does to bring the daemon up, as far as a trace shows it. *)
Inductive DaemonFact : Type :=
| Opened (path flags : string)
| Spawned (command : string) (args : list string) (detached : bool)
          (pid : option Z)
| Wrote (path data : string)
| Chmodded (path : string) (mode : Z)
| MadeDir (path : string) (recursive : bool)
| Appended (data : string)
| Exported (dir : string).

(** Only steps that succeeded count (a [chmod] that was merely started
    counts as started). *)
Definition daemonFact (ev : Event) : option DaemonFact :=
  match ev with
  | Did (OpenSync p fl) (Ok _) => Some (Opened p fl)
  | Did (Spawn cmd args _ det) (Ok pid) => Some (Spawned cmd args det pid)
  | Did (WriteFile p data) (Ok _) => Some (Wrote p data)
  | Floated (Chmod p mode) _ => Some (Chmodded p mode)
  | Did (Mkdir p r) (Ok _) => Some (MadeDir p r)
  | Did (WriteSync _ data) (Ok _) => Some (Appended data)
  | Out (ExportVariable k v) =>
      if String.eqb k ENV_CACHIX_DAEMON_DIR then Some (Exported v) else None
  | _ => None
  end.

(** Lines 84-86: the pid file is written only when the pid is known. *)
Definition pidFileFact (daemonDir : string) (pid : option Z)
  : list DaemonFact :=
  match pid with
  | Some p =>
      [Wrote (daemonDir ++ "/daemon.pid") (Js.numberToString (Js.Int p))]
  | None => []
  end.

(** The daemon facts of a [setup] that got as far as exporting the daemon
    directory [d]. *)
Definition daemonStarted (i : Inputs) (d : string) (pid : option Z)
           (cachix : string) (home home' : option string)
  : list DaemonFact :=
  let hook := d ++ "/cachix-post-build-hook.sh" in
  let before :=
    [Opened (d ++ "/daemon.log") "a";
     Spawned "cachix" ["daemon"; "run"; "--socket"; d ++ "/daemon.sock"]
             true pid] in
  let after :=
    [Wrote hook (postBuildHookScript cachix d (name i));
     Chmodded hook 493;
     MadeDir (Js.show home ++ "/.config/nix") true;
     Opened (Js.show home' ++ "/.config/nix/nix.conf") "a";
     Appended (nixConfLine hook);
     Exported d] in
  (before ++ pidFileFact d pid ++ after)%list.

(** Events after which Node does not carry the step to its end: the
    rejection of a promise nobody waits for (an unhandled rejection ends
    the process), a failure of [close] called without a callback (the
    default callback throws), and a [spawn] that gives no process id (the
    child's ['error'] event has no listener).  The embedding goes on
    listing what the step would do; on the runner the process ends at some
    later point instead. *)
Definition fatal (ev : Event) : bool :=
  match ev with
  | Floated _ (Rejected _) => true
  | Did (Spawn _ _ _ _) (Ok None) => true
  | _ => false
  end.

(** The process id a [spawn] gave. *)
Definition spawnedPid (ev : Event) : option Z :=
  match ev with
  | Did (Spawn _ _ _ _) (Ok (Some p)) => Some p
  | _ => None
  end.

(** An integer JavaScript holds exactly and prints in full. *)
Definition safeInteger (p : Z) : Prop := (0 <= p < 2 ^ 53)%Z.

(** The events of a daemon start-up that went through (lines 68-119), as
    the answers determine them: [runnerTemp] and [tmp] are what
    [RUNNER_TEMP] and [os.tmpdir()] gave, [d] the fresh directory, [logFd]
    and [confFd] the descriptors of the log and of [nix.conf], [chmod] and
    [closed] the outcomes nobody waits for. *)
Definition startTrace (i : Inputs) (runnerTemp : option string) (tmp : string)
           (d : string) (logFd : Z) (pid : option Z) (cachix : string)
           (chmod : result unit) (home home' : option string) (confFd : Z)
           (closed : result unit) : Trace :=
  let tmpdir := if truthy runnerTemp then Js.show runnerTemp else tmp in
  let hook := d ++ "/cachix-post-build-hook.sh" in
  let lookup :=
    Did (GetEnv "RUNNER_TEMP") runnerTemp
    :: (if truthy runnerTemp then [] else [Did OsTmpdir tmp]) in
  let spawning :=
    [Did (Mkdtemp tmpdir "cachix-daemon-") (Ok d);
     Did (OpenSync (d ++ "/daemon.log") "a") (Ok logFd);
     Did (Spawn "cachix" ["daemon"; "run"; "--socket"; d ++ "/daemon.sock"]
            [Ignore; Fd logFd; Fd logFd] true) (Ok pid)] in
  let pidFile :=
    match pid with
    | Some p =>
        [Did (WriteFile (d ++ "/daemon.pid") (Js.numberToString (Js.Int p)))
             (Ok tt)]
    | None => []
    end in
  let registering :=
    [Did (WhichSync "cachix") (Ok cachix);
     Out (Debug ("Found cachix executable: " ++ cachix));
     Did (WriteFile hook (postBuildHookScript cachix d (name i))) (Ok tt);
     Floated (Chmod hook 493) chmod;
     Did (GetEnv "HOME") home;
     Did (Mkdir (Js.show home ++ "/.config/nix") true) (Ok tt);
     Did (GetEnv "HOME") home';
     Did (OpenSync (Js.show home' ++ "/.config/nix/nix.conf") "a")
         (Ok confFd);
     Did (WriteSync confFd (nixConfLine hook)) (Ok tt);
     Floated (Close confFd) closed;
     Out (ExportVariable ENV_CACHIX_DAEMON_DIR d);
     Out (Debug ("Cachix daemon started with pid " ++ showPid pid));
     Out Unref] in
  (lookup ++ spawning ++ pidFile ++ registering)%list.

(** The files an earlier step wrote, whose trace was [t], are read back
    unchanged by the process that runs in world [w]. *)
Definition fileHandsOver (t : Trace) (w : World) : Prop :=
  forall h p data enc,
    In (p, data) (pick writtenFile t) -> w _ h (ReadFile p enc) = Ok data.

(** The directory last exported, read off the daemon facts. *)
Fixpoint lastExported (fs : list DaemonFact) : option string :=
  match fs with
  | [] => None
  | f :: fs' =>
      match lastExported fs' with
      | Some v => Some v
      | None => match f with Exported v => Some v | _ => None end
      end
  end.

(** The steps of [setup] before the mode branch (lines 30-65). *)
Definition setupPrefix (i : Inputs) : Prog unit :=
  (ensureInstalled i ;; checkVersion ;; registerAuthToken i ;;
   usePrimaryCache i ;; useExtraCaches i ;; exportSigningKey i)%prog.

(** The mode branch of [setup] (lines 67-124). *)
Definition setupBranch (i : Inputs) (dirname : string) : Prog unit :=
  if String.eqb (useDaemon i) "true" then startDaemon i
  else rememberStorePaths dirname.

(** The content last written to [path] among [files]. *)
Fixpoint lastWritten (path : string) (files : list (string * string))
  : option string :=
  match files with
  | [] => None
  | (p, data) :: files' =>
      match lastWritten path files' with
      | Some later => Some later
      | None => if String.eqb p path then Some data else None
      end
  end.

(** The world of a later step of the same job, after a step whose trace
    was [t]: exported variables and written files are found again, and
    everything else is as in [happy]. *)
Definition replay (t : Trace) : World :=
  fun X h c =>
    match c in Cmd X0 return X0 -> X0 with
    | GetEnv k =>
        fun x => match exported k t with Some v => Some v | None => x end
    | ReadFile p _ =>
        fun x =>
          match lastWritten p (pick writtenFile t) with
          | Some data => Ok data
          | None => x
          end
    | _ => fun x => x
    end (happy h c).

(** ** Strings: what [trim] and [split] leave *)

Fixpoint lastChar (s : string) : option ascii :=
  match s with
  | EmptyString => None
  | String c EmptyString => Some c
  | String _ s' => lastChar s'
  end.

Definition firstChar (s : string) : option ascii :=
  match s with
  | EmptyString => None
  | String c _ => Some c
  end.

Definition notWhite (o : option ascii) : Prop :=
  match o with
  | Some c => Js.isWhiteSpace c = false
  | None => True
  end.

Fixpoint allWhite (s : string) : bool :=
  match s with
  | EmptyString => true
  | String c s' => (Js.isWhiteSpace c && allWhite s')%bool
  end.

Fixpoint occurrences (c : ascii) (s : string) : nat :=
  match s with
  | EmptyString => 0
  | String x s' => (if Ascii.eqb x c then 1 else 0) + occurrences c s'
  end.

(** [segments.join(sep)] *)
Fixpoint join (sep : ascii) (segments : list string) : string :=
  match segments with
  | [] => EmptyString
  | [seg] => seg
  | seg :: rest => seg ++ String sep (join sep rest)
  end.

(** The program and arguments of an [exec.exec] call. *)
Definition execOf (ev : Event) : option (string * list string) :=
  match ev with
  | Did (Exec cl args) _ => Some (cl, args)
  | _ => None
  end.

(** The client invocations [setup] may make. *)
Definition allowedCachixCall (i : Inputs) (args : list string) : Prop :=
  args = ["--version"] \/
  (args = ["authtoken"; authToken i] /\ authToken i <> "") \/
  (args = ["use"; name i] /\ skipAddingSubstituter i <> "true") \/
  (exists seg,
      extraPullNames i <> "" /\
      In seg (Js.split "," (extraPullNames i)) /\
      args = ["use"; Js.trim seg]).

(** The programs [setup] may run through [exec.exec]. *)
Definition allowedExec (i : Inputs) (dirname : string)
           (call : string * list string) : Prop :=
  (fst call = "cachix" /\ allowedCachixCall i (snd call)) \/
  call = ("bash", ["-c"; installCommand i]) \/
  (call = ("sh", ["-c"; dirname ++
                          "/list-nix-store.sh > /tmp/store-path-pre-build"])
   /\ useDaemon i <> "true").

(** [runsUses w p L]: from any history, if [p] returns normally in world
    [w], the [use] calls it made are [L]. *)
Definition runsUses (w : World) (p : Prog unit) (L : list string) : Prop :=
  forall h,
    match run w p h with
    | (h', Ok _) => exists t, h' = (h ++ t)%list /\ useCalls t = L
    | (_, Rejected _) => True
    end.

(** The value exported for the signing key. *)
Definition signingKeyExport (ev : Event) : option string :=
  match ev with
  | Out (ExportVariable k v) =>
      if String.eqb k "CACHIX_SIGNING_KEY" then Some v else None
  | _ => None
  end.

(** The steps of [setup] that install, authenticate and register
    (lines 30-61). *)
Definition registration (i : Inputs) : Prog unit :=
  (ensureInstalled i ;; checkVersion ;; registerAuthToken i ;;
   usePrimaryCache i ;; useExtraCaches i)%prog.

(** ** The type guards (lines 175-191) *)

(** A JavaScript value as the guards see it: its [typeof] class and what
    [in] answers on it.  For an ordinary object or function these are the
    property names found on it or on its prototype chain.  For a [Proxy],
    [has] is what [key in obj] gives: the answer of its [has] trap or of
    its target, or a throw ([None]): a trap may throw, and every operation
    on a revoked proxy does.  A proxy has the [typeof] of its target. *)
Inductive JsValue : Type :=
| JsUndefined
| JsNull
| JsBoolean (b : bool)
| JsNumber (n : Js.number)
| JsBigInt (n : Z)
| JsString (s : string)
| JsSymbol (description : string)
| JsFunction (properties : list string)
| JsObject (properties : list string)
| JsProxy (callable : bool) (has : string -> option bool).





(** [a || b], where [b] is evaluated only when [a] is false. *)
Definition orElse (a : option bool) (b : option bool) : option bool :=
  match a with
  | Some true => Some true
  | Some false => b
  | None => None
  end.







Definition propertiesOf (v : JsValue) : list string :=
  match v with
  | JsObject ps => ps
  | JsFunction ps => ps
  | _ => []
  end.

Definition has (key : string) (v : JsValue) : bool :=
  existsb (String.eqb key) (propertiesOf v).

(** ** The entry point (lines 193-205) *)

(** The calls that return a promise ([exec.exec] and [fs/promises]); the
    others are synchronous. *)
Definition isPromise {X : Type} (c : Cmd X) : bool :=
  match c with
  | Exec _ _ => true
  | Mkdtemp _ _ => true
  | WriteFile _ _ => true
  | Chmod _ _ => true
  | Mkdir _ _ => true
  | ReadFile _ _ => true
  | _ => false
  end.

(** [p(); o]: calling an async function without waiting for it.  The
    function runs up to the first promise it waits for (or to its end);
    there the caller goes on with [o], and the rest of the function runs
    afterwards. *)
Fixpoint atFirstAwait {A : Type} (o : Output) (p : Prog A) : Prog A :=
  match p with
  | Ret a => Emit o (Ret a)
  | Throw e => Emit o (Throw e)
  | Emit o' k => Emit o' (atFirstAwait o k)
  | Call c k =>
      if isPromise c then Emit o (Call c k)
      else Call c (fun x => atFirstAwait o (k x))
  | NoAwait c k => NoAwait c (atFirstAwait o k)
  end.

Inductive MainEvent : Type :=
| Saved (key value : string)
| Step (ev : Event).

(** What one invocation of the action does; [statePost] is
    [process.env['STATE_isPost']]. *)
Definition mainTrace (w : World) (statePost : option string) (i : Inputs)
           (dirname : string) : list MainEvent :=
  if negb (truthy statePost) then
    Saved "isPost" "true"
    :: map Step (trace w (atFirstAwait (Debug "Setup done")
                            (setup i dirname)))
  else
    map Step (trace w (upload i dirname)).

(** ** Strings the shell takes literally *)

(** A character with no meaning to the shell fragment: no blank, line
    end, comment sign, quote, dollar or operator. *)
Definition shellPlainChar (c : ascii) : bool :=
  negb (Sh.isBlank c || Ascii.eqb c "010" || Ascii.eqb c "#"
        || Ascii.eqb c "'" || Ascii.eqb c "$" || Sh.isOperator c)%bool.

Fixpoint shellPlain (s : string) : bool :=
  match s with
  | EmptyString => true
  | String c s' => (shellPlainChar c && shellPlain s')%bool
  end.

(** The word made of the characters of [s], all literal. *)
Definition lits (s : string) : Sh.Word :=
  map Sh.Lit (list_ascii_of_string s).

(** The word being read, after the literal characters of [s]. *)
Fixpoint pushLits (cur : option Sh.Word) (s : string) : option Sh.Word :=
  match s with
  | EmptyString => cur
  | String c s' => pushLits (Sh.pushPart cur (Sh.Lit c)) s'
  end.

(** [s] put in front of the first segment. *)
Definition consHead (s : string) (segs : list string) : list string :=
  match segs with
  | seg :: rest => (s ++ seg) :: rest
  | [] => [s]
  end.

(** The shell state in which the hook, started with the environment
    [env], reaches its [exec] (lines 95-97). *)
Definition hookShell (env : list (string * string)) : Sh.Shell :=
  {| Sh.errexit := true; Sh.nounset := true; Sh.xtrace := true;
     Sh.noglob := true;
     Sh.vars := ("IFS", "") :: env |}.

(** The arguments before the store paths (lines 99-101). *)
Definition hookCommand (cachix daemonDir name : string) : list string :=
  [cachix; "daemon"; "push"; "--socket"; daemonDir ++ "/daemon.sock"; name].

Fixpoint noNewline (s : string) : bool :=
  match s with
  | EmptyString => true
  | String c s' => (negb (Ascii.eqb c "010") && noNewline s')%bool
  end.

(** The log group open at the end of [t], when [inside] tells whether one
    was open at its start: [None] when a group is opened inside another,
    or closed while none is open. *)
Fixpoint groupState (t : Trace) (inside : bool) : option bool :=
  match t with
  | [] => Some inside
  | Out (StartGroup _) :: t' => if inside then None else groupState t' true
  | Out EndGroup :: t' => if inside then groupState t' false else None
  | _ :: t' => groupState t' inside
  end.

(** [keepsGroups p inside Q]: started with a group open or not as [inside]
    tells, [p] opens no group inside another and closes none that is not
    open, whatever its calls answer; and [Q] holds of the state in which
    it returns. *)
Fixpoint keepsGroups {A : Type} (p : Prog A) (inside : bool)
         (Q : bool -> Prop) : Prop :=
  match p with
  | Ret _ => Q inside
  | Throw _ => True
  | Emit (StartGroup _) k => inside = false /\ keepsGroups k true Q
  | Emit EndGroup k => inside = true /\ keepsGroups k false Q
  | Emit _ k => keepsGroups k inside Q
  | Call c k => forall x, keepsGroups (k x) inside Q
  | NoAwait c k => keepsGroups k inside Q
  end.

(** A world in which every command run through [exec] fails, and
    everything else goes as in [happy]. *)
Definition refusing : World :=
  fun X h c =>
    match c in Cmd X return X with
    | Exec cl _ => Rejected (Js.mkError "Error" ("The process '" ++ cl ++ "' failed with exit code 1"))
    | WhichSyncNoThrow cmd => happy h (WhichSyncNoThrow cmd)
    | WhichSync cmd => happy h (WhichSync cmd)
    | GetEnv key => happy h (GetEnv key)
    | OsTmpdir => happy h OsTmpdir
    | Mkdtemp dir prefix => happy h (Mkdtemp dir prefix)
    | OpenSync path flags => happy h (OpenSync path flags)
    | Spawn command args stdio detached =>
        happy h (Spawn command args stdio detached)
    | WriteFile path data => happy h (WriteFile path data)
    | Chmod path mode => happy h (Chmod path mode)
    | Mkdir path recursive => happy h (Mkdir path recursive)
    | WriteSync fd data => happy h (WriteSync fd data)
    | Close fd => happy h (Close fd)
    | ReadFile path encoding => happy h (ReadFile path encoding)
    | NewTail path fromBeginning => happy h (NewTail path fromBeginning)
    | Kill pid signal => happy h (Kill pid signal)
    end.
(** * Theorems *)

Local Open Scope list_scope.

(** ** Sanity checks of the string primitives *)

Example trim_ex : Js.trim "  my-cache " = "my-cache".
Proof. reflexivity. Qed.

Example split_ex : Js.split "," "a, b,,c," = ["a"; " b"; ""; "c"; ""].
Proof. reflexivity. Qed.

Example parseInt_ex :
  Js.parseInt "4242" = Js.Int 4242 /\ Js.parseInt "" = Js.NaN
  /\ Js.parseInt " -17x" = Js.Int (-17) /\ Js.parseInt "0x1f" = Js.Int 31.
Proof. repeat split. Qed.

Example numberToString_ex : Js.numberToString (Js.Int 4242) = "4242".
Proof. reflexivity. Qed.

(** ** Generic facts about running programs *)

Section RunFacts.

Variable w : World.

Lemma run_bind {A B : Type} (p : Prog A) (f : A -> Prog B) (h : Trace) :
  run w (bind p f) h =
  match run w p h with
  | (h', Ok a) => run w (f a) h'
  | (h', Rejected e) => (h', Rejected e)
  end.
Proof.
  revert h; induction p as [a|e|o k IH|X c k IH|X c k IH]; intros h;
    simpl; auto.
Qed.

Lemma run_tryCatch {A : Type} (p : Prog A) (hd : Js.Error -> Prog A)
      (h : Trace) :
  run w (tryCatch p hd) h =
  match run w p h with
  | (h', Ok a) => (h', Ok a)
  | (h', Rejected e) => run w (hd e) h'
  end.
Proof.
  revert h; induction p as [a|e|o k IH|X c k IH|X c k IH]; intros h;
    simpl; auto.
Qed.

(** The trace only grows. *)
Lemma run_extends {A : Type} (p : Prog A) (h : Trace) :
  exists t, fst (run w p h) = (h ++ t)%list.
Proof.
  revert h; induction p as [a|e|o k IH|X c k IH|X c k IH]; intros h; simpl.
  - exists []; now rewrite app_nil_r.
  - exists []; now rewrite app_nil_r.
  - destruct (IH (h ++ [Out o])%list) as [t Ht].
    exists (Out o :: t). now rewrite Ht, <- app_assoc.
  - destruct (IH (w h c) (h ++ [Did c (w h c)])%list) as [t Ht].
    exists (Did c (w h c) :: t). now rewrite Ht, <- app_assoc.
  - destruct (IH (h ++ [Floated c (w h c)])%list) as [t Ht].
    exists (Floated c (w h c) :: t). now rewrite Ht, <- app_assoc.
Qed.

End RunFacts.

Lemma emitsOnly_bind {A B : Type} (P : Event -> Prop) (p : Prog A)
      (f : A -> Prog B) :
  emitsOnly P p -> (forall a, emitsOnly P (f a)) -> emitsOnly P (bind p f).
Proof.
  induction p as [a|e|o k IH|X c k IH|X c k IH]; simpl; intros Hp Hf; auto.
  - destruct Hp; split; auto.
  - intros x; destruct (Hp x); split; auto.
  - destruct Hp; split; auto.
Qed.

Lemma emitsOnly_tryCatch {A : Type} (P : Event -> Prop) (p : Prog A)
      (hd : Js.Error -> Prog A) :
  emitsOnly P p -> (forall e, emitsOnly P (hd e)) ->
  emitsOnly P (tryCatch p hd).
Proof.
  induction p as [a|e|o k IH|X c k IH|X c k IH]; simpl; intros Hp Hf; auto.
  - destruct Hp; split; auto.
  - intros x; destruct (Hp x); split; auto.
  - destruct Hp; split; auto.
Qed.

Lemma emitsOnly_forOf {X : Type} (P : Event -> Prop) (xs : list X)
      (body : X -> Prog unit) :
  (forall x, emitsOnly P (body x)) -> emitsOnly P (forOf xs body).
Proof.
  intros Hb; induction xs as [|x xs IH]; simpl; auto.
  apply emitsOnly_bind; auto.
Qed.

(** A property of traces that survives every event satisfying [P] survives
    a program that emits only such events. *)
Lemma emitsOnly_preserves {A : Type} (P : Event -> Prop) (Q : Trace -> Prop)
      (w : World) (p : Prog A) :
  (forall h ev, Q h -> P ev -> Q (h ++ [ev])%list) ->
  emitsOnly P p -> forall h, Q h -> Q (fst (run w p h)).
Proof.
  intros step.
  induction p as [a|e|o k IH|X c k IH|X c k IH]; simpl; intros Hp h Hq; auto.
  - destruct Hp; auto.
  - destruct (Hp (w X h c)); auto.
  - destruct Hp; auto.
Qed.

Lemma emitsOnly_Forall {A : Type} (P : Event -> Prop) (w : World)
      (p : Prog A) (h : Trace) :
  emitsOnly P p -> Forall P h -> Forall P (fst (run w p h)).
Proof.
  intros Hp. apply emitsOnly_preserves with (P := P); auto.
  intros h0 ev H0 Hev. apply Forall_app; auto.
Qed.

Lemma run_keeps {A : Type} (f : Event -> bool) (w : World) (p : Prog A)
      (h : Trace) :
  existsb f h = true -> existsb f (fst (run w p h)) = true.
Proof.
  intros H. destruct (run_extends w p h) as [t Ht].
  rewrite Ht, existsb_app, H. reflexivity.
Qed.

(** ** The post-job upload step *)

Lemma pushEnabled_spec (i : Inputs) :
  pushEnabled i = true <->
  skipPush i <> "true" /\ (signingKey i <> "" \/ authToken i <> "").
Proof.
  unfold pushEnabled.
  destruct (String.eqb_spec (skipPush i) "true");
    destruct (String.eqb_spec (signingKey i) "");
    destruct (String.eqb_spec (authToken i) ""); simpl; split;
    try discriminate; try tauto; auto.
Qed.

Ltac open_prog :=
  unfold sync, await, call, emit, noAwait, reportFailure;
  cbn [run bind tryCatch fst snd app].

Lemma upload_enabled (w : World) (i : Inputs) (dn : string) :
  pushEnabled i = true ->
  existsb (isPushStep dn) (trace w (upload i dn)) = true.
Proof.
  unfold pushEnabled, trace, upload. intros H.
  apply andb_prop in H as [Hs Hc]. apply negb_true_iff in Hs.
  rewrite Hs, Hc.
  destruct (String.eqb (useDaemon i) "true").
  - unfold stopDaemon. open_prog. apply run_keeps. reflexivity.
  - unfold pushPaths. open_prog. apply run_keeps.
    cbn. now rewrite String.eqb_refl.
Qed.

Lemma upload_disabled (w : World) (i : Inputs) (dn : string) :
  pushEnabled i = false ->
  run w (upload i dn) [] =
  ([Out (StartGroup "Cachix: push");
    Out (Info (if String.eqb (skipPush i) "true"
               then "Pushing is disabled as skipPush is set to true"
               else "Pushing is disabled as signingKey nor authToken are set (or are empty?) in your YAML file."));
    Out EndGroup], Ok tt).
Proof.
  unfold pushEnabled, upload. intros H.
  destruct (String.eqb (skipPush i) "true"); [reflexivity|].
  simpl in H. rewrite H. reflexivity.
Qed.

Lemma upload_attempts_when_enabled (w : World) (i : Inputs) (dn : string) :
  pushEnabled i = true -> pushAttempt i dn (trace w (upload i dn)).
Proof.
  unfold pushEnabled, pushAttempt, trace, upload. intros H.
  apply andb_prop in H as [Hs Hc]. apply negb_true_iff in Hs.
  rewrite Hs, Hc.
  destruct (String.eqb (useDaemon i) "true").
  - unfold stopDaemon. open_prog.
    match goal with
    | |- context [w ?X ?h (GetEnv ?k)] => set (dd := w X h (GetEnv k))
    end.
    match goal with
    | |- context [w ?X ?h (ReadFile ?p ?enc)] =>
        destruct (w X h (ReadFile p enc)) as [content|e]
    end; open_prog;
      [|exists dd, (Rejected e), (Ok tt), (Ok tt); reflexivity].
    match goal with
    | |- context [w ?X ?h (NewTail ?p ?b)] =>
        destruct (w X h (NewTail p b)) as [[]|e]
    end; open_prog;
      [|exists dd, (Ok content), (Rejected e), (Ok tt); reflexivity].
    match goal with
    | |- context [w ?X ?h (Kill ?p ?sg)] =>
        destruct (w X h (Kill p sg)) as [[]|e]
    end; open_prog;
      [exists dd, (Ok content), (Ok tt), (Ok tt)
      |exists dd, (Ok content), (Ok tt), (Rejected e)]; reflexivity.
  - unfold pushPaths, pushHelperCall. open_prog.
    match goal with
    | |- context [w ?X ?h (Exec ?a ?b)] =>
        destruct (w X h (Exec a b)) as [[]|e]
    end; open_prog; eexists; reflexivity.
Qed.

Lemma no_attempt_without_calls (i : Inputs) (dn : string) (t : Trace) :
  calls t = [] -> ~ pushAttempt i dn t.
Proof.
  unfold pushAttempt. intros E.
  destruct (String.eqb (useDaemon i) "true").
  - intros (dd & r1 & r2 & r3 & H). rewrite E in H. discriminate.
  - intros (ans & H). rewrite E in H. discriminate.
Qed.

(** C1.  [upload] attempts a push if and only if [skipPush] is not
    ['true'] and at least one of [signingKey], [authToken] is non-empty.
    The attempt is pinned by the calls of the step: in daemon mode the
    lookup of the daemon directory, the reading of [daemon.pid] in it, the
    tailing of [daemon.log] and [SIGINT] to the process the pid file
    names, each made when the one before succeeded; otherwise the one call
    of the push helper with its five arguments.  Without an attempt the
    step makes no call at all: its trace is exactly the group opening, one
    informational message and the group end, with no job failure, and the
    step returns normally. *)
Theorem C1_upload_pushes_iff_enabled (w : World) (i : Inputs) (dn : string) :
  let t := trace w (upload i dn) in
  (pushAttempt i dn t <->
     skipPush i <> "true" /\ (signingKey i <> "" \/ authToken i <> "")) /\
  (~ pushAttempt i dn t ->
     calls t = [] /\
     (exists m, t = [Out (StartGroup "Cachix: push"); Out (Info m);
                     Out EndGroup]) /\
     pick failureOf t = [] /\ outcome w (upload i dn) = Ok tt).
Proof.
  cbv zeta. rewrite <- pushEnabled_spec.
  destruct (pushEnabled i) eqn:E.
  - pose proof (upload_attempts_when_enabled w i dn E) as Ha.
    split; [tauto | intros Hn; contradiction].
  - unfold trace, outcome. rewrite (upload_disabled w i dn E). cbn [fst snd].
    split.
    + split; [|discriminate]. intros Ha.
      now apply no_attempt_without_calls in Ha.
    + intros _. repeat split. eauto.
Qed.

Lemma C1_witness :
  calls (trace happy (upload anonymousInputs dist)) = [] /\
  (exists m, trace happy (upload anonymousInputs dist) =
             [Out (StartGroup "Cachix: push"); Out (Info m); Out EndGroup]) /\
  pick failureOf (trace happy (upload anonymousInputs dist)) = [] /\
  outcome happy (upload anonymousInputs dist) = Ok tt.
Proof.
  apply (proj2 (C1_upload_pushes_iff_enabled happy anonymousInputs dist)).
  apply no_attempt_without_calls. reflexivity.
Defined.

(** ** Mutual exclusion of the two modes *)

Lemma length_append (s1 s2 : string) :
  String.length (s1 ++ s2) = String.length s1 + String.length s2.
Proof. induction s1 as [|c s1 IH]; simpl; auto. Qed.

Lemma eqb_short_push (s dn : string) :
  String.length s < 14 -> String.eqb s (dn ++ "/push-paths.sh") = false.
Proof.
  intros H. apply String.eqb_neq. intros ->.
  rewrite length_append in H. simpl in H. lia.
Qed.

Ltac unfold_action :=
  unfold setup, upload, ensureInstalled, checkVersion, registerAuthToken,
    usePrimaryCache, useExtraCaches, exportSigningKey, startDaemon,
    rememberStorePaths, stopDaemon, pushPaths, reportFailure,
    sync, await, call, emit, noAwait.

(** Walks through a program, leaving one goal per event it can emit. *)
Ltac emits :=
  repeat match goal with
    | |- emitsOnly _ (bind _ _) => apply emitsOnly_bind
    | |- emitsOnly _ (tryCatch _ _) => apply emitsOnly_tryCatch
    | |- emitsOnly _ (forOf _ _) => apply emitsOnly_forOf
    | |- emitsOnly _ (if ?b then _ else _) => destruct b
    | |- emitsOnly _ (match ?x with _ => _ end) => destruct x
    | |- emitsOnly _ (Ret _) => exact I
    | |- emitsOnly _ (Throw _) => exact I
    | |- emitsOnly _ (Emit _ _) => split
    | |- emitsOnly _ (Call _ _) => intros ?; split
    | |- emitsOnly _ (NoAwait _ _) => split; [intros ? |]
    | |- forall _, _ => intros ?
    end.

Lemma daemon_mode_no_direct_step (i : Inputs) (dn : string) :
  useDaemon i = "true" ->
  emitsOnly (fun ev => isDirectStep dn ev = false) (setup i dn) /\
  emitsOnly (fun ev => isDirectStep dn ev = false) (upload i dn).
Proof.
  intros H. unfold_action. rewrite H. cbn [String.eqb Ascii.eqb Bool.eqb].
  split; emits; try reflexivity; cbn [isDirectStep];
    rewrite eqb_short_push by (simpl; lia); reflexivity.
Qed.

Lemma direct_mode_no_daemon_step (i : Inputs) (dn : string) :
  useDaemon i <> "true" ->
  emitsOnly (fun ev => isDaemonStep ev = false) (setup i dn) /\
  emitsOnly (fun ev => isDaemonStep ev = false) (upload i dn).
Proof.
  intros H. apply String.eqb_neq in H. unfold_action. rewrite H.
  split; emits; reflexivity.
Qed.

Lemma Forall_false_existsb {X : Type} (f : X -> bool) (l : list X) :
  Forall (fun x => f x = false) l -> existsb f l = false.
Proof.
  induction 1 as [|x l Hx _ IH]; simpl; [reflexivity|].
  now rewrite Hx, IH.
Qed.

Lemma emitsOnly_none {A : Type} (f : Event -> bool) (w : World) (p : Prog A) :
  emitsOnly (fun ev => f ev = false) p -> existsb f (trace w p) = false.
Proof.
  intros H. apply Forall_false_existsb.
  apply (emitsOnly_Forall w p (h := []) H). constructor.
Qed.

(** C6.  Over a whole job ([setup], then [upload], each in its own
    process and world), a daemon-mode step occurs only when [useDaemon] is
    ['true'] and a direct-mode step only when it is not; so neither step,
    nor the job as a whole, takes steps of both modes. *)
Theorem C6_modes_mutually_exclusive (w1 w2 : World) (i : Inputs) (dn : string) :
  let t1 := trace w1 (setup i dn) in
  let t2 := trace w2 (upload i dn) in
  (existsb isDaemonStep (t1 ++ t2) = true -> useDaemon i = "true") /\
  (existsb (isDirectStep dn) (t1 ++ t2) = true -> useDaemon i <> "true") /\
  ~ (existsb isDaemonStep t1 = true /\ existsb (isDirectStep dn) t1 = true) /\
  ~ (existsb isDaemonStep t2 = true /\ existsb (isDirectStep dn) t2 = true) /\
  ~ (existsb isDaemonStep (t1 ++ t2) = true /\
     existsb (isDirectStep dn) (t1 ++ t2) = true).
Proof.
  cbv zeta. rewrite !existsb_app.
  destruct (string_dec (useDaemon i) "true") as [H|H].
  - destruct (daemon_mode_no_direct_step i dn H) as [H1 H2].
    rewrite (emitsOnly_none _ w1 _ H1), (emitsOnly_none _ w2 _ H2). simpl.
    repeat split; try discriminate; auto; intros [_ ?]; discriminate.
  - destruct (direct_mode_no_daemon_step i dn H) as [H1 H2].
    rewrite (emitsOnly_none _ w1 _ H1), (emitsOnly_none _ w2 _ H2). simpl.
    repeat split; try discriminate; auto; intros [? _]; discriminate.
Qed.

(** ** Authentication precedes every cache registration *)

Lemma authFirst_app (tok : string) (h t : Trace) :
  authFirst tok h -> authFirst tok (h ++ t)%list.
Proof.
  intros (pre & post & -> & H1 & H2).
  exists pre, (post ++ t)%list. now rewrite app_assoc.
Qed.

Lemma authFirst_run {A : Type} (tok : string) (w : World) (p : Prog A)
      (h : Trace) :
  authFirst tok h -> authFirst tok (fst (run w p h)).
Proof.
  intros H. destruct (run_extends w p h) as [t ->].
  now apply authFirst_app.
Qed.

Lemma noUseYet_run {A : Type} (w : World) (p : Prog A) (h : Trace) :
  emitsOnly (fun ev => isUse ev = false) p ->
  noUseYet h -> noUseYet (fst (run w p h)).
Proof.
  intros Hp. apply emitsOnly_preserves with (P := fun ev => isUse ev = false);
    auto.
  unfold noUseYet. intros h0 ev H0 Hev.
  rewrite existsb_app, H0. simpl. now rewrite Hev.
Qed.

Lemma ordered_of_inv (tok : string) (t : Trace) :
  noUseYet t \/ authFirst tok t ->
  forall pre ev post,
    t = (pre ++ ev :: post)%list -> isUse ev = true ->
    existsb (isAuth tok) pre = true.
Proof.
  intros [H0|(p & q & E & H1 & H2)] pre ev post Ht Hev.
  - unfold noUseYet in H0. rewrite Ht, existsb_app in H0. simpl in H0.
    rewrite Hev, orb_true_r in H0. discriminate.
  - rewrite Ht in E. apply app_eq_app in E as [l [[E1 E2]|[E1 E2]]].
    + subst pre. rewrite existsb_app, H2. reflexivity.
    + destruct l as [|x l].
      * rewrite app_nil_r in E1. now subst p.
      * injection E2 as -> ->. subst p. rewrite existsb_app in H1.
        simpl in H1. rewrite Hev, orb_true_r in H1. discriminate.
Qed.

Lemma setup_auth_inv (w : World) (i : Inputs) (dn : string) :
  authToken i <> "" ->
  let t := trace w (setup i dn) in
  noUseYet t \/ authFirst (authToken i) t.
Proof.
  intros Htok. apply String.eqb_neq in Htok. cbv zeta.
  unfold trace, setup. rewrite run_tryCatch, run_bind.
  assert (H1 : noUseYet (fst (run w (ensureInstalled i) []))).
  { apply noUseYet_run; [|reflexivity].
    unfold_action. emits; reflexivity. }
  destruct (run w (ensureInstalled i) []) as [h1 [[]|e1]]; simpl in H1.
  2:{ left. unfold reportFailure, emit. cbn [run fst].
      unfold noUseYet in *. rewrite existsb_app, H1. reflexivity. }
  rewrite run_bind.
  assert (H2 : noUseYet (fst (run w checkVersion h1))).
  { apply noUseYet_run; [|exact H1].
    unfold_action. emits; reflexivity. }
  destruct (run w checkVersion h1) as [h2 [[]|e2]]; simpl in H2.
  2:{ left. unfold reportFailure, emit. cbn [run fst].
      unfold noUseYet in *. rewrite existsb_app, H2. reflexivity. }
  right. rewrite run_bind. unfold registerAuthToken. rewrite Htok.
  cbn [negb]. unfold await. cbn [run].
  set (r := w _ h2 (Exec "cachix" ["authtoken"; authToken i])).
  assert (H3 : authFirst (authToken i)
                 (h2 ++ [Did (Exec "cachix" ["authtoken"; authToken i]) r])%list).
  { exists (h2 ++ [Did (Exec "cachix" ["authtoken"; authToken i]) r])%list, [].
    rewrite app_nil_r, !existsb_app. unfold noUseYet in H2. rewrite H2.
    unfold isAuth. simpl. rewrite String.eqb_refl, orb_true_r. auto. }
  destruct r as [[]|e3]; cbn [run].
  - match goal with
    | |- context [run w ?p ?h] =>
        pose proof (authFirst_run w p H3) as H4;
        destruct (run w p h) as [h4 [[]|e4]]
    end; simpl in H4; [exact H4|].
    now apply authFirst_run.
  - now apply authFirst_run.
Qed.

(** C8.  When [authToken] is non-empty, every [cachix use] call of [setup]
    comes after the [cachix authtoken <token>] call, whatever the world
    answers. *)
Theorem C8_auth_before_use (w : World) (i : Inputs) (dn : string) :
  authToken i <> "" ->
  forall pre ev post,
    trace w (setup i dn) = (pre ++ ev :: post)%list ->
    isUse ev = true ->
    existsb (isAuth (authToken i)) pre = true.
Proof.
  intros Htok. apply ordered_of_inv. now apply setup_auth_inv.
Qed.

(** ** Failures of awaited calls *)

Lemma strict_bind {A B : Type} (p : Prog A) (f : A -> Prog B) :
  strict p -> (forall a, strict (f a)) -> strict (bind p f).
Proof.
  induction p as [a|e|o k IH|X c k IH|X c k IH]; cbn [strict bind];
    intros Hp Hf; auto; try contradiction.
  intros x. specialize (Hp x).
  destruct (rejection (Did c x)); [now rewrite Hp | auto].
Qed.

Lemma strict_forOf {X : Type} (xs : list X) (body : X -> Prog unit) :
  (forall x, strict (body x)) -> strict (forOf xs body).
Proof.
  intros Hb; induction xs as [|x xs IH]; simpl; auto.
  apply strict_bind; auto.
Qed.

Lemma firstRejection_app_none (h t : Trace) :
  firstRejection h = None ->
  firstRejection (h ++ t) = firstRejection t.
Proof.
  induction h as [|ev h IH]; simpl; auto.
  destruct (rejection ev); [discriminate | auto].
Qed.

Lemma firstRejection_app_some (h t : Trace) (e : Js.Error) (s : Trace) :
  firstRejection h = Some (e, s) ->
  firstRejection (h ++ t) = Some (e, (s ++ t)%list).
Proof.
  induction h as [|ev h IH]; simpl; [discriminate|].
  destruct (rejection ev); [|auto].
  intros H; injection H as -> ->. reflexivity.
Qed.

(** A strict program either returns with no failed call behind it, or ends
    on the failed call it rethrows. *)
Lemma strict_run {A : Type} (w : World) (p : Prog A) :
  strict p ->
  forall h, firstRejection h = None ->
  match run w p h with
  | (h', Ok _) => firstRejection h' = None
  | (h', Rejected e) => firstRejection h' = Some (e, [])
  end.
Proof.
  induction p as [a|e|o k IH|X c k IH|X c k IH]; cbn [strict run];
    intros Hp h Hh; auto; try contradiction.
  - apply IH; auto. now rewrite firstRejection_app_none.
  - specialize (Hp (w X h c)).
    destruct (rejection (Did c (w X h c))) as [e|] eqn:E.
    + rewrite Hp. cbn [run]. rewrite firstRejection_app_none by auto.
      cbn [firstRejection]. now rewrite E.
    + apply IH; auto. rewrite firstRejection_app_none by auto.
      cbn [firstRejection]. now rewrite E.
  - apply IH; auto. now rewrite firstRejection_app_none.
Qed.

(** Walks through a program, leaving one goal per call it waits for. *)
Ltac stricts :=
  repeat match goal with
    | |- strict (bind _ _) => apply strict_bind
    | |- strict (forOf _ _) => apply strict_forOf
    | |- strict (if ?b then _ else _) => destruct b
    | |- strict (match ?x with _ => _ end) => destruct x
    | |- strict (Ret _) => exact I
    | |- True => exact I
    | |- strict (Emit _ _) => cbn [strict]
    | |- strict (NoAwait _ _) => cbn [strict]
    | |- strict (Call _ _) =>
        let x := fresh "x" in intros x; try (destruct x; cbn)
    | |- _ = _ => reflexivity
    | |- forall _, _ => intros ?
    end.

Lemma setup_body_strict (i : Inputs) (dn : string) :
  strict (ensureInstalled i ;;
          checkVersion ;;
          registerAuthToken i ;;
          usePrimaryCache i ;;
          useExtraCaches i ;;
          exportSigningKey i ;;
          if String.eqb (useDaemon i) "true" then startDaemon i
          else rememberStorePaths dn).
Proof. unfold_action. stricts. Qed.

Lemma setup_body_no_annotation (i : Inputs) (dn : string) :
  emitsOnly (fun ev => failureOf ev = None)
    (ensureInstalled i ;;
     checkVersion ;;
     registerAuthToken i ;;
     usePrimaryCache i ;;
     useExtraCaches i ;;
     exportSigningKey i ;;
     if String.eqb (useDaemon i) "true" then startDaemon i
     else rememberStorePaths dn).
Proof. unfold_action. emits; reflexivity. Qed.

Lemma pick_app {B : Type} (f : Event -> option B) (h t : Trace) :
  pick f (h ++ t) = (pick f h ++ pick f t)%list.
Proof.
  induction h as [|ev h IH]; simpl; auto.
  destruct (f ev); simpl; now rewrite IH.
Qed.

Lemma emitsOnly_pick {A B : Type} (f : Event -> option B) (w : World)
      (p : Prog A) (h : Trace) :
  emitsOnly (fun ev => f ev = None) p ->
  pick f (fst (run w p h)) = pick f h.
Proof.
  intros Hp.
  apply emitsOnly_preserves
    with (P := fun ev => f ev = None) (Q := fun h' => pick f h' = pick f h);
    auto.
  intros h0 ev H0 Hev. rewrite pick_app, H0. simpl. rewrite Hev.
  apply app_nil_r.
Qed.

(** In [setup], a failure of any call that is waited for ends the step on
    the spot with one job-failure annotation carrying the error, and the
    step itself returns normally; without such a failure there is no
    annotation. *)
Lemma setup_reports_awaited_failure (w : World) (i : Inputs) (dn : string) :
  outcome w (setup i dn) = Ok tt /\
  match firstRejection (trace w (setup i dn)) with
  | Some (e, post) =>
      post = [Out (SetFailed ("Action failed with error: "
                              ++ Js.errorToString e)%string)]
  | None => pick failureOf (trace w (setup i dn)) = []
  end.
Proof.
  unfold outcome, trace, setup. rewrite run_tryCatch.
  pose proof (@strict_run _ w _ (setup_body_strict i dn) [] eq_refl) as Hs.
  pose proof (@emitsOnly_pick _ _ failureOf w _ [] (setup_body_no_annotation i dn))
    as Hn.
  match type of Hs with
  | context [run w ?p []] => destruct (run w p []) as [h' [[]|e]]
  end; simpl in Hn |- *.
  - rewrite Hs. auto.
  - unfold reportFailure, emit. cbn [run fst snd].
    rewrite (firstRejection_app_some _ _ Hs). auto.
Qed.

(** ** Registration of the extra caches *)

Lemma runsOk_ret (w : World) : runsOk w (Ret tt) [].
Proof. intros h. exists []. now rewrite app_nil_r. Qed.

Lemma runsOk_emit (w : World) (o : Output) : runsOk w (emit o) [].
Proof. intros h. exists [Out o]. split; reflexivity. Qed.

Lemma runsOk_exec (w : World) (cl : string) (args : list string) :
  execSucceeds w ->
  runsOk w (await (Exec cl args)) (useCalls [Did (Exec cl args) (Ok tt)]).
Proof.
  intros Hw h. exists [Did (Exec cl args) (Ok tt)].
  unfold await. cbn [run]. rewrite Hw. split; reflexivity.
Qed.

Lemma runsOk_bind (w : World) (p q : Prog unit) (L1 L2 : list string) :
  runsOk w p L1 -> runsOk w q L2 -> runsOk w (p ;; q) (L1 ++ L2).
Proof.
  intros Hp Hq h. destruct (Hp h) as (t1 & E1 & U1).
  destruct (Hq (h ++ t1)) as (t2 & E2 & U2).
  exists (t1 ++ t2). rewrite run_bind, E1, E2, app_assoc.
  split; [reflexivity|]. unfold useCalls in *. now rewrite pick_app, U1, U2.
Qed.

Lemma runsOk_forOf (w : World) (xs : list string)
      (body : string -> Prog unit) (g : string -> string) :
  (forall x, runsOk w (body x) [g x]) ->
  runsOk w (forOf xs body) (map g xs).
Proof.
  intros Hb. induction xs as [|x xs IH]; cbn [forOf map].
  - apply runsOk_ret.
  - change (g x :: map g xs) with ([g x] ++ map g xs).
    apply runsOk_bind; auto.
Qed.

Lemma ensureInstalled_ok (w : World) (i : Inputs) :
  execSucceeds w -> runsOk w (ensureInstalled i) [].
Proof.
  intros Hw h. unfold ensureInstalled, call. cbn [bind run].
  set (found := w _ h (WhichSyncNoThrow "cachix")).
  destruct (truthy found); cbn [negb].
  - exists [Did (WhichSyncNoThrow "cachix") found]. split; reflexivity.
  - destruct (runsOk_bind (runsOk_emit w (StartGroup "Cachix: installing"))
                (runsOk_bind (runsOk_exec "bash" ["-c"; installCommand i] Hw)
                   (runsOk_emit w EndGroup))
                (h ++ [Did (WhichSyncNoThrow "cachix") found]))
      as (t & E & U).
    exists (Did (WhichSyncNoThrow "cachix") found :: t).
    rewrite E, <- app_assoc. split; [reflexivity | exact U].
Qed.

Lemma checkVersion_ok (w : World) :
  execSucceeds w -> runsOk w checkVersion [].
Proof.
  intros Hw. unfold checkVersion.
  apply (runsOk_bind (L1 := []) (L2 := [])); [apply runsOk_emit|].
  apply (runsOk_bind (L1 := []) (L2 := [])); [|apply runsOk_emit].
  now apply (runsOk_exec "cachix" ["--version"]).
Qed.

Lemma registerAuthToken_ok (w : World) (i : Inputs) :
  execSucceeds w -> runsOk w (registerAuthToken i) [].
Proof.
  intros Hw. unfold registerAuthToken.
  destruct (negb (authToken i =? "")%string); [|apply runsOk_ret].
  now apply (runsOk_exec "cachix" ["authtoken"; authToken i]).
Qed.

Lemma usePrimaryCache_ok (w : World) (i : Inputs) :
  execSucceeds w -> runsOk w (usePrimaryCache i) (primaryUse i).
Proof.
  intros Hw. unfold usePrimaryCache, primaryUse.
  destruct (skipAddingSubstituter i =? "true")%string;
    [apply runsOk_emit|].
  apply (runsOk_bind (L1 := []) (L2 := [name i])); [apply runsOk_emit|].
  apply (runsOk_bind (L1 := [name i]) (L2 := [])); [|apply runsOk_emit].
  now apply (runsOk_exec "cachix" ["use"; name i]).
Qed.

Lemma useExtraCaches_ok (w : World) (i : Inputs) :
  execSucceeds w -> runsOk w (useExtraCaches i) (extraUses i).
Proof.
  intros Hw. unfold useExtraCaches, extraUses.
  destruct (extraPullNames i =? "")%string; cbn [negb];
    [apply runsOk_ret|].
  apply (runsOk_bind (L1 := [])
           (L2 := map Js.trim (Js.split "," (extraPullNames i))));
    [apply runsOk_emit|].
  rewrite <- (app_nil_r (map Js.trim (Js.split "," (extraPullNames i)))).
  apply runsOk_bind; [|apply runsOk_emit].
  apply runsOk_forOf. intros x.
  now apply (runsOk_exec "cachix" ["use"; Js.trim x]).
Qed.

Lemma registration_ok (w : World) (i : Inputs) :
  execSucceeds w ->
  runsOk w
    (ensureInstalled i ;; checkVersion ;; registerAuthToken i ;;
     usePrimaryCache i ;; useExtraCaches i)
    (primaryUse i ++ extraUses i).
Proof.
  intros Hw.
  apply (runsOk_bind (L1 := [])); [now apply ensureInstalled_ok|].
  apply (runsOk_bind (L1 := [])); [now apply checkVersion_ok|].
  apply (runsOk_bind (L1 := [])); [now apply registerAuthToken_ok|].
  apply runsOk_bind; [now apply usePrimaryCache_ok|].
  now apply useExtraCaches_ok.
Qed.

Lemma setup_rest_no_use (i : Inputs) (dn : string) :
  emitsOnly (fun ev => useCall ev = None)
    (exportSigningKey i ;;
     if String.eqb (useDaemon i) "true" then startDaemon i
     else rememberStorePaths dn).
Proof. unfold_action. emits; reflexivity. Qed.

Lemma extraUses_nonempty (i : Inputs) :
  extraPullNames i <> "" ->
  extraUses i = map Js.trim (Js.split "," (extraPullNames i)).
Proof.
  intros H. apply String.eqb_neq in H. unfold extraUses. now rewrite H.
Qed.

(** When every invocation succeeds, the [use] calls of [setup] are the
    primary cache (unless skipped) and then, for a non-empty
    [extraPullNames], its trimmed segments, one call per segment, in
    order. *)
Lemma setup_useCalls (w : World) (i : Inputs) (dn : string) :
  execSucceeds w ->
  useCalls (trace w (setup i dn)) = primaryUse i ++ extraUses i.
Proof.
  intros Hw. unfold trace, setup. rewrite run_tryCatch.
  pose proof (registration_ok i Hw []) as (t & E & U).
  rewrite run_bind in E. rewrite run_bind.
  destruct (run w (ensureInstalled i) []) as [h1 [[]|e1]];
    [|discriminate].
  rewrite run_bind in E. rewrite run_bind.
  destruct (run w checkVersion h1) as [h2 [[]|e2]]; [|discriminate].
  rewrite run_bind in E. rewrite run_bind.
  destruct (run w (registerAuthToken i) h2) as [h3 [[]|e3]];
    [|discriminate].
  rewrite run_bind in E. rewrite run_bind.
  destruct (run w (usePrimaryCache i) h3) as [h4 [[]|e4]];
    [|discriminate].
  rewrite run_bind.
  destruct (run w (useExtraCaches i) h4) as [h5 [[]|e5]];
    [|discriminate].
  injection E as ->.
  pose proof (@emitsOnly_pick _ _ useCall w _ t
                (setup_rest_no_use i dn)) as Hr.
  match type of Hr with
  | context [run w ?p ?h] => destruct (run w p h) as [h' [[]|e]]
  end; cbn [fst] in Hr |- *; unfold useCalls in *; cbn [app] in Hr.
  - now rewrite Hr.
  - unfold reportFailure, emit. cbn [run fst].
    rewrite pick_app, Hr, U. apply app_nil_r.
Qed.

Lemma afterFailedUse_first (t post : Trace) :
  afterFailedUse t = Some post ->
  exists e s, firstRejection t = Some (e, s)
              /\ (s = post \/ afterFailedUse s = Some post).
Proof.
  induction t as [|ev t IH]; cbn [afterFailedUse firstRejection];
    [discriminate|].
  destruct (rejection ev) as [e|].
  - destruct (useCall ev); intros H; exists e, t; split; auto.
    injection H as ->. auto.
  - destruct (useCall ev); auto.
Qed.

(** C3.  With a non-empty [extraPullNames]: when the invocations succeed,
    the [use] calls of [setup] after the primary cache are exactly the
    segments of the comma-separated list, trimmed, one call each, in input
    order; and in any world, a [use] call that fails is followed by the
    job-failure annotation only, so the remaining names are not
    registered. *)
Theorem C3_extra_caches_registered_in_order
        (w : World) (i : Inputs) (dn : string) :
  extraPullNames i <> "" ->
  (execSucceeds w ->
   useCalls (trace w (setup i dn)) =
   primaryUse i ++ map Js.trim (Js.split "," (extraPullNames i))) /\
  (forall post,
     afterFailedUse (trace w (setup i dn)) = Some post ->
     useCalls post = [] /\ exists m, post = [Out (SetFailed m)]).
Proof.
  intros Hx. split.
  - intros Hw. rewrite <- extraUses_nonempty by exact Hx.
    now apply setup_useCalls.
  - intros post H.
    destruct (afterFailedUse_first _ H) as (e & s & E & Hs).
    destruct (setup_reports_awaited_failure w i dn) as [_ Hr].
    rewrite E in Hr. subst s.
    destruct Hs as [<-|Hs]; [split; eauto | discriminate].
Qed.

(** C10.  When a segment of a non-empty [extraPullNames] is empty or all
    whitespace and the invocations succeed, [setup] issues a [use] call
    whose cache name is the empty string. *)
Theorem C10_empty_segment_registered (w : World) (i : Inputs) (dn : string) :
  execSucceeds w ->
  extraPullNames i <> "" ->
  (exists seg, In seg (Js.split "," (extraPullNames i))
               /\ Js.trim seg = ""%string) ->
  In ""%string (useCalls (trace w (setup i dn))).
Proof.
  intros Hw Hx (seg & Hin & Ht).
  rewrite setup_useCalls, extraUses_nonempty by auto.
  apply in_or_app. right. rewrite <- Ht. now apply in_map.
Qed.

(** ** One daemon directory per run *)

Lemma append_assoc (a b c : string) :
  ((a ++ b) ++ c)%string = (a ++ b ++ c)%string.
Proof. induction a as [|x a IH]; simpl; [reflexivity | now rewrite IH]. Qed.

(** The hook script consists of its preamble, the command line
    [hookInvocation] with the socket [daemonDir/daemon.sock], and a line
    end. *)
Lemma postBuildHookScript_invocation (cachix daemonDir nm : string) :
  postBuildHookScript cachix daemonDir nm =
  (hookPreamble
   ++ hookInvocation cachix (daemonDir ++ "/daemon.sock") nm
   ++ Js.nl ++ "     ")%string.
Proof.
  unfold postBuildHookScript, hookInvocation, hookPreamble. simpl.
  repeat (rewrite !append_assoc; simpl). reflexivity.
Qed.

Lemma quiet_coherent (i : Inputs) (dd : string) (ev : Event) :
  quiet ev -> coherent i dd ev.
Proof.
  destruct ev as [o|X c x|X c r]; [destruct o|destruct c|]; simpl; tauto.
Qed.

Lemma oneDaemonDir_snoc_quiet (i : Inputs) (h : Trace) (ev : Event) :
  oneDaemonDir i h -> quiet ev -> oneDaemonDir i (h ++ [ev]).
Proof.
  intros [H|[dd H]] Hq; [left|right; exists dd]; apply Forall_app; split;
    auto using quiet_coherent.
Qed.

Lemma oneDaemonDir_bind_quiet {A B : Type} (w : World) (i : Inputs)
      (p : Prog A) (f : A -> Prog B) :
  emitsOnly quiet p ->
  (forall a h, Forall quiet h -> oneDaemonDir i (fst (run w (f a) h))) ->
  forall h, Forall quiet h -> oneDaemonDir i (fst (run w (bind p f) h)).
Proof.
  intros Hp Hf h Hh. rewrite run_bind.
  pose proof (emitsOnly_Forall w p Hp Hh) as H1.
  destruct (run w p h) as [h' [a|e]]; simpl in H1; [auto | now left].
Qed.

Lemma startDaemon_oneDaemonDir (w : World) (i : Inputs) (h : Trace) :
  Forall quiet h -> oneDaemonDir i (fst (run w (startDaemon i) h)).
Proof.
  intros Hh. unfold startDaemon, call. cbn [bind run].
  set (runnerTemp := w _ h (GetEnv "RUNNER_TEMP")).
  assert (H1 : Forall quiet (h ++ [Did (GetEnv "RUNNER_TEMP") runnerTemp]))
    by (apply Forall_app; split; auto; repeat constructor).
  revert H1. generalize (h ++ [Did (GetEnv "RUNNER_TEMP") runnerTemp]).
  intros h1 H1.
  assert (H2 : forall tmpdir h2, Forall quiet h2 ->
    oneDaemonDir i
      (fst (run w
         (daemonDir <- await (Mkdtemp tmpdir "cachix-daemon-") ;;
          daemonLog <- sync (OpenSync (daemonDir ++ "/daemon.log") "a") ;;
          pid <- sync (Spawn "cachix"
                         ["daemon"; "run"; "--socket";
                          (daemonDir ++ "/daemon.sock")%string]
                         [Ignore; Fd daemonLog; Fd daemonLog] true) ;;
          match pid with
          | Some p =>
              await (WriteFile (daemonDir ++ "/daemon.pid")
                       (Js.numberToString (Js.Int p)))
          | None => Ret tt
          end ;;
          cachix <- sync (WhichSync "cachix") ;;
          emit (Debug ("Found cachix executable: " ++ cachix)) ;;
          await (WriteFile (daemonDir ++ "/cachix-post-build-hook.sh")
                   (postBuildHookScript cachix daemonDir (name i))) ;;
          noAwait (Chmod (daemonDir ++ "/cachix-post-build-hook.sh") 493) ;;
          home <- Call (GetEnv "HOME") (fun x => Ret x) ;;
          await (Mkdir (Js.show home ++ "/.config/nix") true) ;;
          home' <- Call (GetEnv "HOME") (fun x => Ret x) ;;
          nixConf <- sync (OpenSync (Js.show home' ++ "/.config/nix/nix.conf")
                             "a") ;;
          sync (WriteSync nixConf
                  (nixConfLine (daemonDir ++ "/cachix-post-build-hook.sh"))) ;;
          noAwait (Close nixConf) ;;
          emit (ExportVariable ENV_CACHIX_DAEMON_DIR daemonDir) ;;
          emit (Debug ("Cachix daemon started with pid " ++ showPid pid)) ;;
          emit Unref) h2))).
  { intros tmpdir h2 H2. unfold await at 1. cbn [bind run].
    set (r := w _ h2 (Mkdtemp tmpdir "cachix-daemon-")).
    assert (H3 : Forall quiet (h2 ++ [Did (Mkdtemp tmpdir "cachix-daemon-") r]))
      by (apply Forall_app; split; auto; repeat constructor).
    destruct r as [dd|e]; cbn [bind run fst]; [|now left].
    right. exists dd. apply emitsOnly_Forall.
    - unfold_action. emits; cbn [coherent]; auto; eauto.
    - eapply Forall_impl; [|exact H3]. apply quiet_coherent. }
  destruct (truthy runnerTemp); cbn [bind run].
  - now apply H2.
  - apply H2. apply Forall_app; split; auto; repeat constructor.
Qed.

Lemma setup_oneDaemonDir (w : World) (i : Inputs) (dn : string) :
  oneDaemonDir i (trace w (setup i dn)).
Proof.
  unfold trace, setup. rewrite run_tryCatch.
  assert (H : oneDaemonDir i (fst (run w
     (ensureInstalled i ;; checkVersion ;; registerAuthToken i ;;
      usePrimaryCache i ;; useExtraCaches i ;; exportSigningKey i ;;
      (if (useDaemon i =? "true")%string then startDaemon i
       else rememberStorePaths dn)) []))).
  { repeat (apply oneDaemonDir_bind_quiet;
            [unfold_action; emits; cbn [quiet]; try exact I;
             unfold ENV_CACHIX_DAEMON_DIR; discriminate
            |intros [] ? ?
            |first [assumption | constructor]]).
    destruct (useDaemon i =? "true")%string.
    - now apply startDaemon_oneDaemonDir.
    - left. apply emitsOnly_Forall; auto.
      unfold_action. emits; exact I. }
  destruct (run w _ []) as [h' [[]|e]]; cbn [fst] in H |- *; auto.
  unfold reportFailure, emit. cbn [run fst].
  apply oneDaemonDir_snoc_quiet; [exact H | exact I].
Qed.

Lemma pick_In {B : Type} (f : Event -> option B) (P : Event -> Prop)
      (t : Trace) (b : B) :
  Forall P t -> In b (pick f t) -> exists ev, P ev /\ f ev = Some b.
Proof.
  induction 1 as [|ev t Hev _ IH]; simpl; [contradiction|].
  destruct (f ev) as [b'|] eqn:E; auto.
  intros [->|H]; eauto.
Qed.

(** ** The daemon directory handed from setup to upload *)

Lemma exported_quiet (t : Trace) :
  Forall quiet t -> exported ENV_CACHIX_DAEMON_DIR t = None.
Proof.
  induction 1 as [|ev t Hev _ IH]; cbn [exported]; [reflexivity|].
  rewrite IH. destruct ev as [o|X c x|X c r]; try reflexivity.
  destruct o; try reflexivity. cbn [exportOf].
  apply String.eqb_neq in Hev. now rewrite Hev.
Qed.

Lemma exported_coherent (i : Inputs) (dd d : string) (t : Trace) :
  Forall (coherent i dd) t ->
  exported ENV_CACHIX_DAEMON_DIR t = Some d -> d = dd.
Proof.
  induction 1 as [|ev t Hev _ IH]; cbn [exported]; [discriminate|].
  destruct (exported ENV_CACHIX_DAEMON_DIR t) as [v|].
  - intros H. apply IH. exact H.
  - destruct ev as [o|X c x|X c r]; try discriminate.
    destruct o; try discriminate. cbn [exportOf].
    destruct (String.eqb_spec key ENV_CACHIX_DAEMON_DIR); [|discriminate].
    intros H. injection H as <-. now apply Hev.
Qed.

Ltac answer w :=
  match goal with
  | |- context [w ?X ?h ?c] =>
      let r := fresh "r" in
      destruct (w X h c) as [r|r]; cbn [bind run tryCatch]
  end.

(** Where [upload] looks: nowhere, or in the directory named by the
    handoff variable. *)
Lemma upload_reads (w : World) (i : Inputs) (dn d : string) :
  (forall h, w _ h (GetEnv ENV_CACHIX_DAEMON_DIR) = Some d) ->
  let t := trace w (upload i dn) in
  (pick envRead t = [] /\ pick readFileOf t = [] /\ pick tailedFile t = []
   /\ (pushEnabled i && (useDaemon i =? "true")%string)%bool = false) \/
  (pick envRead t = [ENV_CACHIX_DAEMON_DIR]
   /\ pick readFileOf t = [(d ++ "/daemon.pid")%string]
   /\ (pick tailedFile t = []
       \/ pick tailedFile t = [(d ++ "/daemon.log")%string])).
Proof.
  intros Hw. cbv zeta. unfold trace, upload, pushEnabled.
  destruct (skipPush i =? "true")%string; [left; repeat split|].
  cbn [negb andb].
  destruct (negb (signingKey i =? "")%string
            || negb (authToken i =? "")%string)%bool;
    [|left; repeat split].
  destruct (useDaemon i =? "true")%string; cbn [andb].
  - right. unfold stopDaemon, call, emit, sync, await, reportFailure.
    cbn [bind run tryCatch]. rewrite Hw. cbn [Js.show].
    answer w; [|repeat split; auto].
    answer w; [|repeat split; auto].
    answer w; repeat split; auto.
  - left. unfold pushPaths, emit, await, reportFailure.
    cbn [bind run tryCatch]. answer w; repeat split.
Qed.

(** The directory [setup] exported is the one it put everything in. *)
Lemma setup_names_exported_dir (w : World) (i : Inputs) (dn d : string) :
  exported ENV_CACHIX_DAEMON_DIR (trace w (setup i dn)) = Some d ->
  (forall args, In args (pick spawnArgs (trace w (setup i dn))) ->
     args = ["daemon"; "run"; "--socket"; d ++ "/daemon.sock"]%string) /\
  (forall p data, In (p, data) (pick writtenFile (trace w (setup i dn))) ->
     p = (d ++ "/daemon.pid")%string
     \/ p = (d ++ "/cachix-post-build-hook.sh")%string) /\
  (forall p, In p (pick openedFile (trace w (setup i dn))) ->
     p = (d ++ "/daemon.log")%string
     \/ exists home, p = (home ++ "/.config/nix/nix.conf")%string).
Proof.
  intros Hexp.
  destruct (setup_oneDaemonDir w i dn) as [H|[dd H]].
  { rewrite (exported_quiet H) in Hexp. discriminate. }
  rewrite (exported_coherent H Hexp). clear Hexp.
  repeat split.
  - intros args Hin.
    destruct (pick_In spawnArgs _ H Hin) as (ev & Hc & E).
    destruct ev as [o|X c x|X c r]; try discriminate.
    destruct c; try discriminate. injection E as <-. exact Hc.
  - intros p data Hin.
    destruct (pick_In writtenFile _ H Hin) as (ev & Hc & E).
    destruct ev as [o|X c x|X c r]; try discriminate.
    destruct c; try discriminate. injection E as <- <-.
    cbn [coherent] in Hc. tauto.
  - intros p Hin.
    destruct (pick_In openedFile _ H Hin) as (ev & Hc & E).
    destruct ev as [o|X c x|X c r]; try discriminate.
    destruct c; try discriminate. injection E as <-. exact Hc.
Qed.

(** C7.  If [setup] exported the daemon directory [d] in
    [CACHIX_DAEMON_DIR] and the runner hands the exported variables to the
    post step, then [upload] reads that variable and no other, reads the
    pid file [d/daemon.pid] and tails [d/daemon.log]; and [d] is the
    directory in which [setup] put the socket, the pid file, the log and
    the hook script. *)
Theorem C7_daemon_dir_handoff (w1 w2 : World) (i : Inputs) (dn d : string) :
  exported ENV_CACHIX_DAEMON_DIR (trace w1 (setup i dn)) = Some d ->
  handsOver (trace w1 (setup i dn)) w2 ->
  let t1 := trace w1 (setup i dn) in
  let t2 := trace w2 (upload i dn) in
  (forall k, In k (pick envRead t2) -> k = ENV_CACHIX_DAEMON_DIR) /\
  (forall p, In p (pick readFileOf t2) -> p = (d ++ "/daemon.pid")%string) /\
  (forall p, In p (pick tailedFile t2) -> p = (d ++ "/daemon.log")%string) /\
  (pushEnabled i = true -> useDaemon i = "true"%string ->
   pick readFileOf t2 = [(d ++ "/daemon.pid")%string]) /\
  (forall args, In args (pick spawnArgs t1) ->
     args = ["daemon"; "run"; "--socket"; d ++ "/daemon.sock"]%string) /\
  (forall p data, In (p, data) (pick writtenFile t1) ->
     p = (d ++ "/daemon.pid")%string
     \/ p = (d ++ "/cachix-post-build-hook.sh")%string) /\
  (forall p, In p (pick openedFile t1) ->
     p = (d ++ "/daemon.log")%string
     \/ exists home, p = (home ++ "/.config/nix/nix.conf")%string).
Proof.
  intros Hexp Hw. cbv zeta.
  assert (Hget : forall h, w2 _ h (GetEnv ENV_CACHIX_DAEMON_DIR) = Some d)
    by (intros h; now apply Hw).
  pose proof (setup_names_exported_dir w1 i dn Hexp) as Hsetup.
  destruct (upload_reads w2 i dn Hget) as [(E1 & E2 & E3 & E4)|(E1 & E2 & E3)].
  - rewrite E1, E2, E3.
    split; [contradiction|]. split; [contradiction|].
    split; [contradiction|]. split; [|exact Hsetup].
    intros Hp Hd. apply String.eqb_eq in Hd.
    rewrite Hp, Hd in E4. discriminate.
  - rewrite E1, E2.
    split; [intros k [<-|[]]; reflexivity|].
    split; [intros p [<-|[]]; reflexivity|].
    split; [destruct E3 as [-> | ->]; [contradiction|];
            intros p [<-|[]]; reflexivity|].
    split; [reflexivity | exact Hsetup].
Qed.

(** ** The post-build hook under the shell *)

Lemma untag_tag (o : Sh.Origin) (s : string) :
  Sh.untag (Sh.tag o s ++ []) = s.
Proof.
  unfold Sh.untag, Sh.tag. rewrite app_nil_r, map_map. simpl.
  rewrite map_id. apply string_of_list_ascii_of_string.
Qed.

(** With a null [IFS], an expansion is one field however many blanks it
    holds. *)
Lemma fields_null_ifs (v : string) :
  v <> ""%string ->
  Sh.fields "" (Sh.tag Sh.FromParam v ++ []) false = [v].
Proof.
  intros Hv. unfold Sh.fields. cbn [String.eqb].
  destruct (Sh.tag Sh.FromParam v ++ []) as [|p l] eqn:E.
  - destruct v; [contradiction | discriminate].
  - now rewrite <- E, untag_tag.
Qed.

(** Whatever the build tool reports in [OUT_PATHS], the hook hands it to
    the client as a single argument, with globbing off and [IFS] null. *)
Lemma hook_out_paths_one_argument (v : string) :
  v <> ""%string ->
  Sh.run (postBuildHookScript "/usr/bin/cachix" "/tmp/cachix-daemon-Ab12"
            "my-cache")
         [("OUT_PATHS"%string, v)] =
  Sh.Execs
    {| Sh.errexit := true; Sh.nounset := true; Sh.xtrace := true;
       Sh.noglob := true;
       Sh.vars := [("IFS", ""); ("OUT_PATHS", v)]%string |}
    ["/usr/bin/cachix"; "daemon"; "push"; "--socket";
     "/tmp/cachix-daemon-Ab12/daemon.sock"; "my-cache"; v]%string.
Proof.
  intros Hv. destruct v as [|a v]; [contradiction|].
  transitivity
    (Sh.Execs
       {| Sh.errexit := true; Sh.nounset := true; Sh.xtrace := true;
          Sh.noglob := true;
          Sh.vars := [("IFS", ""); ("OUT_PATHS", String a v)]%string |}
       ["/usr/bin/cachix"; "daemon"; "push"; "--socket";
        "/tmp/cachix-daemon-Ab12/daemon.sock"; "my-cache";
        String a (Sh.untag (Sh.tag Sh.FromParam v ++ []))]%string).
  - reflexivity.
  - now rewrite untag_tag.
Qed.

(** The same script with [IFS=' '] would pass each path on its own. *)
Example ifs_space_splits :
  Sh.argv
    (Sh.run ("set -f #disable globbing" ++ Js.nl ++
             "export IFS=' '" ++ Js.nl ++
             "exec cachix daemon push --socket /d/daemon.sock my-cache $OUT_PATHS")%string
            [("OUT_PATHS"%string, twoOutPaths)]) =
  Some ["cachix"; "daemon"; "push"; "--socket"; "/d/daemon.sock"; "my-cache";
        "/nix/store/aaa-foo"; "/nix/store/bbb-foo-dev"]%string.
Proof. reflexivity. Qed.

(** C2.  Run by the shell with two space-delimited paths in [OUT_PATHS],
    the generated hook has globbing disabled ([set -f]) and [IFS] null, so
    that no expansion is split, [$OUT_PATHS] included: the client receives
    both paths as one argument instead of one argument per path. *)
Theorem C2_hook_passes_out_paths_unsplit :
  Sh.run (postBuildHookScript "/usr/bin/cachix" "/tmp/cachix-daemon-Ab12"
            "my-cache")
         [("OUT_PATHS"%string, twoOutPaths)] =
  Sh.Execs
    {| Sh.errexit := true; Sh.nounset := true; Sh.xtrace := true;
       Sh.noglob := true;
       Sh.vars := [("IFS", ""); ("OUT_PATHS", twoOutPaths)]%string |}
    ["/usr/bin/cachix"; "daemon"; "push"; "--socket";
     "/tmp/cachix-daemon-Ab12/daemon.sock"; "my-cache";
     "/nix/store/aaa-foo /nix/store/bbb-foo-dev"]%string.
Proof. reflexivity. Qed.

(** ** A failure that is not waited for *)

(** C4.  In daemon mode, when [chmod] of the hook script is refused, the
    rejection belongs to a promise [setup] never waits for: it reaches no
    handler, no job-failure annotation is made, and [setup] goes on to
    register the hook and returns normally, leaving an unhandled
    rejection. *)
Theorem C4_chmod_rejection_escapes :
  let t := trace chmodDenied (setup daemonInputs dist) in
  unhandled t = [eperm] /\
  pick failureOf t = [] /\
  firstRejection t = None /\
  outcome chmodDenied (setup daemonInputs dist) = Ok tt /\
  exported ENV_CACHIX_DAEMON_DIR t = Some "/tmp/cachix-daemon-Ab12"%string.
Proof. repeat split. Qed.

(** ** The flags are compared with ['true'] *)

Lemma upload_push_steps (w : World) (i : Inputs) (dn : string) :
  existsb (isPushStep dn) (trace w (upload i dn)) = pushEnabled i.
Proof.
  destruct (pushEnabled i) eqn:E.
  - now apply upload_enabled.
  - unfold trace. now rewrite (upload_disabled w i dn E).
Qed.

(** C9.  A value [v] other than ['true'] of [useDaemon],
    [skipAddingSubstituter] or [skipPush] gives the same program as
    ['false']: with such a [useDaemon] no daemon-mode step is ever taken,
    with such a [skipAddingSubstituter] the primary cache is registered,
    and with such a [skipPush] pushing depends on the credentials
    alone. *)
Theorem C9_flags_compare_with_true (i : Inputs) (dn v : string) :
  v <> "true"%string ->
  (setup (withUseDaemon v i) dn = setup (withUseDaemon "false" i) dn /\
   upload (withUseDaemon v i) dn = upload (withUseDaemon "false" i) dn) /\
  (setup (withSkipAddingSubstituter v i) dn =
   setup (withSkipAddingSubstituter "false" i) dn) /\
  (upload (withSkipPush v i) dn = upload (withSkipPush "false" i) dn) /\
  (forall w1 w2,
     existsb isDaemonStep
       (trace w1 (setup (withUseDaemon v i) dn)
        ++ trace w2 (upload (withUseDaemon v i) dn)) = false) /\
  (forall w,
     execSucceeds w ->
     useCalls (trace w (setup (withSkipAddingSubstituter v i) dn)) =
     name i :: extraUses i) /\
  (forall w,
     existsb (isPushStep dn) (trace w (upload (withSkipPush v i) dn)) =
     (negb (signingKey i =? "")%string
      || negb (authToken i =? "")%string)%bool).
Proof.
  intros Hv. pose proof Hv as Hb. apply String.eqb_neq in Hb.
  repeat split.
  - unfold setup. cbn. now rewrite Hb.
  - unfold upload. cbn. now rewrite Hb.
  - unfold setup, usePrimaryCache. cbn. now rewrite Hb.
  - unfold upload. cbn. now rewrite Hb.
  - intros w1 w2. rewrite existsb_app.
    destruct (direct_mode_no_daemon_step (withUseDaemon v i) dn Hv)
      as [H1 H2].
    now rewrite (emitsOnly_none _ w1 _ H1), (emitsOnly_none _ w2 _ H2).
  - intros w Hw. rewrite setup_useCalls by exact Hw.
    unfold primaryUse, extraUses. cbn. now rewrite Hb.
  - intros w. rewrite upload_push_steps. unfold pushEnabled. cbn.
    now rewrite Hb.
Qed.

(** ** Runs of the examples *)

(** Direct mode, signing key set: [setup] snapshots the store paths and
    [upload] calls the push helper. *)
Example direct_mode_run :
  trace happy (setup exampleInputs dist) =
  [Did (WhichSyncNoThrow "cachix") (Some "/usr/bin/cachix"%string);
   Out (StartGroup "Cachix: checking version");
   Did (Exec "cachix" ["--version"%string]) (Ok tt);
   Out EndGroup;
   Out (StartGroup "Cachix: using cache my-cache");
   Did (Exec "cachix" ["use"; "my-cache"]%string) (Ok tt);
   Out EndGroup;
   Out (ExportVariable "CACHIX_SIGNING_KEY" "secret");
   Did (Exec "sh"
          ["-c";
           "/action/dist/main/list-nix-store.sh > /tmp/store-path-pre-build"]%string)
       (Ok tt)] /\
  trace happy (upload exampleInputs dist) =
  [Out (StartGroup "Cachix: push");
   Did (Exec "/action/dist/main/push-paths.sh"
          ["cachix"; ""; "my-cache"; ""; ""]%string) (Ok tt);
   Out EndGroup].
Proof. split; reflexivity. Qed.

(** Daemon mode: what [setup] spawns, writes and exports, and what
    [upload] reads and signals. *)
Example daemon_mode_run :
  pick spawnArgs (trace happy (setup daemonInputs dist)) =
  [["daemon"; "run"; "--socket";
    "/tmp/cachix-daemon-Ab12/daemon.sock"]%string] /\
  map fst (pick writtenFile (trace happy (setup daemonInputs dist))) =
  ["/tmp/cachix-daemon-Ab12/daemon.pid";
   "/tmp/cachix-daemon-Ab12/cachix-post-build-hook.sh"]%string /\
  pick exportOf (trace happy (setup daemonInputs dist)) =
  [("CACHIX_DAEMON_DIR", "/tmp/cachix-daemon-Ab12")]%string /\
  trace happy (upload daemonInputs dist) =
  [Out (StartGroup "Cachix: push");
   Did (GetEnv "CACHIX_DAEMON_DIR") (Some "/tmp/cachix-daemon-Ab12"%string);
   Did (ReadFile "/tmp/cachix-daemon-Ab12/daemon.pid" "utf8")
       (Ok "4242"%string);
   Out (Debug "Found Cachix daemon with pid 4242");
   Did (NewTail "/tmp/cachix-daemon-Ab12/daemon.log" true) (Ok tt);
   Out TailOnLineInfo;
   Out (Debug "Sending SIGINT to Cachix daemon with pid 4242");
   Did (Kill (Js.Int 4242) "SIGINT") (Ok tt);
   Out (Debug "Waiting for Cachix daemon to exit...");
   Out TailUnwatch;
   Out EndGroup].
Proof. repeat split. Qed.

(** When registering the first extra cache fails, the second is never
    tried and the step ends on the annotation. *)
Example extra_cache_failure_aborts :
  useCalls (trace (useFails "nix-community") (setup daemonInputs dist)) =
  ["my-cache"; "nix-community"]%string /\
  afterFailedUse (trace (useFails "nix-community") (setup daemonInputs dist)) =
  Some [Out (SetFailed "Action failed with error: Error: The process '/usr/bin/cachix' failed with exit code 1")] /\
  pick spawnArgs (trace (useFails "nix-community") (setup daemonInputs dist))
  = [].
Proof. repeat split. Qed.

(** The flags distinguish ['true'] from everything else. *)
Example flag_values :
  existsb isDaemonStep
    (trace happy (setup (withUseDaemon "true" exampleInputs) dist)) = true /\
  Forall (fun v =>
            existsb isDaemonStep
              (trace happy (setup (withUseDaemon v exampleInputs) dist))
            = false /\
            useCalls
              (trace happy
                 (setup (withSkipAddingSubstituter v exampleInputs) dist))
            = ["my-cache"%string] /\
            existsb (isPushStep dist)
              (trace happy (upload (withSkipPush v exampleInputs) dist))
            = true)
         ["True"; "TRUE"; "1"; "yes"; ""; "false"]%string.
Proof. split; [reflexivity|]. repeat constructor. Qed.

(** ** Instances *)

Lemma happy_execSucceeds : execSucceeds happy.
Proof. intros h cl args. reflexivity. Defined.

Lemma exported_In (k v : string) (t : Trace) :
  exported k t = Some v -> In (k, v) (pick exportOf t).
Proof.
  induction t as [|ev t IH]; cbn [exported pick]; [discriminate|].
  destruct (exported k t) as [v'|].
  - intros H. destruct (exportOf ev); [right|]; auto.
  - destruct (exportOf ev) as [[k' v']|]; [|discriminate].
    destruct (String.eqb_spec k' k); [|discriminate].
    intros H. injection H as <-. subst k'. now left.
Qed.

Lemma happy_handsOver :
  handsOver (trace happy (setup daemonInputs dist)) happy.
Proof.
  intros h k v H. apply exported_In in H. vm_compute in H.
  destruct H as [H|[]]. injection H as <- <-. reflexivity.
Defined.

Lemma C3_witness :
  useCalls (trace happy (setup daemonInputs dist)) =
  ["my-cache"; "nix-community"; "devenv"]%string /\
  (forall post,
     afterFailedUse (trace happy (setup daemonInputs dist)) = Some post ->
     useCalls post = [] /\ exists m, post = [Out (SetFailed m)]).
Proof.
  destruct (C3_extra_caches_registered_in_order happy daemonInputs dist)
    as [H1 H2]; [discriminate|].
  split; [exact (H1 happy_execSucceeds) | exact H2].
Defined.

Lemma daemon_dir_exported :
  exported ENV_CACHIX_DAEMON_DIR (trace happy (setup daemonInputs dist)) =
  Some "/tmp/cachix-daemon-Ab12"%string.
Proof. vm_compute. reflexivity. Defined.

Lemma C7_witness :
  pick readFileOf (trace happy (upload daemonInputs dist)) =
  [("/tmp/cachix-daemon-Ab12" ++ "/daemon.pid")%string].
Proof.
  exact (proj1 (proj2 (proj2 (proj2
           (@C7_daemon_dir_handoff happy happy daemonInputs dist
              "/tmp/cachix-daemon-Ab12"
              daemon_dir_exported happy_handsOver))))
           eq_refl eq_refl).
Defined.

Lemma C8_witness :
  existsb (isAuth "tok")
    (firstn 6 (trace happy (setup daemonInputs dist))) = true.
Proof.
  apply (@C8_auth_before_use happy daemonInputs dist)
    with (ev := Did (Exec "cachix" ["use"; "my-cache"]%string) (Ok tt))
         (post := skipn 7 (trace happy (setup daemonInputs dist)));
    [discriminate | vm_compute; reflexivity | reflexivity].
Defined.

Lemma C9_witness :
  upload (withSkipPush "True" daemonInputs) dist =
  upload (withSkipPush "false" daemonInputs) dist /\
  (forall w, execSucceeds w ->
     useCalls
       (trace w (setup (withSkipAddingSubstituter "yes" daemonInputs) dist)) =
     name daemonInputs :: extraUses daemonInputs).
Proof.
  split.
  - apply (@C9_flags_compare_with_true daemonInputs dist "True").
    discriminate.
  - apply (@C9_flags_compare_with_true daemonInputs dist "yes").
    discriminate.
Defined.

Lemma C10_witness :
  In ""%string (useCalls (trace happy (setup anonymousInputs dist))).
Proof.
  apply (@C10_empty_segment_registered happy anonymousInputs dist).
  - exact happy_execSucceeds.
  - discriminate.
  - exists ""%string. split; [vm_compute; right; left|]; reflexivity.
Defined.

(** * Further properties of the action *)

(** ** The upload step as a whole *)

Lemma tryCatch_report_returns (w : World) (p : Prog unit) (h : Trace) :
  snd (run w (tryCatch p reportFailure) h) = Ok tt.
Proof.
  rewrite run_tryCatch. destruct (run w p h) as [h' [[]|e]]; reflexivity.
Qed.

Lemma upload_unfold (i : Inputs) (dn : string) :
  upload i dn =
  (emit (StartGroup "Cachix: push") ;;
   tryCatch (uploadBody i dn) reportFailure ;;
   emit EndGroup)%prog.
Proof. reflexivity. Qed.

Lemma upload_body_no_group_mark (i : Inputs) (dn : string) :
  emitsOnly (fun ev => isGroupMark ev = false)
    (tryCatch (uploadBody i dn) reportFailure).
Proof. unfold uploadBody. unfold_action. emits; reflexivity. Qed.

(** What a program adds to the trace, when every event it can emit
    satisfies [P]. *)
Lemma emitsOnly_suffix {A : Type} (P : Event -> Prop) (w : World)
      (p : Prog A) :
  emitsOnly P p ->
  forall h, exists t, fst (run w p h) = h ++ t /\ Forall P t.
Proof.
  induction p as [a|e|o k IH|X c k IH|X c k IH]; cbn [emitsOnly run];
    intros Hp h.
  - exists []. now rewrite app_nil_r.
  - exists []. now rewrite app_nil_r.
  - destruct Hp as [Ho Hk]. destruct (IH Hk (h ++ [Out o])) as (t & E & Ht).
    exists (Out o :: t). rewrite E, <- app_assoc. auto.
  - destruct (Hp (w X h c)) as [Hc Hk].
    destruct (IH _ Hk (h ++ [Did c (w X h c)])) as (t & E & Ht).
    exists (Did c (w X h c) :: t). rewrite E, <- app_assoc. auto.
  - destruct Hp as [Hc Hk].
    destruct (IH Hk (h ++ [Floated c (w _ h c)])) as (t & E & Ht).
    exists (Floated c (w _ h c) :: t). rewrite E, <- app_assoc. auto.
Qed.

Lemma upload_outcome (w : World) (i : Inputs) (dn : string) :
  outcome w (upload i dn) = Ok tt.
Proof.
  unfold outcome. rewrite upload_unfold. unfold emit.
  cbn [bind run app]. rewrite run_bind.
  pose proof (tryCatch_report_returns w (uploadBody i dn)
                [Out (StartGroup "Cachix: push")]) as Hr.
  destruct (run w (tryCatch (uploadBody i dn) reportFailure) _) as [h' r].
  cbn [snd] in Hr. subst r. reflexivity.
Qed.

Ltac mid_of l :=
  lazymatch l with
  | Out EndGroup :: _ => constr:(@nil Event)
  | ?x :: ?l' => let m := mid_of l' in constr:(x :: m)
  end.

Ltac group_case :=
  unfold sync, await, call, emit, reportFailure;
  cbn [bind run tryCatch app fst existsb isListen orb];
  lazymatch goal with
  | |- exists mid, Out (StartGroup _) :: ?l = _ /\ _ =>
      let m := mid_of l in exists m
  end;
  split; [reflexivity|];
  split; [reflexivity|];
  let H := fresh in
  intros H;
  first [discriminate H | split; [assumption | reflexivity]].

(** Whatever happens inside, [upload] returns normally, having opened
    its log group first and closed it once, with no other group in
    between.  Nothing follows the end of the group but the lines of the
    daemon log that the tail forwards: they are printed outside the group,
    and only when the tail was stopped inside it, which happens in daemon
    mode with pushing enabled only. *)
Theorem upload_group_closed_before_log
        (w : World) (i : Inputs) (dn : string) (lines : list string) :
  outcome w (upload i dn) = Ok tt /\
  exists mid,
    uploadProcess w i dn lines =
    Out (StartGroup "Cachix: push") :: mid
    ++ Out EndGroup
       :: (if existsb isUnwatch mid
           then map (fun line => Out (Info line)) lines else []) /\
    existsb isGroupMark mid = false /\
    (existsb isUnwatch mid = true ->
     useDaemon i = "true"%string /\ pushEnabled i = true).
Proof.
  split; [apply upload_outcome|].
  unfold uploadProcess, forwarded, pushEnabled, trace, upload.
  destruct (skipPush i =? "true")%string;
    [group_case|].
  destruct (negb (signingKey i =? "")%string
            || negb (authToken i =? "")%string)%bool;
    [|group_case].
  destruct (String.eqb_spec (useDaemon i) "true") as [Hd|Hd].
  - unfold stopDaemon. unfold sync, await, call, emit, reportFailure.
    cbn [bind run tryCatch app fst].
    match goal with
    | |- context [w ?X ?h (ReadFile ?p ?enc)] =>
        destruct (w X h (ReadFile p enc)) as [content|e]
    end; cbn [bind run tryCatch app fst];
      [|group_case].
    match goal with
    | |- context [w ?X ?h (NewTail ?p ?b)] =>
        destruct (w X h (NewTail p b)) as [[]|e]
    end; cbn [bind run tryCatch app fst];
      [|group_case].
    match goal with
    | |- context [w ?X ?h (Kill ?p ?sg)] =>
        destruct (w X h (Kill p sg)) as [[]|e]
    end; cbn [bind run tryCatch app fst];
      group_case.
  - unfold pushPaths, await, emit, reportFailure.
    cbn [bind run tryCatch app fst].
    match goal with
    | |- context [w ?X ?h (Exec ?a ?b)] =>
        destruct (w X h (Exec a b)) as [[]|e]
    end; cbn [bind run tryCatch app fst];
      group_case.
Qed.

(** In direct mode with pushing enabled, [upload] makes exactly one call:
    the push helper with the client name, [cachixArgs], [name],
    [pathsToPush] and [pushFilter] in this order (empty inputs are passed
    as empty arguments); its failure gives one annotation, and the group
    is closed either way. *)
Theorem upload_direct_trace (w : World) (i : Inputs) (dn : string) :
  pushEnabled i = true ->
  useDaemon i <> "true"%string ->
  trace w (upload i dn) =
  Out (StartGroup "Cachix: push")
  :: Did (pushHelperCall i dn)
         (w _ [Out (StartGroup "Cachix: push")] (pushHelperCall i dn))
  :: annotationOf (w _ [Out (StartGroup "Cachix: push")]
                     (pushHelperCall i dn))
  ++ [Out EndGroup].
Proof.
  unfold pushEnabled. intros He Hd. apply String.eqb_neq in Hd.
  apply andb_prop in He as [Hs Hc]. apply negb_true_iff in Hs.
  unfold trace, upload, pushPaths, pushHelperCall. rewrite Hs, Hc, Hd.
  unfold emit, await, reportFailure. cbn [bind run tryCatch app].
  destruct (w _ _ _) as [[]|e]; reflexivity.
Qed.

Lemma upload_direct_trace_witness :
  trace happy (upload exampleInputs dist) =
  [Out (StartGroup "Cachix: push");
   Did (pushHelperCall exampleInputs dist) (Ok tt);
   Out EndGroup].
Proof.
  apply (@upload_direct_trace happy exampleInputs dist);
    [reflexivity | discriminate].
Defined.

(** In daemon mode with pushing enabled, [upload] either fails before
    signalling (reading the pid file or opening the log tail failed: one
    annotation, no signal, the tail never stopped), or sends exactly one
    [SIGINT] to the process id parsed from the pid file; then, whether or
    not the signal could be delivered, there is no annotation and the tail
    is stopped. *)
Theorem upload_daemon_signal (w : World) (i : Inputs) (dn : string) :
  pushEnabled i = true ->
  useDaemon i = "true"%string ->
  let t := trace w (upload i dn) in
  (pick killOf t = [] /\ length (pick failureOf t) = 1
   /\ existsb isUnwatch t = false) \/
  (exists content,
     pick readContent t = [content]
     /\ pick killOf t = [(Js.parseInt content, "SIGINT"%string)]
     /\ pick failureOf t = []
     /\ existsb isUnwatch t = true).
Proof.
  unfold pushEnabled. intros He Hd. apply String.eqb_eq in Hd.
  apply andb_prop in He as [Hs Hc]. apply negb_true_iff in Hs.
  cbv zeta. unfold trace, upload, stopDaemon. rewrite Hs, Hc, Hd.
  unfold sync, await, call, emit, reportFailure.
  cbn [bind run tryCatch app].
  match goal with
  | |- context [w ?X ?h (ReadFile ?p ?enc)] =>
      destruct (w X h (ReadFile p enc)) as [content|e]
  end; cbn [bind run tryCatch app]; [|left; repeat split].
  match goal with
  | |- context [w ?X ?h (NewTail ?p ?b)] =>
      destruct (w X h (NewTail p b)) as [[]|e]
  end; cbn [bind run tryCatch app]; [|left; repeat split].
  right. exists content.
  match goal with
  | |- context [w ?X ?h (Kill ?p ?sg)] =>
      destruct (w X h (Kill p sg)) as [[]|e]
  end; cbn [bind run tryCatch app]; repeat split.
Qed.

Lemma upload_daemon_signal_witness :
  (pick killOf (trace happy (upload daemonInputs dist)) = [] /\
   length (pick failureOf (trace happy (upload daemonInputs dist))) = 1 /\
   existsb isUnwatch (trace happy (upload daemonInputs dist)) = false) \/
  (exists content,
     pick readContent (trace happy (upload daemonInputs dist)) = [content]
     /\ pick killOf (trace happy (upload daemonInputs dist)) =
        [(Js.parseInt content, "SIGINT"%string)]
     /\ pick failureOf (trace happy (upload daemonInputs dist)) = []
     /\ existsb isUnwatch (trace happy (upload daemonInputs dist)) = true).
Proof.
  exact (@upload_daemon_signal happy daemonInputs dist eq_refl eq_refl).
Defined.

(** ** The process id survives the pid file *)

Lemma digitValue_decimal :
  Js.digitValue 10 "0" = Some 0%Z /\ Js.digitValue 10 "1" = Some 1%Z /\
  Js.digitValue 10 "2" = Some 2%Z /\ Js.digitValue 10 "3" = Some 3%Z /\
  Js.digitValue 10 "4" = Some 4%Z /\ Js.digitValue 10 "5" = Some 5%Z /\
  Js.digitValue 10 "6" = Some 6%Z /\ Js.digitValue 10 "7" = Some 7%Z /\
  Js.digitValue 10 "8" = Some 8%Z /\ Js.digitValue 10 "9" = Some 9%Z.
Proof. repeat split. Qed.

Ltac digit_step :=
  cbn [Js.digits NilEmpty.string_of_uint Pos.of_uint_acc Pos.of_uint];
  destruct digitValue_decimal
    as (E0 & E1 & E2 & E3 & E4 & E5 & E6 & E7 & E8 & E9);
  rewrite ?E0, ?E1, ?E2, ?E3, ?E4, ?E5, ?E6, ?E7, ?E8, ?E9.

Lemma digits_acc (d : Decimal.uint) (acc : positive) :
  Js.digits 10 (Some (Zpos acc)) (NilEmpty.string_of_uint d) =
  Some (Zpos (Pos.of_uint_acc d acc)).
Proof.
  revert acc. induction d; intros acc; digit_step; [reflexivity|..];
    rewrite <- IHd; do 2 f_equal; lia.
Qed.

Lemma digits_zero (d : Decimal.uint) :
  Js.digits 10 (Some 0%Z) (NilEmpty.string_of_uint d) =
  Some (Z.of_N (Pos.of_uint d)).
Proof.
  induction d; digit_step; [reflexivity|..];
    first [exact IHd | apply digits_acc].
Qed.

Lemma digits_uint (d : Decimal.uint) :
  d <> Decimal.Nil ->
  Js.digits 10 None (NilEmpty.string_of_uint d) =
  Some (Z.of_N (Pos.of_uint d)).
Proof.
  destruct d; intros H; [contradiction|..]; digit_step;
    first [apply digits_zero | apply digits_acc].
Qed.

(** A decimal numeral starts with a digit: it is neither trimmed, nor
    signed, nor taken for a hexadecimal literal. *)
Lemma parseInt_uint (d : Decimal.uint) :
  d <> Decimal.Nil ->
  Js.parseInt (NilEmpty.string_of_uint d) =
  Js.Int (Z.of_N (Pos.of_uint d)).
Proof.
  intros H. pose proof (digits_uint H) as E. unfold Js.parseInt.
  destruct d as [|d|d|d|d|d|d|d|d|d|d]; [contradiction|..];
    try (cbn [NilEmpty.string_of_uint Js.trimStart] in *;
         change (Js.isWhiteSpace _) with false; cbv iota;
         rewrite E; f_equal; lia).
  destruct d; cbn [NilEmpty.string_of_uint Js.trimStart] in *;
    change (Js.isWhiteSpace "0") with false; cbv iota;
    rewrite E; f_equal; lia.
Qed.

Lemma parseInt_neg_uint (d : Decimal.uint) :
  d <> Decimal.Nil ->
  Js.parseInt (String "-" (NilEmpty.string_of_uint d)) =
  Js.Int (- Z.of_N (Pos.of_uint d)).
Proof.
  intros H. pose proof (digits_uint H) as E. unfold Js.parseInt.
  cbn [Js.trimStart]. change (Js.isWhiteSpace "-") with false. cbv iota.
  destruct d as [|d|d|d|d|d|d|d|d|d|d]; [contradiction|..];
    try (cbn [NilEmpty.string_of_uint] in *; cbv iota;
         rewrite E; f_equal; lia).
  destruct d; cbn [NilEmpty.string_of_uint] in *; cbv iota;
    rewrite E; f_equal; lia.
Qed.

(** [parseInt] reads back every integer from its decimal text. *)
Lemma parseInt_numberToString (z : Z) :
  Js.parseInt (Js.numberToString (Js.Int z)) = Js.Int z.
Proof.
  unfold Js.numberToString, NilZero.string_of_int, Z.to_int.
  destruct z as [|p|p]; [reflexivity|..];
    pose proof (DecimalPos.Unsigned.to_uint_nonnil p) as Hn;
    pose proof (DecimalPos.Unsigned.of_to p) as Hp;
    unfold NilZero.string_of_uint;
    destruct (Pos.to_uint p) eqn:E; try contradiction;
    rewrite <- E in *.
  all: first [rewrite parseInt_uint by exact Hn
             |rewrite parseInt_neg_uint by exact Hn];
    rewrite Hp; reflexivity.
Qed.

(** ** What an exported daemon directory stands for *)

(** Running from history [h] is running from scratch in the world shifted
    by [h]. *)
Lemma run_shift {A : Type} (w : World) (p : Prog A) (h h0 : Trace) :
  run w p (h ++ h0) =
  (h ++ fst (run (shift w h) p h0), snd (run (shift w h) p h0)).
Proof.
  revert h0. induction p as [a|e|o k IH|X c k IH|X c k IH]; intros h0;
    cbn [run fst snd]; try reflexivity.
  - rewrite <- app_assoc. apply IH.
  - unfold shift at 1 3 4. rewrite <- app_assoc. apply IH.
  - unfold shift at 1 3. rewrite <- app_assoc. apply IH.
Qed.

Lemma exported_app (k : string) (h t : Trace) :
  exported k (h ++ t) =
  match exported k t with
  | Some v => Some v
  | None => exported k h
  end.
Proof.
  induction h as [|ev h IH]; cbn [app exported].
  - now destruct (exported k t).
  - rewrite IH. now destruct (exported k t).
Qed.

Lemma started_not_exported {Y : Type} (c : Cmd Y) (v : string) :
  match c with
  | Chmod p mode => Some (Chmodded p mode)
  | _ => None
  end <> Some (Exported v).
Proof. destruct c; discriminate. Qed.

Lemma exported_lastExported (t : Trace) :
  exported ENV_CACHIX_DAEMON_DIR t = lastExported (pick daemonFact t).
Proof.
  induction t as [|ev t IH]; cbn [pick exported]; [reflexivity|].
  rewrite IH.
  destruct ev as [o|X c x|X c r].
  - destruct o; cbn [daemonFact exportOf lastExported];
      try (destruct (lastExported (pick daemonFact t)); reflexivity).
    destruct (key =? ENV_CACHIX_DAEMON_DIR)%string; cbn [lastExported];
      destruct (lastExported (pick daemonFact t)); reflexivity.
  - destruct c; try (destruct x); cbn [daemonFact exportOf lastExported];
      destruct (lastExported (pick daemonFact t)); reflexivity.
  - cbn [exportOf].
    pose proof (started_not_exported c) as Hc.
    change (daemonFact (Floated c r))
      with (match c with
            | Chmod p mode => Some (Chmodded p mode)
            | _ => None
            end).
    destruct (match c with
              | Chmod p mode => Some (Chmodded p mode)
              | _ => None
              end) as [f|]; cbn [lastExported];
      destruct (lastExported (pick daemonFact t)); try reflexivity.
    destruct f; try reflexivity. now contradiction (Hc dir).
Qed.

Lemma emitsOnly_impl {A : Type} (P Q : Event -> Prop) (p : Prog A) :
  (forall ev, P ev -> Q ev) -> emitsOnly P p -> emitsOnly Q p.
Proof.
  intros HPQ. induction p as [a|e|o k IH|X c k IH|X c k IH];
    cbn [emitsOnly]; auto.
  - intros [? ?]; auto.
  - intros H x. destruct (H x); auto.
  - intros [? ?]; auto.
Qed.

(** Everything before the mode branch is free of daemon facts and of
    annotations. *)
Lemma setup_prefix_plain (i : Inputs) :
  emitsOnly (fun ev => daemonFact ev = None /\ failureOf ev = None)
    (setupPrefix i).
Proof. unfold setupPrefix. unfold_action. emits; split; reflexivity. Qed.

Lemma rememberStorePaths_plain (dn : string) :
  emitsOnly (fun ev => daemonFact ev = None /\ failureOf ev = None)
    (rememberStorePaths dn).
Proof. unfold_action. emits; split; reflexivity. Qed.

(** A run of the daemon branch from scratch: it returns only after the
    whole sequence, and exports nothing otherwise. *)
Lemma startDaemon_from_scratch (w : World) (i : Inputs) :
  match run w (startDaemon i) [] with
  | (t, Ok _) =>
      pick failureOf t = [] /\
      exists d pid cachix home home',
        pick daemonFact t = daemonStarted i d pid cachix home home'
  | (t, Rejected _) =>
      pick failureOf t = [] /\
      exported ENV_CACHIX_DAEMON_DIR t = None
  end.
Proof.
  unfold startDaemon. unfold_action. cbn [bind run app].
  destruct (truthy _); cbn [bind run app].
  all: match goal with
       | |- context [?W ?X ?h (Mkdtemp ?a ?b)] =>
           destruct (W X h (Mkdtemp a b)) as [d|e]
       end; cbn [bind run app]; [|split; reflexivity].
  all: match goal with
       | |- context [?W ?X ?h (OpenSync ?a ?b)] =>
           destruct (W X h (OpenSync a b)) as [fd|e]
       end; cbn [bind run app]; [|split; reflexivity].
  all: match goal with
       | |- context [?W ?X ?h (Spawn ?a ?b ?c ?d)] =>
           destruct (W X h (Spawn a b c d)) as [pid|e]
       end; cbn [bind run app]; [|split; reflexivity].
  all: destruct pid as [p|]; cbn [bind run app].
  all: try match goal with
       | |- context [?W ?X ?h (WriteFile ?a ?b)] =>
           destruct (W X h (WriteFile a b)) as [[]|e]
       end; cbn [bind run app]; try (split; reflexivity).
  all: match goal with
       | |- context [?W ?X ?h (WhichSync ?a)] =>
           destruct (W X h (WhichSync a)) as [cachix|e]
       end; cbn [bind run app]; [|split; reflexivity].
  all: match goal with
       | |- context [?W ?X ?h (WriteFile ?a (postBuildHookScript ?b ?c ?n))] =>
           destruct (W X h (WriteFile a (postBuildHookScript b c n)))
             as [[]|e]
       end; cbn [bind run app]; [|split; reflexivity].
  all: match goal with
       | |- context [?W ?X ?h (Mkdir ?a ?b)] =>
           destruct (W X h (Mkdir a b)) as [[]|e]
       end; cbn [bind run app]; [|split; reflexivity].
  all: match goal with
       | |- context [?W ?X ?h (OpenSync ?a ?b)] =>
           destruct (W X h (OpenSync a b)) as [fd'|e]
       end; cbn [bind run app]; [|split; reflexivity].
  all: match goal with
       | |- context [?W ?X ?h (WriteSync ?a ?b)] =>
           destruct (W X h (WriteSync a b)) as [[]|e]
       end; cbn [bind run app]; [|split; reflexivity].
  all: split; [reflexivity|];
    cbn [pick daemonFact String.eqb Ascii.eqb Bool.eqb
         ENV_CACHIX_DAEMON_DIR];
    first [exists d, (Some p), cachix | exists d, None, cachix];
    do 2 eexists; reflexivity.
Qed.

Lemma lastExported_app (a b : list DaemonFact) :
  lastExported (a ++ b) =
  match lastExported b with
  | Some v => Some v
  | None => lastExported a
  end.
Proof.
  induction a as [|f a IH]; cbn [app lastExported].
  - now destruct (lastExported b).
  - rewrite IH. now destruct (lastExported b).
Qed.

Lemma setup_split (w : World) (i : Inputs) (dn : string) (h : Trace) :
  run w (setup i dn) h =
  match run w (setupPrefix i) h with
  | (h', Ok _) =>
      match run w (setupBranch i dn) h' with
      | (h'', Ok _) => (h'', Ok tt)
      | (h'', Rejected e) => run w (reportFailure e) h''
      end
  | (h', Rejected e) => run w (reportFailure e) h'
  end.
Proof.
  unfold setup, setupPrefix, setupBranch. rewrite run_tryCatch.
  do 5 (rewrite (run_bind w _ _ h); rewrite (run_bind w _ _ h);
        match goal with
        | |- context [run w ?p h] => destruct (run w p h) as [h1 [[]|e]]
        end; [clear h; rename h1 into h | reflexivity]).
  rewrite run_bind.
  destruct (run w (exportSigningKey i) h) as [h1 [[]|e]]; [|reflexivity].
  destruct (run w _ h1) as [h2 [[]|e]]; reflexivity.
Qed.

Lemma Forall_pick_nil {B : Type} (f : Event -> option B) (t : Trace) :
  Forall (fun ev => f ev = None) t -> pick f t = [].
Proof.
  induction 1 as [|ev t Hev _ IH]; cbn [pick]; [reflexivity|].
  now rewrite Hev.
Qed.

Lemma plain_picks {A : Type} (w : World) (p : Prog A) (h : Trace) :
  emitsOnly (fun ev => daemonFact ev = None /\ failureOf ev = None) p ->
  pick daemonFact (fst (run w p h)) = pick daemonFact h /\
  pick failureOf (fst (run w p h)) = pick failureOf h.
Proof.
  intros Hp. split; apply emitsOnly_pick;
    (eapply emitsOnly_impl; [|exact Hp]); intros ev [? ?]; assumption.
Qed.

(** If [setup] exported the daemon directory [d], it made no failure
    annotation and its daemon facts are those of a start-up in [d]. *)
Lemma setup_export_facts (w : World) (i : Inputs) (dn d : string) :
  exported ENV_CACHIX_DAEMON_DIR (trace w (setup i dn)) = Some d ->
  pick failureOf (trace w (setup i dn)) = [] /\
  exists pid cachix home home',
    pick daemonFact (trace w (setup i dn)) =
    daemonStarted i d pid cachix home home'.
Proof.
  unfold trace. rewrite setup_split, exported_lastExported.
  destruct (@plain_picks _ w _ [] (setup_prefix_plain i)) as [F1 A1].
  destruct (run w (setupPrefix i) []) as [h1 [[]|e1]]; cbn [fst] in F1, A1.
  2:{ unfold reportFailure, emit. cbn [run fst].
      rewrite pick_app, F1. discriminate. }
  unfold setupBranch. destruct (useDaemon i =? "true")%string.
  - replace (run w (startDaemon i) h1)
      with (run w (startDaemon i) (h1 ++ [])) by now rewrite app_nil_r.
    rewrite run_shift.
    pose proof (startDaemon_from_scratch (shift w h1) i) as Hs.
    destruct (run (shift w h1) (startDaemon i) []) as [t [[]|e]];
      cbn [fst snd].
    + destruct Hs as (At & d' & pid & cachix & home & home' & Ft).
      rewrite !pick_app, F1, A1, At, Ft. cbn [app].
      intros Hd. split; [reflexivity|]. exists pid, cachix, home, home'.
      destruct pid; cbn in Hd; injection Hd as <-; reflexivity.
    + destruct Hs as [At Et]. unfold reportFailure, emit. cbn [run fst].
      rewrite exported_lastExported in Et.
      rewrite !pick_app, !lastExported_app, F1, Et. discriminate.
  - destruct (@plain_picks _ w _ h1 (rememberStorePaths_plain dn)) as [F2 A2].
    destruct (run w (rememberStorePaths dn) h1) as [h2 [[]|e2]];
      cbn [fst] in F2, A2.
    + cbn [fst]. rewrite F2, F1. discriminate.
    + unfold reportFailure, emit. cbn [run fst].
      rewrite pick_app, F2, F1. discriminate.
Qed.

(** ** The daemon start-up, event by event *)

(** Nothing before the mode branch is a daemon step or an annotation. *)
Lemma setup_prefix_no_daemon_step (i : Inputs) :
  emitsOnly (fun ev => isDaemonStep ev = false /\ failureOf ev = None)
    (setupPrefix i).
Proof. unfold setupPrefix. unfold_action. emits; split; reflexivity. Qed.

(** A run of the daemon branch from scratch: when it returns, its trace is
    the start-up sequence; when it fails, nothing was exported. *)
Lemma startDaemon_exact (w : World) (i : Inputs) :
  match run w (startDaemon i) [] with
  | (t, Ok _) =>
      exists runnerTemp tmp d logFd pid cachix chmod home home' confFd closed,
        t = startTrace i runnerTemp tmp d logFd pid cachix chmod
              home home' confFd closed
  | (t, Rejected _) =>
      pick failureOf t = [] /\ exported ENV_CACHIX_DAEMON_DIR t = None
  end.
Proof.
  unfold startDaemon. unfold_action. cbn [bind run app].
  destruct (w _ [] (GetEnv "RUNNER_TEMP")) as [[|c0 s0]|] eqn:Ert;
    cbn [truthy String.eqb negb bind run app Js.show].
  all: match goal with
       | |- context [?W ?X ?h (Mkdtemp ?a ?b)] =>
           destruct (W X h (Mkdtemp a b)) as [d|e]
       end; cbn [bind run app]; [|split; reflexivity].
  all: match goal with
       | |- context [?W ?X ?h (OpenSync ?a ?b)] =>
           destruct (W X h (OpenSync a b)) as [fd|e]
       end; cbn [bind run app]; [|split; reflexivity].
  all: match goal with
       | |- context [?W ?X ?h (Spawn ?a ?b ?c ?d)] =>
           destruct (W X h (Spawn a b c d)) as [pid|e]
       end; cbn [bind run app]; [|split; reflexivity].
  all: destruct pid as [p|]; cbn [bind run app].
  all: try match goal with
       | |- context [?W ?X ?h (WriteFile ?a (Js.numberToString ?b))] =>
           destruct (W X h (WriteFile a (Js.numberToString b))) as [[]|e];
           cbn [bind run app]; [|split; reflexivity]
       end.
  all: match goal with
       | |- context [?W ?X ?h (WhichSync ?a)] =>
           destruct (W X h (WhichSync a)) as [cachix|e]
       end; cbn [bind run app]; [|split; reflexivity].
  all: match goal with
       | |- context [?W ?X ?h (WriteFile ?a (postBuildHookScript ?b ?c ?n))] =>
           destruct (W X h (WriteFile a (postBuildHookScript b c n)))
             as [[]|e]
       end; cbn [bind run app]; [|split; reflexivity].
  all: match goal with
       | |- context [?W ?X ?h (Mkdir ?a ?b)] =>
           destruct (W X h (Mkdir a b)) as [[]|e]
       end; cbn [bind run app]; [|split; reflexivity].
  all: match goal with
       | |- context [?W ?X ?h (OpenSync ?a ?b)] =>
           destruct (W X h (OpenSync a b)) as [fd'|e]
       end; cbn [bind run app]; [|split; reflexivity].
  all: match goal with
       | |- context [?W ?X ?h (WriteSync ?a ?b)] =>
           destruct (W X h (WriteSync a b)) as [[]|e]
       end; cbn [bind run app]; [|split; reflexivity].
  all: match goal with
       | |- exists runnerTemp, _ =>
           match goal with
           | |- context [Did (GetEnv "RUNNER_TEMP") ?rt] => exists rt
           end
       end.
  all: first
         [ match goal with
           | |- context [Did OsTmpdir ?tmp] => exists tmp
           end
         | exists ""%string ].
  all: exists d, fd.
  all: first [exists (Some p) | exists None].
  all: exists cachix.
  all: match goal with
       | |- context [Floated (Chmod _ _) ?r] => exists r
       end.
  all: match goal with
       | |- context [Did (GetEnv "HOME") ?hm
                     :: Did (Mkdir _ _) _ :: Did (GetEnv "HOME") ?hm' :: _] =>
           exists hm, hm'
       end.
  all: exists fd'.
  all: match goal with
       | |- context [Floated (Close _) ?r] => exists r
       end.
  all: reflexivity.
Qed.

Lemma exported_no_daemon_step (t : Trace) :
  Forall (fun ev => isDaemonStep ev = false) t ->
  exported ENV_CACHIX_DAEMON_DIR t = None.
Proof.
  induction 1 as [|ev t Hev _ IH]; cbn [exported]; [reflexivity|].
  rewrite IH. destruct ev as [o|X c x|X c r]; try reflexivity.
  destruct o; try reflexivity. cbn [exportOf isDaemonStep] in *.
  now rewrite Hev.
Qed.

Lemma startTrace_exported (i : Inputs) (rt : option string) (tmp d : string)
      (logFd : Z) (pid : option Z) (cachix : string) (chmod : result unit)
      (home home' : option string) (confFd : Z) (closed : result unit) :
  exported ENV_CACHIX_DAEMON_DIR
    (startTrace i rt tmp d logFd pid cachix chmod home home' confFd closed)
  = Some d /\
  pick failureOf
    (startTrace i rt tmp d logFd pid cachix chmod home home' confFd closed)
  = [] /\
  pick spawnArgs
    (startTrace i rt tmp d logFd pid cachix chmod home home' confFd closed)
  = [["daemon"; "run"; "--socket"; d ++ "/daemon.sock"]%string] /\
  pick spawnedPid
    (startTrace i rt tmp d logFd pid cachix chmod home home' confFd closed)
  = match pid with Some p => [p] | None => [] end /\
  In ((d ++ "/cachix-post-build-hook.sh")%string,
      postBuildHookScript cachix d (name i))
     (pick writtenFile
        (startTrace i rt tmp d logFd pid cachix chmod home home' confFd
           closed)).
Proof.
  unfold startTrace. destruct (truthy rt), pid; cbn [app].
  all: do 4 (split; [reflexivity|]).
  all: cbn [pick writtenFile In]; auto.
Qed.

(** A daemon-mode [setup] either goes through the start-up sequence after
    steps that are no daemon steps, or fails, with an annotation and
    nothing exported. *)
Lemma setup_daemon_run (w : World) (i : Inputs) (dn : string) :
  useDaemon i = "true"%string ->
  (exists pre runnerTemp tmp d logFd pid cachix chmod home home' confFd
          closed,
     trace w (setup i dn) =
     pre ++ startTrace i runnerTemp tmp d logFd pid cachix chmod
              home home' confFd closed /\
     Forall (fun ev => isDaemonStep ev = false /\ failureOf ev = None) pre)
  \/ (pick failureOf (trace w (setup i dn)) <> [] /\
      exported ENV_CACHIX_DAEMON_DIR (trace w (setup i dn)) = None).
Proof.
  intros Hd. apply String.eqb_eq in Hd.
  unfold trace. rewrite setup_split.
  destruct (@emitsOnly_suffix _ _ w _ (setup_prefix_no_daemon_step i) [])
    as (pre & E & Hpre).
  cbn [app] in E.
  assert (Hx : exported ENV_CACHIX_DAEMON_DIR pre = None).
  { apply exported_no_daemon_step.
    eapply Forall_impl; [|exact Hpre]. now intros ev [? _]. }
  destruct (run w (setupPrefix i) []) as [h1 [[]|e1]]; cbn [fst] in E;
    subst h1.
  2:{ right. unfold reportFailure, emit. cbn [run fst]. split.
      - rewrite pick_app. cbn [pick failureOf].
        destruct (pick failureOf pre); discriminate.
      - now rewrite exported_app. }
  unfold setupBranch. rewrite Hd.
  replace (run w (startDaemon i) pre)
    with (run w (startDaemon i) (pre ++ [])) by now rewrite app_nil_r.
  rewrite run_shift.
  pose proof (startDaemon_exact (shift w pre) i) as Hs.
  destruct (run (shift w pre) (startDaemon i) []) as [t [[]|e]];
    cbn [fst snd].
  - left. destruct Hs as (rt & tmp & d & logFd & pid & cachix & chmod & home
                          & home' & confFd & closed & ->).
    exists pre, rt, tmp, d, logFd, pid, cachix, chmod, home, home', confFd,
      closed.
    split; [reflexivity | exact Hpre].
  - right. destruct Hs as [At Et]. unfold reportFailure, emit.
    cbn [run fst]. split.
    + rewrite pick_app. cbn [pick failureOf].
      destruct (pick failureOf (pre ++ t)); discriminate.
    + rewrite exported_app. cbn [exported exportOf].
      now rewrite exported_app, Et.
Qed.

(** If [setup] exported the daemon directory [d] in a run that Node
    carries to its end (nothing fatal happened) and in which the process
    id is a safe integer, then no failure was annotated and the trace is:
    steps that are no daemon steps, followed by exactly the start-up
    sequence in [d], from the lookup of [RUNNER_TEMP] to [unref].  In
    particular the daemon writes to the descriptor opened on
    [d/daemon.log], the pid file holds the process id in decimal, and the
    hook line is written to the descriptor opened on [nix.conf], which is
    then closed. *)
Theorem setup_export_means_started (w : World) (i : Inputs) (dn d : string) :
  exported ENV_CACHIX_DAEMON_DIR (trace w (setup i dn)) = Some d ->
  existsb fatal (trace w (setup i dn)) = false ->
  Forall safeInteger (pick spawnedPid (trace w (setup i dn))) ->
  pick failureOf (trace w (setup i dn)) = [] /\
  exists pre runnerTemp tmp logFd p cachix home home' confFd,
    trace w (setup i dn) =
    pre ++ startTrace i runnerTemp tmp d logFd (Some p) cachix (Ok tt)
             home home' confFd (Ok tt) /\
    Forall (fun ev => isDaemonStep ev = false) pre /\
    safeInteger p.
Proof.
  intros Hexp Hfatal Hpid.
  destruct (String.eqb_spec (useDaemon i) "true") as [Hd|Hd].
  2:{ destruct (direct_mode_no_daemon_step i dn Hd) as [Hs _].
      pose proof (@emitsOnly_Forall _ _ w _ [] Hs (Forall_nil _)) as Hn.
      apply exported_no_daemon_step in Hn. unfold trace in Hexp.
      rewrite Hn in Hexp. discriminate. }
  destruct (setup_daemon_run w i dn Hd)
    as [(pre & rt & tmp & d' & logFd & pid & cachix & chmod & home & home'
         & confFd & closed & E & Hpre)|[_ Hn]];
    [|rewrite Hn in Hexp; discriminate].
  rewrite E in *.
  destruct (startTrace_exported i rt tmp d' logFd pid cachix chmod home home'
              confFd closed) as (Se & Sf & _ & Sp & _).
  rewrite exported_app, Se in Hexp. injection Hexp as ->.
  rewrite pick_app, Sp in Hpid. apply Forall_app in Hpid as [_ Hpid].
  rewrite existsb_app in Hfatal. apply orb_false_elim in Hfatal as [_ Hfatal].
  assert (Hok : exists p, pid = Some p /\ chmod = Ok tt /\ closed = Ok tt).
  { unfold startTrace in Hfatal.
    destruct (truthy rt), pid as [p|], chmod as [[]|e1], closed as [[]|e2];
      cbn in Hfatal; try discriminate; eauto. }
  destruct Hok as (p & -> & -> & ->). split.
  - rewrite pick_app, Sf, app_nil_r. apply Forall_pick_nil.
    eapply Forall_impl; [|exact Hpre]. now intros ev [_ ?].
  - exists pre, rt, tmp, logFd, p, cachix, home, home', confFd.
    split; [reflexivity|]. split.
    + eapply Forall_impl; [|exact Hpre]. now intros ev [? _].
    + now inversion Hpid.
Qed.

Lemma setup_export_means_started_witness :
  pick failureOf (trace happy (setup daemonInputs dist)) = [].
Proof.
  refine (proj1 (@setup_export_means_started happy daemonInputs dist
                   "/tmp/cachix-daemon-Ab12" _ _ _)).
  - vm_compute. reflexivity.
  - vm_compute. reflexivity.
  - replace (pick spawnedPid (trace happy (setup daemonInputs dist)))
      with [4242%Z] by (vm_compute; reflexivity).
    constructor; [|constructor]. split; [discriminate | reflexivity].
Defined.

(** ** The hook names the socket the daemon was spawned on *)

(** C5.  In every run of [setup], whatever was spawned was spawned with
    [--socket d/daemon.sock] for one directory [d], and every file written
    is the pid file in [d] or the hook script in [d], whose content is
    exactly the template filled in with [d] and the [name] input: its
    command line is [exec <client> daemon push --socket d/daemon.sock
    <name> $OUT_PATHS].  And the hook is written: in daemon mode, a run
    without failure annotation that Node carries to its end spawns the
    daemon exactly once and writes the hook script for that same [d]. *)
Theorem C5_hook_matches_spawn (w : World) (i : Inputs) (dn : string) :
  (forall args,
     In args (pick spawnArgs (trace w (setup i dn))) ->
     exists daemonDir,
       args = ["daemon"; "run"; "--socket"; daemonDir ++ "/daemon.sock"]%string
       /\
       forall p data,
         In (p, data) (pick writtenFile (trace w (setup i dn))) ->
         p = (daemonDir ++ "/daemon.pid")%string \/
         (p = (daemonDir ++ "/cachix-post-build-hook.sh")%string /\
          exists cachix,
            data = postBuildHookScript cachix daemonDir (name i) /\
            data = (hookPreamble
                    ++ hookInvocation cachix (daemonDir ++ "/daemon.sock")
                         (name i)
                    ++ Js.nl ++ "     ")%string)) /\
  (useDaemon i = "true"%string ->
   pick failureOf (trace w (setup i dn)) = [] ->
   existsb fatal (trace w (setup i dn)) = false ->
   exists daemonDir cachix,
     pick spawnArgs (trace w (setup i dn)) =
     [["daemon"; "run"; "--socket"; daemonDir ++ "/daemon.sock"]%string] /\
     In ((daemonDir ++ "/cachix-post-build-hook.sh")%string,
         postBuildHookScript cachix daemonDir (name i))
        (pick writtenFile (trace w (setup i dn)))).
Proof.
  split.
  - intros args Hin.
    destruct (setup_oneDaemonDir w i dn) as [H|[dd H]].
    + destruct (pick_In spawnArgs _ H Hin) as (ev & Hq & E).
      destruct ev as [o|X c x|X c r]; try discriminate.
      destruct c; try discriminate. contradiction.
    + exists dd. split.
      * destruct (pick_In spawnArgs _ H Hin) as (ev & Hc & E).
        destruct ev as [o|X c x|X c r]; try discriminate.
        destruct c; try discriminate. injection E as <-. exact Hc.
      * intros p data Hw.
        destruct (pick_In writtenFile _ H Hw) as (ev & Hc & E).
        destruct ev as [o|X c x|X c r]; try discriminate.
        destruct c; try discriminate. injection E as <- <-.
        destruct Hc as [Hc|[Hc [cachix ->]]]; [now left|right].
        split; [exact Hc|]. exists cachix. split; [reflexivity|].
        apply postBuildHookScript_invocation.
  - intros Hd Hf _.
    destruct (setup_daemon_run w i dn Hd)
      as [(pre & rt & tmp & d & logFd & pid & cachix & chmod & home & home'
           & confFd & closed & E & Hpre)|[Hn _]];
      [|contradiction].
    destruct (startTrace_exported i rt tmp d logFd pid cachix chmod home home'
                confFd closed) as (_ & _ & Ss & _ & Sw).
    exists d, cachix. rewrite E, !pick_app, Ss. split.
    + rewrite (@Forall_pick_nil _ spawnArgs pre); [reflexivity|].
      eapply Forall_impl; [|exact Hpre]. intros ev [Hs _].
      destruct ev as [o|X c x|X c r]; try reflexivity.
      destruct c; try reflexivity; discriminate.
    + apply in_or_app. right. exact Sw.
Qed.

Lemma C5_witness :
  exists daemonDir cachix,
    pick spawnArgs (trace happy (setup daemonInputs dist)) =
    [["daemon"; "run"; "--socket"; daemonDir ++ "/daemon.sock"]%string] /\
    In ((daemonDir ++ "/cachix-post-build-hook.sh")%string,
        postBuildHookScript cachix daemonDir (name daemonInputs))
       (pick writtenFile (trace happy (setup daemonInputs dist))).
Proof.
  apply (proj2 (@C5_hook_matches_spawn happy daemonInputs dist));
    vm_compute; reflexivity.
Defined.

(** ** The signal goes to the process that was spawned *)

Lemma wrote_written (t : Trace) (p data : string) :
  In (Wrote p data) (pick daemonFact t) -> In (p, data) (pick writtenFile t).
Proof.
  induction t as [|ev t IH]; cbn [pick]; [contradiction|].
  destruct ev as [o|X c x|X c r].
  - destruct o; cbn [daemonFact writtenFile]; auto.
    destruct (key =? ENV_CACHIX_DAEMON_DIR)%string; auto.
    intros [H|H]; [discriminate | auto].
  - destruct c; try (destruct x); cbn [daemonFact writtenFile]; intros H;
      try match type of H with
          | In _ (_ :: _) =>
              destruct H as [H|H];
              [first [discriminate | injection H as <- <-; now left]|]
          end;
      apply IH in H; first [exact H | right; exact H].
  - cbn [writtenFile].
    pose proof (started_not_exported c) as Hc.
    change (daemonFact (Floated c r))
      with (match c with
            | Chmod p mode => Some (Chmodded p mode)
            | _ => None
            end).
    assert (Hw : forall q dt,
               match c with
               | Chmod p mode => Some (Chmodded p mode)
               | _ => None
               end <> Some (Wrote q dt)) by (intros; destruct c; discriminate).
    destruct (match c with
              | Chmod p mode => Some (Chmodded p mode)
              | _ => None
              end) as [f|]; auto.
    intros [H|H]; auto. subst f. now contradiction (Hw p data).
Qed.

(** The signals [upload] sends when it finds the directory [d] and the
    pid file holds [content]. *)
Lemma upload_kills (w : World) (i : Inputs) (dn d content : string) :
  (forall h, w _ h (GetEnv ENV_CACHIX_DAEMON_DIR) = Some d) ->
  (forall h enc, w _ h (ReadFile (d ++ "/daemon.pid") enc) = Ok content) ->
  pick killOf (trace w (upload i dn)) = [] \/
  pick killOf (trace w (upload i dn)) =
  [(Js.parseInt content, "SIGINT"%string)].
Proof.
  intros Hget Hread. unfold trace, upload.
  destruct (skipPush i =? "true")%string; [left; reflexivity|].
  destruct (negb (signingKey i =? "")%string
            || negb (authToken i =? "")%string)%bool; [|left; reflexivity].
  destruct (useDaemon i =? "true")%string.
  - unfold stopDaemon. unfold sync, await, call, emit, reportFailure.
    cbn [bind run tryCatch app]. rewrite Hget. cbn [Js.show].
    rewrite Hread. cbn [bind run tryCatch app].
    match goal with
    | |- context [w ?X ?h (NewTail ?p ?b)] =>
        destruct (w X h (NewTail p b)) as [[]|e]
    end; cbn [bind run tryCatch app]; [|left; reflexivity].
    right.
    match goal with
    | |- context [w ?X ?h (Kill ?p ?sg)] =>
        destruct (w X h (Kill p sg)) as [[]|e]
    end; reflexivity.
  - left. unfold pushPaths, await, emit, reportFailure.
    cbn [bind run tryCatch app].
    match goal with
    | |- context [w ?X ?h (Exec ?a ?b)] =>
        destruct (w X h (Exec a b)) as [[]|e]
    end; reflexivity.
Qed.

(** If [setup] spawned the daemon with process id [p] and exported its
    directory, and the post step finds the exported variables and the
    written files again, then the only signal [upload] can send is one
    [SIGINT] to [p]: the id survives being written in decimal and parsed
    back. *)
Theorem upload_signals_spawned_pid
        (w1 w2 : World) (i : Inputs) (dn d : string) (p : Z) :
  (0 <= p < 2 ^ 53)%Z ->
  exported ENV_CACHIX_DAEMON_DIR (trace w1 (setup i dn)) = Some d ->
  In (Spawned "cachix"
        ["daemon"; "run"; "--socket"; (d ++ "/daemon.sock")%string] true
        (Some p))
     (pick daemonFact (trace w1 (setup i dn))) ->
  handsOver (trace w1 (setup i dn)) w2 ->
  fileHandsOver (trace w1 (setup i dn)) w2 ->
  pick killOf (trace w2 (upload i dn)) = [] \/
  pick killOf (trace w2 (upload i dn)) = [(Js.Int p, "SIGINT"%string)].
Proof.
  intros _ Hexp Hsp Henv Hfile.
  destruct (setup_export_facts w1 i dn Hexp)
    as (_ & pid & cachix & home & home' & Hf).
  assert (Hpid : pid = Some p).
  { rewrite Hf in Hsp. unfold daemonStarted in Hsp. cbn [app In] in Hsp.
    destruct Hsp as [H|[H|H]]; [discriminate | now injection H |].
    apply in_app_or in H. destruct H as [H|H].
    - destruct pid; cbn in H; [destruct H as [H|[]]; discriminate
                               |contradiction].
    - cbn in H. repeat (destruct H as [H|H]; [discriminate|]).
      contradiction. }
  subst pid.
  assert (Hw : In ((d ++ "/daemon.pid")%string,
                   Js.numberToString (Js.Int p))
                  (pick writtenFile (trace w1 (setup i dn)))).
  { apply wrote_written. rewrite Hf. unfold daemonStarted.
    cbn [pidFileFact app In]. right. right. now left. }
  rewrite <- (parseInt_numberToString p).
  apply upload_kills with (d := d).
  - intros h. now apply Henv.
  - intros h enc. now apply Hfile.
Qed.

Lemma replay_handsOver :
  handsOver (trace happy (setup daemonInputs dist))
            (replay (trace happy (setup daemonInputs dist))).
Proof.
  intros h k v H. unfold replay. now rewrite H.
Defined.

Lemma replay_fileHandsOver :
  fileHandsOver (trace happy (setup daemonInputs dist))
                (replay (trace happy (setup daemonInputs dist))).
Proof.
  intros h p data enc H. vm_compute in H.
  destruct H as [H|[H|[]]]; injection H as <- <-; vm_compute; reflexivity.
Defined.

Lemma upload_signals_spawned_pid_witness :
  pick killOf
    (trace (replay (trace happy (setup daemonInputs dist)))
       (upload daemonInputs dist)) = [] \/
  pick killOf
    (trace (replay (trace happy (setup daemonInputs dist)))
       (upload daemonInputs dist)) = [(Js.Int 4242, "SIGINT"%string)].
Proof.
  apply (@upload_signals_spawned_pid happy
           (replay (trace happy (setup daemonInputs dist)))
           daemonInputs dist "/tmp/cachix-daemon-Ab12" 4242).
  - split; [discriminate | reflexivity].
  - vm_compute. reflexivity.
  - vm_compute. right. left. reflexivity.
  - exact replay_handsOver.
  - exact replay_fileHandsOver.
Defined.

(** ** The names that get registered *)

Lemma trimStart_first (s : string) : notWhite (firstChar (Js.trimStart s)).
Proof.
  induction s as [|c s IH]; cbn [Js.trimStart]; [exact I|].
  destruct (Js.isWhiteSpace c) eqn:E; [exact IH | exact E].
Qed.

Lemma trimEnd_last (s : string) : notWhite (lastChar (Js.trimEnd s)).
Proof.
  induction s as [|c s IH]; cbn [Js.trimEnd]; [exact I|].
  destruct (Js.trimEnd s) as [|c' r] eqn:E.
  - destruct (Js.isWhiteSpace c) eqn:Ec; [exact I | exact Ec].
  - exact IH.
Qed.

Lemma trimEnd_first (s : string) :
  notWhite (firstChar s) -> notWhite (firstChar (Js.trimEnd s)).
Proof.
  destruct s as [|c s]; cbn [Js.trimEnd firstChar notWhite]; [auto|].
  intros H. destruct (Js.trimEnd s); [now rewrite H | exact H].
Qed.

Lemma trimEnd_fixed (s : string) :
  notWhite (lastChar s) -> Js.trimEnd s = s.
Proof.
  induction s as [|c s IH]; cbn [Js.trimEnd]; [reflexivity|].
  destruct s as [|c' s'].
  - cbn. intros H. now rewrite H.
  - intros H. rewrite IH by exact H.
    cbn [Js.trimEnd] in IH |- *. specialize (IH H).
    destruct (String c' s') eqn:E; [discriminate | reflexivity].
Qed.

Lemma trimStart_fixed (s : string) :
  notWhite (firstChar s) -> Js.trimStart s = s.
Proof.
  destruct s as [|c s]; cbn; [reflexivity|]. intros H. now rewrite H.
Qed.

Lemma trimStart_split (s : string) :
  exists l, s = (l ++ Js.trimStart s)%string /\ allWhite l = true.
Proof.
  induction s as [|c s (l & E & Hl)]; cbn [Js.trimStart].
  - exists ""%string. split; reflexivity.
  - destruct (Js.isWhiteSpace c) eqn:Ec.
    + exists (String c l). cbn [append allWhite]. rewrite <- E, Ec, Hl.
      split; reflexivity.
    + exists ""%string. split; reflexivity.
Qed.

Lemma trimEnd_split (s : string) :
  exists r, s = (Js.trimEnd s ++ r)%string /\ allWhite r = true.
Proof.
  induction s as [|c s (r & E & Hr)]; cbn [Js.trimEnd].
  - exists ""%string. split; reflexivity.
  - destruct (Js.trimEnd s) as [|c' t] eqn:Et.
    + cbn [append] in E. subst r.
      destruct (Js.isWhiteSpace c) eqn:Ec.
      * exists (String c s). cbn [append allWhite]. rewrite Ec, Hr.
        split; reflexivity.
      * exists s. split; [reflexivity | exact Hr].
    + exists r. cbn [append] in E |- *. rewrite <- E.
      split; [reflexivity | exact Hr].
Qed.

(** [trim] removes white space at both ends and nothing else: what is
    left neither starts nor ends with white space, the input is the result
    between two runs of white space, and trimming again changes
    nothing. *)
Theorem trim_strips_both_ends (s : string) :
  notWhite (firstChar (Js.trim s)) /\
  notWhite (lastChar (Js.trim s)) /\
  (exists l r, s = (l ++ Js.trim s ++ r)%string
               /\ allWhite l = true /\ allWhite r = true) /\
  Js.trim (Js.trim s) = Js.trim s.
Proof.
  unfold Js.trim.
  assert (H1 : notWhite (firstChar (Js.trimEnd (Js.trimStart s))))
    by (apply trimEnd_first, trimStart_first).
  assert (H2 : notWhite (lastChar (Js.trimEnd (Js.trimStart s))))
    by apply trimEnd_last.
  repeat split; auto.
  - destruct (trimStart_split s) as (l & El & Hl).
    destruct (trimEnd_split (Js.trimStart s)) as (r & Er & Hr).
    exists l, r. rewrite <- Er. auto.
  - rewrite (trimStart_fixed _ H1). now apply trimEnd_fixed.
Qed.

Lemma split_nonempty (sep : ascii) (s : string) : Js.split sep s <> [].
Proof.
  induction s as [|c s IH]; cbn [Js.split]; [discriminate|].
  destruct (Ascii.eqb c sep); [discriminate|].
  destruct (Js.split sep s); [contradiction | discriminate].
Qed.

Lemma join_cons (sep : ascii) (a b : string) (l : list string) :
  join sep (a :: b :: l) = (a ++ String sep (join sep (b :: l)))%string.
Proof. reflexivity. Qed.

Lemma split_join (sep : ascii) (s : string) :
  join sep (Js.split sep s) = s.
Proof.
  induction s as [|c s IH]; cbn [Js.split]; [reflexivity|].
  pose proof (split_nonempty sep s) as Hn.
  destruct (Ascii.eqb_spec c sep) as [->|Hc];
    destruct (Js.split sep s) as [|seg rest]; try contradiction.
  - rewrite join_cons, IH. reflexivity.
  - destruct rest as [|seg' rest].
    + cbn [join] in *. now rewrite IH.
    + rewrite join_cons in *. cbn [append]. now rewrite IH.
Qed.

Lemma split_length (sep : ascii) (s : string) :
  length (Js.split sep s) = S (occurrences sep s).
Proof.
  induction s as [|c s IH]; cbn [Js.split occurrences]; [reflexivity|].
  pose proof (split_nonempty sep s) as Hn.
  destruct (Ascii.eqb c sep); cbn [length Nat.add].
  - now rewrite IH.
  - destruct (Js.split sep s); [contradiction | exact IH].
Qed.

Lemma split_no_separator (sep : ascii) (s : string) :
  Forall (fun seg => occurrences sep seg = 0) (Js.split sep s).
Proof.
  induction s as [|c s IH]; cbn [Js.split]; [repeat constructor|].
  pose proof (split_nonempty sep s) as Hn.
  destruct (Ascii.eqb c sep) eqn:Ec.
  - constructor; [reflexivity | exact IH].
  - destruct (Js.split sep s) as [|seg rest]; [contradiction|].
    inversion IH; subst. constructor; [|assumption].
    cbn [occurrences]. now rewrite Ec.
Qed.

Lemma occurrences_append (c : ascii) (a b : string) :
  occurrences c (a ++ b) = occurrences c a + occurrences c b.
Proof.
  induction a as [|x a IH]; cbn [append occurrences]; [reflexivity|].
  rewrite IH. apply Nat.add_assoc.
Qed.

(** The extra caches [setup] registers (lines 53-59): for a non-empty
    [extraPullNames] there is one name per comma plus one, and a name
    holds no comma and neither starts nor ends with white space. *)
Theorem extra_names_clean (i : Inputs) :
  extraPullNames i <> ""%string ->
  length (extraUses i) = S (occurrences "," (extraPullNames i)) /\
  join "," (Js.split "," (extraPullNames i)) = extraPullNames i /\
  forall x, In x (extraUses i) ->
    occurrences "," x = 0 /\
    notWhite (firstChar x) /\ notWhite (lastChar x).
Proof.
  intros Hx. rewrite (extraUses_nonempty i Hx).
  rewrite length_map, split_length, split_join.
  repeat split.
  - apply in_map_iff in H as (seg & <- & Hin).
    pose proof (split_no_separator "," (extraPullNames i)) as Hf.
    rewrite Forall_forall in Hf. specialize (Hf seg Hin).
    destruct (trim_strips_both_ends seg) as (_ & _ & (l & r & E & _) & _).
    rewrite E, !occurrences_append in Hf. lia.
  - apply in_map_iff in H as (seg & <- & _).
    apply trim_strips_both_ends.
  - apply in_map_iff in H as (seg & <- & _).
    apply trim_strips_both_ends.
Qed.

Lemma extra_names_clean_witness :
  length (extraUses daemonInputs) =
  S (occurrences "," (extraPullNames daemonInputs)) /\
  join "," (Js.split "," (extraPullNames daemonInputs)) =
  extraPullNames daemonInputs.
Proof.
  destruct (@extra_names_clean daemonInputs) as (H1 & H2 & _);
    [discriminate | split; assumption].
Defined.

(** ** What setup may execute *)

Lemma emitsOnly_forOf_In {X : Type} (P : Event -> Prop) (xs : list X)
      (body : X -> Prog unit) :
  (forall x, In x xs -> emitsOnly P (body x)) -> emitsOnly P (forOf xs body).
Proof.
  induction xs as [|x xs IH]; cbn [forOf]; intros Hb; [exact I|].
  apply emitsOnly_bind.
  - apply Hb. now left.
  - intros _. apply IH. intros y Hy. apply Hb. now right.
Qed.

(** As [emits], keeping the outcome of every test. *)
Ltac emits_eqn :=
  repeat match goal with
    | |- emitsOnly _ (bind _ _) => apply emitsOnly_bind
    | |- emitsOnly _ (tryCatch _ _) => apply emitsOnly_tryCatch
    | |- emitsOnly _ (forOf _ _) => apply emitsOnly_forOf_In
    | |- emitsOnly _ (if ?b then _ else _) => destruct b eqn:?
    | |- emitsOnly _ (match ?x with _ => _ end) => destruct x eqn:?
    | |- emitsOnly _ (Ret _) => exact I
    | |- emitsOnly _ (Throw _) => exact I
    | |- emitsOnly _ (Emit _ _) => split
    | |- emitsOnly _ (Call _ _) => intros ?; split
    | |- emitsOnly _ (NoAwait _ _) => split; [intros ? |]
    | |- forall _, _ => intros ?
    end.

Lemma setup_emits_allowed (i : Inputs) (dn : string) :
  emitsOnly (fun ev => forall call,
                 execOf ev = Some call -> allowedExec i dn call)
            (setup i dn).
Proof.
  unfold_action. emits_eqn;
    match goal with
    | H : execOf _ = Some _ |- _ =>
        cbn [execOf] in H; try discriminate H; injection H as <-
    end; unfold allowedExec; cbn [fst snd].
  - right. left. reflexivity.
  - left. split; [reflexivity|]. left. reflexivity.
  - left. split; [reflexivity|]. right. left.
    split; [reflexivity|]. apply String.eqb_neq.
    now apply negb_true_iff.
  - left. split; [reflexivity|]. right. right. left.
    split; [reflexivity|]. now apply String.eqb_neq.
  - left. split; [reflexivity|]. right. right. right.
    match goal with x : string |- _ => exists x end.
    repeat split; auto. apply String.eqb_neq. now apply negb_true_iff.
  - right. right. split; [reflexivity|]. now apply String.eqb_neq.
Qed.

(** Whatever the world answers, [setup] runs nothing through [exec.exec]
    but the installer, the client's version check, the registration of the
    given token, of the primary cache and of the trimmed segments of
    [extraPullNames], and the store-path listing of the direct mode. *)
Theorem setup_executes_only_listed (w : World) (i : Inputs) (dn : string) :
  Forall (allowedExec i dn) (pick execOf (trace w (setup i dn))).
Proof.
  pose proof (@emitsOnly_Forall _ _ w _ [] (setup_emits_allowed i dn)
                (Forall_nil _)) as H.
  fold (trace w (setup i dn)) in H.
  induction H as [|ev t Hev _ IH]; cbn [pick]; [constructor|].
  destruct (execOf ev) as [call|] eqn:E; [|exact IH].
  constructor; [now apply Hev | exact IH].
Qed.

(** ** Failures and their annotations *)

Lemma forwarded_lines_plain (lines : list string) :
  firstRejectedCall (map (fun line => Out (Info line)) lines) = None /\
  pick failureOf (map (fun line => Out (Info line)) lines) = [].
Proof.
  induction lines as [|l lines [IH1 IH2]]; split; auto.
Qed.

Ltac failure_case :=
  unfold forwarded;
  cbn [app existsb isListen orb firstRejectedCall rejection rejected isKill
       killOf pick failureOf];
  rewrite ?(proj1 (forwarded_lines_plain _)),
          ?(proj2 (forwarded_lines_plain _));
  first [ reflexivity
        | split; reflexivity
        | eexists; split; reflexivity ].

(** [upload] never rejects.  Its first failed call, if it is not the
    signal, is followed by exactly its annotation and the end of the
    group.  If it is the signal ([process.kill]), the failure is
    swallowed: the step goes on to stop the tail and close the group, the
    lines of the log follow, and no annotation is made at all.  Without a
    failed call there is no annotation either. *)
Theorem upload_failures_annotated_but_kill
        (w : World) (i : Inputs) (dn : string) (lines : list string) :
  outcome w (upload i dn) = Ok tt /\
  match firstRejectedCall (uploadProcess w i dn lines) with
  | Some (ev, post) =>
      if isKill ev then
        post = [Out (Debug "Waiting for Cachix daemon to exit...");
                Out TailUnwatch; Out EndGroup]
               ++ map (fun line => Out (Info line)) lines /\
        pick failureOf (uploadProcess w i dn lines) = []
      else
        exists e,
          rejection ev = Some e /\
          post = annotationOf (@Rejected unit e) ++ [Out EndGroup]
  | None => pick failureOf (uploadProcess w i dn lines) = []
  end.
Proof.
  split; [apply upload_outcome|].
  unfold uploadProcess, trace, upload.
  destruct (skipPush i =? "true")%string; [reflexivity|].
  destruct (negb (signingKey i =? "")%string
            || negb (authToken i =? "")%string)%bool; [|reflexivity].
  destruct (useDaemon i =? "true")%string.
  - unfold stopDaemon. unfold sync, await, call, emit, reportFailure.
    cbn [bind run tryCatch app fst].
    match goal with
    | |- context [w ?X ?h (ReadFile ?p ?enc)] =>
        destruct (w X h (ReadFile p enc)) as [content|e]
    end; cbn [bind run tryCatch app fst]; [|failure_case].
    match goal with
    | |- context [w ?X ?h (NewTail ?p ?b)] =>
        destruct (w X h (NewTail p b)) as [[]|e]
    end; cbn [bind run tryCatch app fst]; [|failure_case].
    match goal with
    | |- context [w ?X ?h (Kill ?p ?sg)] =>
        destruct (w X h (Kill p sg)) as [[]|e]
    end; cbn [bind run tryCatch app fst]; failure_case.
  - unfold pushPaths, await, emit, reportFailure.
    cbn [bind run tryCatch app fst].
    match goal with
    | |- context [w ?X ?h (Exec ?a ?b)] =>
        destruct (w X h (Exec a b)) as [[]|e]
    end; cbn [bind run tryCatch app fst]; failure_case.
Qed.

(** ** Installing the client *)

Lemma setup_rest_no_bash (i : Inputs) (dn : string) :
  emitsOnly (fun ev => forall call, execOf ev = Some call ->
                                    fst call <> "bash"%string)
    (registerAuthToken i ;; usePrimaryCache i ;; useExtraCaches i ;;
     exportSigningKey i ;; setupBranch i dn).
Proof.
  unfold setupBranch. unfold_action. emits;
    match goal with
    | H : execOf _ = Some _ |- _ =>
        cbn [execOf] in H; try discriminate H; injection H as <-
    end; discriminate.
Qed.

Lemma pick_execOf_no_bash (t : Trace) :
  Forall (fun ev => forall call, execOf ev = Some call ->
                                 fst call <> "bash"%string) t ->
  Forall (fun call => fst call <> "bash"%string) (pick execOf t).
Proof.
  induction 1 as [|ev t Hev _ IH]; cbn [pick]; [constructor|].
  destruct (execOf ev) as [call|] eqn:E; [|exact IH].
  constructor; [now apply Hev | exact IH].
Qed.

(** [setup] first looks for the client.  If it is found, nothing is
    installed and the first program run is the version check.  If not,
    the installer [bash -c installCommand] runs first and once: when it
    succeeds the version check follows, when it fails nothing else is run
    and the failure is annotated. *)
Theorem install_only_when_missing (w : World) (i : Inputs) (dn : string) :
  let found := w _ [] (WhichSyncNoThrow "cachix") in
  let install := ("bash"%string, ["-c"; installCommand i]%string) in
  let version := ("cachix"%string, ["--version"%string]) in
  let execs := pick execOf (trace w (setup i dn)) in
  if truthy found then
    exists rest, execs = version :: rest
                 /\ Forall (fun call => fst call <> "bash"%string) rest
  else
    match w _ [Did (WhichSyncNoThrow "cachix") found;
               Out (StartGroup "Cachix: installing")]
            (Exec "bash" ["-c"; installCommand i]) with
    | Ok _ =>
        exists rest, execs = install :: version :: rest
                     /\ Forall (fun call => fst call <> "bash"%string) rest
    | Rejected e =>
        execs = [install] /\
        pick failureOf (trace w (setup i dn)) =
        pick failureOf (annotationOf (@Rejected unit e))
    end.
Proof.
  cbv zeta. unfold trace, setup. rewrite run_tryCatch, run_bind.
  unfold ensureInstalled. unfold call, await, emit. cbn [bind run app].
  destruct (truthy (w _ [] (WhichSyncNoThrow "cachix"))) eqn:Ef;
    cbn [negb bind run app].
  - rewrite run_bind. unfold checkVersion, await, emit.
    cbn [bind run app].
    match goal with
    | |- context [w ?X ?h (Exec "cachix" ?b)] =>
        destruct (w X h (Exec "cachix" b)) as [[]|e]
    end; cbn [bind run app].
    + match goal with
      | |- context [run w ?p ?h] =>
          destruct (@emitsOnly_suffix _ _ w p (setup_rest_no_bash i dn) h)
            as (t & E & Ht);
          destruct (run w p h) as [h' [[]|e]]
      end; cbn [fst] in E; subst h'; unfold reportFailure, emit;
        cbn [run fst]; rewrite ?pick_app; cbn [pick execOf app];
        eexists; (split; [reflexivity|]);
        rewrite ?app_nil_r; now apply pick_execOf_no_bash.
    + unfold reportFailure, emit. cbn [run fst pick execOf].
      eexists; split; [reflexivity | constructor].
  - match goal with
    | |- context [w ?X ?h (Exec "bash" ?b)] =>
        destruct (w X h (Exec "bash" b)) as [[]|e]
    end; cbn [bind run app].
    + rewrite run_bind. unfold checkVersion, await, emit.
      cbn [bind run app].
      match goal with
      | |- context [w ?X ?h (Exec "cachix" ?b)] =>
          destruct (w X h (Exec "cachix" b)) as [[]|e]
      end; cbn [bind run app].
      * match goal with
        | |- context [run w ?p ?h] =>
            destruct (@emitsOnly_suffix _ _ w p (setup_rest_no_bash i dn) h)
              as (t & E & Ht);
            destruct (run w p h) as [h' [[]|e]]
        end; cbn [fst] in E; subst h'; unfold reportFailure, emit;
          cbn [run fst]; rewrite ?pick_app; cbn [pick execOf app];
          eexists; (split; [reflexivity|]);
          rewrite ?app_nil_r; now apply pick_execOf_no_bash.
      * unfold reportFailure, emit. cbn [run fst pick execOf].
        eexists; split; [reflexivity | constructor].
    + unfold reportFailure, emit. cbn [run fst]. split; reflexivity.
Qed.

(** ** The signing key is exported after the registrations *)

Lemma runsUses_ret (w : World) : runsUses w (Ret tt) [].
Proof. intros h. exists []. now rewrite app_nil_r. Qed.

Lemma runsUses_emit (w : World) (o : Output) : runsUses w (emit o) [].
Proof. intros h. exists [Out o]. split; reflexivity. Qed.

Lemma runsUses_exec (w : World) (cl : string) (args : list string) :
  runsUses w (await (Exec cl args)) (useCalls [Did (Exec cl args) (Ok tt)]).
Proof.
  intros h. unfold await. cbn [run].
  destruct (w _ h (Exec cl args)) as [[]|e]; cbn [run]; [|exact I].
  exists [Did (Exec cl args) (Ok tt)]. split; reflexivity.
Qed.

Lemma runsUses_bind (w : World) (p q : Prog unit) (L1 L2 : list string) :
  runsUses w p L1 -> runsUses w q L2 -> runsUses w (p ;; q) (L1 ++ L2).
Proof.
  intros Hp Hq h. rewrite run_bind. specialize (Hp h).
  destruct (run w p h) as [h1 [[]|e]]; [|exact I].
  destruct Hp as (t1 & -> & U1). specialize (Hq (h ++ t1)).
  destruct (run w q (h ++ t1)) as [h2 [[]|e]]; [|exact I].
  destruct Hq as (t2 & -> & U2). exists (t1 ++ t2).
  rewrite app_assoc. split; [reflexivity|].
  unfold useCalls in *. now rewrite pick_app, U1, U2.
Qed.

Lemma runsUses_forOf (w : World) (xs : list string)
      (body : string -> Prog unit) (g : string -> string) :
  (forall x, runsUses w (body x) [g x]) ->
  runsUses w (forOf xs body) (map g xs).
Proof.
  intros Hb. induction xs as [|x xs IH]; cbn [forOf map].
  - apply runsUses_ret.
  - change (g x :: map g xs) with ([g x] ++ map g xs).
    apply runsUses_bind; auto.
Qed.

Lemma registration_uses (w : World) (i : Inputs) :
  runsUses w (registration i) (primaryUse i ++ extraUses i).
Proof.
  unfold registration.
  apply (runsUses_bind (L1 := [])).
  { intros h. unfold ensureInstalled, call. cbn [bind run].
    set (found := w _ h (WhichSyncNoThrow "cachix")).
    destruct (truthy found); cbn [negb].
    - exists [Did (WhichSyncNoThrow "cachix") found]. split; reflexivity.
    - pose proof (runsUses_bind
                    (runsUses_emit w (StartGroup "Cachix: installing"))
                    (runsUses_bind
                       (runsUses_exec w "bash" ["-c"; installCommand i])
                       (runsUses_emit w EndGroup))
                    (h ++ [Did (WhichSyncNoThrow "cachix") found])) as H.
      match type of H with
      | context [run w ?p ?h0] => destruct (run w p h0) as [h' [[]|e]]
      end; [|exact I].
      destruct H as (t & -> & U).
      exists (Did (WhichSyncNoThrow "cachix") found :: t).
      rewrite <- app_assoc. split; [reflexivity | exact U]. }
  apply (runsUses_bind (L1 := [])).
  { unfold checkVersion.
    apply (runsUses_bind (L1 := []) (L2 := [])); [apply runsUses_emit|].
    apply (runsUses_bind (L1 := []) (L2 := [])); [|apply runsUses_emit].
    apply (runsUses_exec w "cachix" ["--version"]). }
  apply (runsUses_bind (L1 := [])).
  { unfold registerAuthToken.
    destruct (negb (authToken i =? "")%string); [|apply runsUses_ret].
    apply (runsUses_exec w "cachix" ["authtoken"; authToken i]). }
  apply runsUses_bind.
  { unfold usePrimaryCache, primaryUse.
    destruct (skipAddingSubstituter i =? "true")%string;
      [apply runsUses_emit|].
    apply (runsUses_bind (L1 := []) (L2 := [name i])); [apply runsUses_emit|].
    apply (runsUses_bind (L1 := [name i]) (L2 := [])); [|apply runsUses_emit].
    apply (runsUses_exec w "cachix" ["use"; name i]). }
  unfold useExtraCaches, extraUses.
  destruct (extraPullNames i =? "")%string; cbn [negb];
    [apply runsUses_ret|].
  apply (runsUses_bind (L1 := [])
           (L2 := map Js.trim (Js.split "," (extraPullNames i))));
    [apply runsUses_emit|].
  rewrite <- (app_nil_r (map Js.trim (Js.split "," (extraPullNames i)))).
  apply runsUses_bind; [|apply runsUses_emit].
  apply runsUses_forOf. intros x.
  apply (runsUses_exec w "cachix" ["use"; Js.trim x]).
Qed.

Lemma registration_no_key (i : Inputs) :
  emitsOnly (fun ev => signingKeyExport ev = None) (registration i).
Proof. unfold registration. unfold_action. emits; reflexivity. Qed.

Lemma branch_no_key_no_use (i : Inputs) (dn : string) :
  emitsOnly (fun ev => signingKeyExport ev = None /\ useCall ev = None)
    (setupBranch i dn).
Proof. unfold setupBranch. unfold_action. emits; split; reflexivity. Qed.

Lemma setup_split_registration (w : World) (i : Inputs) (dn : string) :
  run w (setup i dn) [] =
  match run w (registration i) [] with
  | (h', Ok _) =>
      match run w (exportSigningKey i ;; setupBranch i dn) h' with
      | (h'', Ok _) => (h'', Ok tt)
      | (h'', Rejected e) => run w (reportFailure e) h''
      end
  | (h', Rejected e) => run w (reportFailure e) h'
  end.
Proof.
  unfold setup, registration, setupBranch. rewrite run_tryCatch.
  generalize (@nil Event). intros h.
  do 4 (rewrite (run_bind w _ _ h); rewrite (run_bind w _ _ h);
        match goal with
        | |- context [run w ?p h] => destruct (run w p h) as [h1 [[]|e]]
        end; [clear h; rename h1 into h | reflexivity]).
  rewrite run_bind.
  destruct (run w (useExtraCaches i) h) as [h1 [[]|e]]; [|reflexivity].
  destruct (run w _ h1) as [h2 [[]|e]]; reflexivity.
Qed.

(** The signing key is exported at most once, never when it is empty, and
    only after the installation, the authentication and every
    registration have gone through: by then the [use] calls made are the
    primary cache (unless skipped) and all the extra caches. *)
Theorem signing_key_exported_after_registration
        (w : World) (i : Inputs) (dn : string) :
  pick signingKeyExport (trace w (setup i dn)) = [] \/
  (pick signingKeyExport (trace w (setup i dn)) = [signingKey i] /\
   signingKey i <> ""%string /\
   useCalls (trace w (setup i dn)) = primaryUse i ++ extraUses i).
Proof.
  unfold trace. rewrite setup_split_registration.
  pose proof (registration_uses w i []) as Hu.
  pose proof (@emitsOnly_pick _ _ signingKeyExport w _ []
                (registration_no_key i)) as Hk.
  destruct (run w (registration i) []) as [h1 [[]|e1]]; cbn [fst] in Hk.
  2:{ left. unfold reportFailure, emit. cbn [run fst].
      now rewrite pick_app, Hk. }
  destruct Hu as (t1 & E1 & U1). cbn [app] in E1. subst h1.
  rewrite run_bind. unfold exportSigningKey.
  destruct (String.eqb_spec (signingKey i) "") as [Hs|Hs]; cbn [negb].
  - left. cbn [run].
    destruct (@emitsOnly_suffix _ _ w _ (branch_no_key_no_use i dn) t1)
      as (t2 & E2 & F2).
    destruct (run w (setupBranch i dn) t1) as [h2 [[]|e2]];
      cbn [fst] in E2; subst h2; unfold reportFailure, emit;
      cbn [run fst]; rewrite !pick_app, Hk;
      rewrite (Forall_pick_nil signingKeyExport (t := t2));
      try reflexivity;
      (eapply Forall_impl; [|exact F2]); now intros ev [? ?].
  - right. unfold emit. cbn [run].
    destruct (@emitsOnly_suffix _ _ w _ (branch_no_key_no_use i dn)
                (t1 ++ [Out (ExportVariable "CACHIX_SIGNING_KEY"
                               (signingKey i))]))
      as (t2 & E2 & F2).
    assert (K2 : pick signingKeyExport t2 = []).
    { apply Forall_pick_nil. eapply Forall_impl; [|exact F2].
      now intros ev [? ?]. }
    assert (U2 : pick useCall t2 = []).
    { apply Forall_pick_nil. eapply Forall_impl; [|exact F2].
      now intros ev [? ?]. }
    destruct (run w (setupBranch i dn) _) as [h2 [[]|e2]];
      cbn [fst] in E2; subst h2; unfold reportFailure, emit, useCalls in *;
      cbn [run fst]; rewrite !pick_app, Hk, K2, U2, U1;
      cbn [pick signingKeyExport useCall cachixCall String.eqb Ascii.eqb
           Bool.eqb app];
      rewrite ?app_nil_r; auto.
Qed.

(** ** The type guards *)




(** ** The entry point *)

(** With a set [STATE_isPost] an invocation runs [upload] and nothing
    else.  Without it, the invocation saves the state flag first, and
    ["Setup done"] is logged as soon as [setup] waits for the first time:
    right after the client lookup and the opening of the first group,
    before any program has been run. *)
Theorem main_logs_setup_done_early
        (w : World) (statePost : option string) (i : Inputs) (dn : string) :
  if truthy statePost then
    mainTrace w statePost i dn = map Step (trace w (upload i dn))
  else
    let found := w _ [] (WhichSyncNoThrow "cachix") in
    exists call answer rest,
      mainTrace w statePost i dn =
      Saved "isPost" "true"
      :: Step (Did (WhichSyncNoThrow "cachix") found)
      :: Step (Out (StartGroup (if truthy found
                                then "Cachix: checking version"
                                else "Cachix: installing")))
      :: Step (Out (Debug "Setup done"))
      :: Step (Did (Exec (fst call) (snd call)) answer)
      :: map Step rest /\
      call = (if truthy found
              then ("cachix", ["--version"])
              else ("bash", ["-c"; installCommand i]))%string.
Proof.
  unfold mainTrace. destruct (truthy statePost); cbn [negb]; [reflexivity|].
  cbv zeta. unfold trace, setup, ensureInstalled, checkVersion.
  unfold call, await, emit. cbn [bind tryCatch atFirstAwait isPromise run app].
  destruct (truthy (w _ [] (WhichSyncNoThrow "cachix")));
    cbn [negb bind tryCatch atFirstAwait isPromise run app];
    match goal with
    | |- context [run w ?p ?h] =>
        destruct (run_extends w p h) as [t ->]
    end; cbn [app map];
    [exists ("cachix"%string, ["--version"%string])
    |exists ("bash"%string, ["-c"; installCommand i]%string)];
    do 2 eexists; split; reflexivity.
Qed.

(** ** The hook script, for every plain client path, directory and name *)

Lemma shellPlain_cons (c : ascii) (s : string) :
  shellPlain (String c s) = true ->
  shellPlainChar c = true /\ shellPlain s = true.
Proof. cbn [shellPlain]. intros H. now apply andb_prop in H. Qed.

Lemma plainChar_not_newline (c : ascii) :
  shellPlainChar c = true -> Ascii.eqb c "010" = false.
Proof.
  unfold shellPlainChar. intros H. apply negb_true_iff in H.
  repeat (apply orb_false_elim in H as [H ?]). assumption.
Qed.

Lemma plain_noNewline (s : string) :
  shellPlain s = true -> noNewline s = true.
Proof.
  induction s as [|c s IH]; [reflexivity|]. intros H.
  apply shellPlain_cons in H as [Hc Hs]. cbn [noNewline].
  now rewrite (plainChar_not_newline _ Hc), (IH Hs).
Qed.

Lemma split_noNewline (s rest : string) :
  noNewline s = true ->
  Js.split "010" (s ++ rest) = consHead s (Js.split "010" rest).
Proof.
  induction s as [|c s IH]; intros H.
  - cbn [append consHead]. pose proof (split_nonempty "010" rest).
    now destruct (Js.split "010" rest).
  - cbn [noNewline] in H. apply andb_prop in H as [Hc Hs].
    apply negb_true_iff in Hc.
    cbn [append Js.split]. rewrite Hc, (IH Hs).
    pose proof (split_nonempty "010" rest).
    destruct (Js.split "010" rest); [contradiction | reflexivity].
Qed.

Lemma split_newline (rest : string) :
  Js.split "010" (Js.nl ++ rest) = EmptyString :: Js.split "010" rest.
Proof. reflexivity. Qed.

(** The lines of the hook script. *)
Lemma hook_lines (cachix dd nm : string) :
  shellPlain cachix = true -> shellPlain dd = true -> shellPlain nm = true ->
  Js.split "010" (postBuildHookScript cachix dd nm) =
  [""; "      #!/bin/sh"; ""; "      set -eux";
   "      set -f #disable globbing"; "      export IFS=''"; "";
   "      exec " ++ cachix ++ " daemon push " ++
   "        --socket " ++ dd ++ "/daemon.sock " ++
   "        " ++ nm ++ " $OUT_PATHS";
   "     "]%string.
Proof.
  intros Hc Hd Hn. unfold postBuildHookScript.
  repeat first
    [ rewrite split_newline
    | rewrite split_noNewline
        by first [reflexivity | apply plain_noNewline; assumption] ].
  reflexivity.
Qed.

Lemma lex_space (rest : string) (ws : list Sh.Word) (cur : option Sh.Word) :
  Sh.lex (String " " rest) ws cur Sh.Normal =
  Sh.lex rest (Sh.closeWord ws cur) None Sh.Normal.
Proof. reflexivity. Qed.

Lemma normalStep_plain (c : ascii) (rest : string) (ws : list Sh.Word)
      (cur : option Sh.Word) :
  shellPlainChar c = true ->
  Sh.normalStep c rest ws cur =
  Sh.Continue ws (Sh.pushPart cur (Sh.Lit c)) Sh.Normal.
Proof.
  unfold shellPlainChar, Sh.normalStep, Sh.isBlank. intros H.
  apply negb_true_iff in H.
  repeat (apply orb_false_elim in H as [H ?]).
  repeat match goal with E : _ = false |- _ => rewrite E; clear E end.
  reflexivity.
Qed.

Lemma lex_plain_char (c : ascii) (rest : string) (ws : list Sh.Word)
      (cur : option Sh.Word) :
  shellPlainChar c = true ->
  Sh.lex (String c rest) ws cur Sh.Normal =
  Sh.lex rest ws (Sh.pushPart cur (Sh.Lit c)) Sh.Normal.
Proof. intros H. cbn [Sh.lex]. now rewrite normalStep_plain. Qed.

Lemma lex_plain (s rest : string) (ws : list Sh.Word) (cur : option Sh.Word) :
  shellPlain s = true ->
  Sh.lex (s ++ rest) ws cur Sh.Normal =
  Sh.lex rest ws (pushLits cur s) Sh.Normal.
Proof.
  revert cur. induction s as [|c s IH]; intros cur H; [reflexivity|].
  apply shellPlain_cons in H as [Hc Hs].
  cbn [append pushLits]. rewrite lex_plain_char by exact Hc. now apply IH.
Qed.

Lemma pushLits_Some (wd : Sh.Word) (s : string) :
  pushLits (Some wd) s = Some (wd ++ lits s).
Proof.
  revert wd. induction s as [|c s IH]; intros wd; cbn [pushLits Sh.pushPart].
  - now rewrite app_nil_r.
  - rewrite IH, <- app_assoc. reflexivity.
Qed.

Lemma pushLits_None (s : string) :
  s <> ""%string -> pushLits None s = Some (lits s).
Proof.
  destruct s as [|c s]; [congruence|]. intros _.
  cbn [pushLits Sh.pushPart]. now rewrite pushLits_Some.
Qed.

Lemma pushPart_pushLits (s : string) (p : Sh.Part) :
  Sh.pushPart (pushLits None s) p = Some (lits s ++ [p]).
Proof.
  destruct s as [|c s]; [reflexivity|].
  cbn [pushLits Sh.pushPart]. now rewrite pushLits_Some.
Qed.

Lemma lits_app (a b : string) : lits (a ++ b) = lits a ++ lits b.
Proof.
  unfold lits. induction a as [|c a IH]; [reflexivity|].
  cbn [append list_ascii_of_string map app]. now rewrite IH.
Qed.

Lemma hook_exec_words (cachix dd nm : string) :
  shellPlain cachix = true -> shellPlain dd = true -> shellPlain nm = true ->
  cachix <> ""%string -> nm <> ""%string ->
  Sh.words ("      exec " ++ cachix ++ " daemon push " ++
            "        --socket " ++ dd ++ "/daemon.sock " ++
            "        " ++ nm ++ " $OUT_PATHS") =
  Some [lits "exec"; lits cachix; lits "daemon"; lits "push";
        lits "--socket"; lits (dd ++ "/daemon.sock"); lits nm;
        [Sh.Param "OUT_PATHS"]].
Proof.
  intros Hc Hd Hn Hce Hne. unfold Sh.words. cbn [append].
  repeat first
    [ rewrite lex_space
    | rewrite lex_plain_char by reflexivity
    | rewrite lex_plain by assumption ].
  rewrite pushPart_pushLits, !pushLits_None by assumption.
  rewrite lits_app.
  cbn [Sh.closeWord Sh.pushPart app].
  rewrite <- !app_assoc. reflexivity.
Qed.

Lemma hook_preamble (env : list (string * string)) (rest : list string) :
  Sh.runLines
    {| Sh.errexit := false; Sh.nounset := false; Sh.xtrace := false;
       Sh.noglob := false; Sh.vars := env |}
    (""%string :: "      #!/bin/sh"%string :: ""%string ::
     "      set -eux"%string :: "      set -f #disable globbing"%string ::
     "      export IFS=''"%string :: ""%string :: rest) =
  Sh.runLines (hookShell env) rest.
Proof. reflexivity. Qed.

Lemma literalOf_lits (s : string) : Sh.literalOf (lits s) = Some s.
Proof.
  unfold lits. induction s as [|c s IH]; [reflexivity|].
  cbn [list_ascii_of_string map Sh.literalOf]. now rewrite IH.
Qed.

Lemma expand_lits (st : Sh.Shell) (s : string) :
  Sh.expand st (lits s) = Sh.Chars (Sh.tag Sh.Literal s) false.
Proof.
  unfold lits, Sh.tag. induction s as [|c s IH]; [reflexivity|].
  cbn [list_ascii_of_string map Sh.expand]. now rewrite IH.
Qed.

Lemma untag_of_tag (o : Sh.Origin) (s : string) : Sh.untag (Sh.tag o s) = s.
Proof.
  unfold Sh.untag, Sh.tag. induction s as [|c s IH]; [reflexivity|].
  cbn [list_ascii_of_string map string_of_list_ascii fst]. now rewrite IH.
Qed.

Lemma fields_null (o : Sh.Origin) (s : string) :
  Sh.fields "" (Sh.tag o s) false =
  if String.eqb s "" then [] else [s].
Proof.
  unfold Sh.fields. cbn [String.eqb].
  destruct s as [|c s]; [reflexivity|].
  cbn [Sh.tag list_ascii_of_string map]. fold (Sh.tag o s).
  change ((c, o) :: Sh.tag o s) with (Sh.tag o (String c s)).
  now rewrite untag_of_tag.
Qed.

Lemma argvOf_lits (st : Sh.Shell) (s : string) (ws : list Sh.Word) :
  Sh.noglob st = true -> Sh.ifsOf st = ""%string -> s <> ""%string ->
  Sh.argvOf st (lits s :: ws) =
  match Sh.argvOf st ws with
  | Sh.Execs _ rest => Sh.Execs st (s :: rest)
  | other => other
  end.
Proof.
  intros Hg Hi Hs. cbn [Sh.argvOf]. rewrite expand_lits, Hg, Hi, fields_null.
  cbn [negb andb]. destruct s as [|c s]; [congruence|]. reflexivity.
Qed.

Lemma argvOf_out_paths (env : list (string * string)) :
  Sh.argvOf (hookShell env) [[Sh.Param "OUT_PATHS"]] =
  match Sh.lookup "OUT_PATHS" env with
  | None => Sh.Unbound "OUT_PATHS"
  | Some v => Sh.Execs (hookShell env) (if String.eqb v "" then [] else [v])
  end.
Proof.
  cbn [Sh.argvOf Sh.expand hookShell Sh.vars Sh.lookup Sh.nounset Sh.noglob
       negb andb].
  change (String.eqb "IFS" "OUT_PATHS") with false. cbv iota.
  destruct (Sh.lookup "OUT_PATHS" env) as [v|]; [|reflexivity].
  rewrite !app_nil_r.
  change (Sh.ifsOf _) with ""%string. rewrite fields_null.
  reflexivity.
Qed.

(** Whatever client path, daemon directory and cache name the hook was
    generated with, as long as none of them holds a character the shell
    gives a meaning to, and whatever environment the build tool starts it
    in: the hook replaces itself by the client, called with [daemon push],
    the socket of the daemon directory, the cache name, and then the whole
    of [OUT_PATHS] as one argument; it passes no path when [OUT_PATHS] is
    empty, and stops on the unbound variable when it is not set. *)
Theorem hook_runs_client (cachix dd nm : string)
        (env : list (string * string)) :
  shellPlain cachix = true -> shellPlain dd = true -> shellPlain nm = true ->
  cachix <> ""%string -> nm <> ""%string ->
  Sh.run (postBuildHookScript cachix dd nm) env =
  match Sh.lookup "OUT_PATHS" env with
  | None => Sh.Unbound "OUT_PATHS"
  | Some v =>
      Sh.Execs (hookShell env)
        (hookCommand cachix dd nm ++ if String.eqb v "" then [] else [v])
  end.
Proof.
  intros Hc Hd Hn Hce Hne. unfold Sh.run.
  rewrite hook_lines by assumption. rewrite hook_preamble.
  cbn [Sh.runLines]. rewrite hook_exec_words by assumption.
  unfold Sh.command. rewrite literalOf_lits.
  assert (Hsock : (dd ++ "/daemon.sock")%string <> ""%string)
    by (destruct dd; discriminate).
  rewrite !argvOf_lits by first [reflexivity | assumption | discriminate].
  rewrite argvOf_out_paths.
  destruct (Sh.lookup "OUT_PATHS" env) as [v|]; reflexivity.
Qed.

Lemma hook_runs_client_witness :
  Sh.run (postBuildHookScript "/usr/bin/cachix" "/tmp/cachix-daemon-Ab12"
            "my-cache")
         [("OUT_PATHS"%string, twoOutPaths)] =
  Sh.Execs (hookShell [("OUT_PATHS"%string, twoOutPaths)])
    (hookCommand "/usr/bin/cachix" "/tmp/cachix-daemon-Ab12" "my-cache" ++
     [twoOutPaths]).
Proof.
  exact (@hook_runs_client "/usr/bin/cachix" "/tmp/cachix-daemon-Ab12"
           "my-cache" [("OUT_PATHS"%string, twoOutPaths)]
           eq_refl eq_refl eq_refl
           ltac:(discriminate) ltac:(discriminate)).
Defined.

(** ** The log groups of [setup] *)

Lemma groupState_app (h t : Trace) (b : bool) :
  groupState (h ++ t) b =
  match groupState h b with
  | Some b' => groupState t b'
  | None => None
  end.
Proof.
  revert b. induction h as [|ev h IH]; intros b; [reflexivity|].
  cbn [app groupState].
  destruct ev as [[]| |]; try destruct b; auto.
Qed.

Lemma keepsGroups_run {A : Type} (w : World) (p : Prog A) (inside : bool)
      (Q : bool -> Prop) :
  keepsGroups p inside Q ->
  forall h b0, groupState h b0 = Some inside ->
  exists b', groupState (fst (run w p h)) b0 = Some b' /\
             match snd (run w p h) with
             | Ok _ => Q b'
             | Rejected _ => True
             end.
Proof.
  revert inside. induction p as [a|e|o k IH|X c k IH|X c k IH];
    intros inside Hp h b0 Hh; cbn [run].
  - exists inside. auto.
  - exists inside. auto.
  - destruct o; cbn [keepsGroups] in Hp;
      try (apply (IH inside Hp); rewrite groupState_app, Hh; reflexivity).
    + destruct Hp as [-> Hk]. apply (IH true Hk).
      rewrite groupState_app, Hh. reflexivity.
    + destruct Hp as [-> Hk]. apply (IH false Hk).
      rewrite groupState_app, Hh. reflexivity.
  - apply (IH _ inside (Hp _)). rewrite groupState_app, Hh. reflexivity.
  - apply (IH inside Hp). rewrite groupState_app, Hh. reflexivity.
Qed.

Lemma keepsGroups_impl {A : Type} (p : Prog A) (inside : bool)
      (Q Q' : bool -> Prop) :
  (forall b, Q b -> Q' b) -> keepsGroups p inside Q -> keepsGroups p inside Q'.
Proof.
  intros HQ. revert inside.
  induction p as [a|e|o k IH|X c k IH|X c k IH]; intros inside;
    cbn [keepsGroups]; auto.
  destruct o; auto; intros [? ?]; split; auto.
Qed.

Lemma keepsGroups_bind {A B : Type} (p : Prog A) (f : A -> Prog B)
      (inside : bool) (Q : bool -> Prop) :
  keepsGroups p inside (fun b => forall a, keepsGroups (f a) b Q) ->
  keepsGroups (bind p f) inside Q.
Proof.
  revert inside.
  induction p as [a|e|o k IH|X c k IH|X c k IH]; intros inside;
    cbn [keepsGroups bind]; auto.
  destruct o; auto; intros [? ?]; split; auto.
Qed.

Lemma keepsGroups_forOf {X : Type} (xs : list X) (body : X -> Prog unit)
      (inside : bool) (Q : bool -> Prop) :
  (forall x, keepsGroups (body x) inside (fun b => b = inside)) ->
  Q inside -> keepsGroups (forOf xs body) inside Q.
Proof.
  intros Hb HQ. induction xs as [|x xs IH]; cbn [forOf keepsGroups]; auto.
  apply keepsGroups_bind.
  apply keepsGroups_impl with (Q := fun b => b = inside); [|apply Hb].
  intros b -> _. exact IH.
Qed.

Ltac groups :=
  repeat match goal with
    | |- keepsGroups (bind _ _) _ _ => apply keepsGroups_bind
    | |- keepsGroups (forOf _ _) _ _ => apply keepsGroups_forOf
    | |- keepsGroups (if ?b then _ else _) _ _ => destruct b
    | |- keepsGroups (match ?x with _ => _ end) _ _ => destruct x
    | |- keepsGroups (Throw _) _ _ => exact I
    | |- keepsGroups _ _ _ => progress cbn [keepsGroups]
    | |- forall _, _ => intros ?
    | |- _ /\ _ => split
    | |- _ = _ => reflexivity
    end.

Lemma setup_body_keeps_groups (i : Inputs) (dn : string) :
  keepsGroups
    (ensureInstalled i ;; checkVersion ;; registerAuthToken i ;;
     usePrimaryCache i ;; useExtraCaches i ;; exportSigningKey i ;;
     if String.eqb (useDaemon i) "true" then startDaemon i
     else rememberStorePaths dn)%prog
    false (fun b => b = false).
Proof. unfold_action. groups. Qed.

(** The log groups of [setup] never nest and none is closed that was not
    opened; a run without failure annotation closes every group it
    opened.  A failure inside a group leaves it open, and whatever the
    inputs this can happen: when the commands run through [exec] fail,
    [setup] ends inside a group. *)
Theorem setup_groups (w : World) (i : Inputs) (dn : string) :
  (exists inside,
     groupState (trace w (setup i dn)) false = Some inside /\
     (pick failureOf (trace w (setup i dn)) = [] -> inside = false)) /\
  exists w', groupState (trace w' (setup i dn)) false = Some true.
Proof.
  split.
  - unfold trace, setup. rewrite run_tryCatch.
    destruct (@keepsGroups_run _ w _ _ _ (setup_body_keeps_groups i dn) []
                false eq_refl) as (b & Hg & Hq).
    match goal with
    | |- context [run w ?p []] => destruct (run w p []) as [h' [[]|e]]
    end; cbn [fst snd] in Hg, Hq.
    + exists b. split; [exact Hg | intros _; exact Hq].
    + unfold reportFailure, emit. cbn [run fst]. exists b. split.
      * rewrite groupState_app, Hg. reflexivity.
      * rewrite pick_app. cbn [pick failureOf].
        destruct (pick failureOf h'); discriminate.
  - exists refusing. reflexivity.
Qed.
